(** * tfmodellib: batching helpers, config persistence, model life cycle, VAE loss

    A shallow embedding of [tfmodellib/tfmodel.py] and of the graph builder
    and the loss of [tfmodellib/vae.py].  Python integers are [Z]; Python
    floats are binary64 numbers and the numbers of a float32 tensor are
    binary32 numbers, both as [spec_float]; Python lists are [list];
    insertion-ordered dicts are association lists updated in place; an
    attribute that may not have been assigned yet is an [option]; code that
    mutates the instance or raises runs in the monad [M] below, in which the
    state survives a raised exception, as it does in Python. *)

From Stdlib Require Import ZArith String Ascii Bool Lia List.
From Stdlib Require Import Relations RelationClasses Morphisms.
From Stdlib Require Import DecimalString.
From Stdlib Require Import SpecFloat.
Import ListNotations.
Open Scope string_scope.
Open Scope list_scope.
Open Scope Z_scope.

(** ** Exceptions *)

Inductive exn : Type :=
| NameError (name : string)
| AttributeError (attr : string)
| IndexError (msg : string)
| KeyError (key : string)
| ValueError (msg : string)
| TypeError (msg : string)
| NotImplementedError (msg : string)
| ImportError (module : string)
| IOError (path : string)
| JSONDecodeError (path : string)
| NotFoundError (path : string)
| ZeroDivisionError
| SystemExit (code : Z).

(** [isinstance(e, Exception)]: every class above but [SystemExit], which
    derives from [BaseException] only, so that [except Exception] lets it
    pass.  [IOError] stands for [OSError] and its subclasses. *)
Definition is_exception (e : exn) : bool :=
  match e with
  | SystemExit _ => false
  | _ => true
  end.

(** ** Python sequences: [len], slices, [range] *)

Module Py.
Section Seq.
Context {A : Type}.

Definition len (l : list A) : Z := Z.of_nat (length l).

(** A slice bound is brought into [0..n]: a negative bound counts from the
    end, anything beyond an end is clipped. *)
Definition clip (n i : Z) : Z :=
  if i <? 0 then Z.max (i + n) 0 else Z.min i n.

(** [l[lo:hi]] *)
Definition slice (l : list A) (lo hi : Z) : list A :=
  let a := clip (len l) lo in
  let b := clip (len l) hi in
  firstn (Z.to_nat (b - a)) (skipn (Z.to_nat a) l).

(** [l[i]] on a list *)
Definition item (l : list A) (i : Z) : exn + A :=
  let j := if i <? 0 then i + len l else i in
  if j <? 0 then inl (IndexError "list index out of range")
  else match nth_error l (Z.to_nat j) with
       | Some x => inr x
       | None => inl (IndexError "list index out of range")
       end.
End Seq.

(** Number of elements of [range(start, stop, step)]. *)
Definition range_len (start stop step : Z) : Z :=
  if 0 <? step then
    if start <? stop then (stop - start - 1) / step + 1 else 0
  else if step <? 0 then
    if stop <? start then (start - stop - 1) / (- step) + 1 else 0
  else 0.

(** [range(start, stop, step)], a [ValueError] for a zero step. *)
Definition range3 (start stop step : Z) : exn + list Z :=
  if step =? 0 then inl (ValueError "range() arg 3 must not be zero")
  else inr (map (fun j => start + Z.of_nat j * step)
                (seq 0 (Z.to_nat (range_len start stop step)))).

(** [range(n)] *)
Definition range (n : Z) : list Z :=
  map Z.of_nat (seq 0 (Z.to_nat n)).
End Py.

(** ** [chunklist] *)

Section Chunklist.
Context {A : Type}.

(** The body of the [for i in range(0, len(values), length)] loop, over
    the indices still to visit; the list collects what the generator
    yields, and [return] ends it. *)
Fixpoint chunklist_loop (values : list A) (length_ : Z) (indices : list Z)
  : list (list A) :=
  match indices with
  | [] => []
  | i :: rest =>
      let out := Py.slice values i (i + length_) in
      if Py.len out =? length_
      then out :: chunklist_loop values length_ rest
      else []
  end.

Definition chunklist (values : list A) (length_ : Z) : exn + list (list A) :=
  match Py.range3 0 (Py.len values) length_ with
  | inl e => inl e
  | inr indices => inr (chunklist_loop values length_ indices)
  end.

(** Cutting [m] times at most [k] leading elements off a list, stopping
    at the first short piece: what the loop does, without indices. *)
Fixpoint chop (m k : nat) (l : list A) : list (list A) :=
  match m with
  | O => []
  | S m' =>
      if (length (firstn k l) =? k)%nat
      then firstn k l :: chop m' k (skipn k l)
      else []
  end.
End Chunklist.

(** ** Facts about slices and [chunklist] *)

Section ChunklistFacts.
Context {A : Type}.
Implicit Types (l values : list A).

Lemma firstn_add_skipn (a b : nat) l :
  firstn (a + b) l = firstn a l ++ firstn b (skipn a l).
Proof.
  revert l; induction a as [|a IH]; intros l; simpl.
  - reflexivity.
  - destruct l as [|x l]; simpl.
    + now rewrite firstn_nil.
    + now rewrite IH.
Qed.

Lemma slice_block l (a k : nat) :
  Py.slice l (Z.of_nat a) (Z.of_nat a + Z.of_nat k)
  = firstn k (skipn a l).
Proof.
  unfold Py.slice, Py.clip, Py.len.
  set (n := length l).
  destruct (Z.ltb_spec (Z.of_nat a) 0) as [H|_]; [lia|].
  destruct (Z.ltb_spec (Z.of_nat a + Z.of_nat k) 0) as [H|_]; [lia|].
  destruct (Nat.le_gt_cases n a) as [Hge|Hlt].
  - rewrite !Z.min_r by lia.
    rewrite Z.sub_diag. simpl.
    rewrite (skipn_all2 l) by (subst n; lia).
    now rewrite firstn_nil.
  - rewrite (Z.min_l (Z.of_nat a)) by lia.
    rewrite Nat2Z.id.
    destruct (Z.le_gt_cases (Z.of_nat a + Z.of_nat k) (Z.of_nat n)) as [Hk|Hk].
    + rewrite Z.min_l by lia. f_equal. lia.
    + rewrite Z.min_r by lia.
      rewrite !firstn_all2; [reflexivity| |]; rewrite length_skipn; subst n; lia.
Qed.

Lemma chunklist_loop_chop values (k a m : nat) :
  chunklist_loop values (Z.of_nat k)
    (map (fun j => 0 + Z.of_nat j * Z.of_nat k) (seq a m))
  = chop m k (skipn (a * k) values).
Proof.
  revert a; induction m as [|m IH]; intros a;
    cbn [map seq chunklist_loop chop]; [reflexivity|].
  replace (0 + Z.of_nat a * Z.of_nat k) with (Z.of_nat (a * k)) by lia.
  rewrite slice_block. unfold Py.len.
  rewrite IH.
  replace (S a * k)%nat with (k + a * k)%nat by lia.
  rewrite <- skipn_skipn.
  destruct (Nat.eqb_spec (length (firstn k (skipn (a * k) values))) k) as [E|E].
  - rewrite E, Z.eqb_refl. reflexivity.
  - destruct (Z.eqb_spec (Z.of_nat (length (firstn k (skipn (a * k) values))))
                (Z.of_nat k)) as [E'|_]; [lia|reflexivity].
Qed.

(** [chop] with enough rounds cuts [q] full pieces out of a list of
    length [q * k + r], [r < k]. *)
Lemma chop_full (k : nat) : (0 < k)%nat ->
  forall m l q r,
    length l = (q * k + r)%nat -> (r < k)%nat -> (q <= m)%nat ->
    length (chop m k l) = q
    /\ Forall (fun c => length c = k) (chop m k l)
    /\ concat (chop m k l) = firstn (q * k) l.
Proof.
  intros Hk. induction m as [|m IH]; intros l q r Hl Hr Hq; simpl.
  - assert (q = 0)%nat by lia. subst q. simpl. auto.
  - rewrite length_firstn.
    destruct (Nat.eqb_spec (Nat.min k (length l)) k) as [E|E].
    + destruct q as [|q]; [simpl in Hl; lia|].
      destruct (IH (skipn k l) q r) as (H1 & H2 & H3).
      * rewrite length_skipn. simpl in Hl. lia.
      * exact Hr.
      * lia.
      * simpl. split; [now rewrite H1|]. split.
        -- constructor; [rewrite length_firstn; exact E|exact H2].
        -- rewrite H3. now rewrite <- firstn_add_skipn.
    + assert (q = 0)%nat by (destruct q; [reflexivity|simpl in Hl; lia]).
      subst q. simpl. auto.
Qed.
End ChunklistFacts.

Section ChunklistSpec.
Context {A : Type}.

(** C4.  For a chunk length [k > 0], [chunklist values k] yields exactly
    [len values / k] chunks, each of length exactly [k], in order: put end
    to end they are the first [(len values / k) * k] elements of [values],
    and the [len values mod k] trailing elements are dropped. *)
Theorem chunklist_spec (values : list A) (k : Z) :
  0 < k ->
  exists chunks dropped,
    chunklist values k = inr chunks
    /\ Py.len chunks = Py.len values / k
    /\ Forall (fun c => Py.len c = k) chunks
    /\ concat chunks = firstn (Z.to_nat (Py.len values / k * k)) values
    /\ values = concat chunks ++ dropped
    /\ Py.len dropped = Py.len values mod k.
Proof.
  intros Hk.
  set (n := Py.len values).
  assert (Hn : 0 <= n) by (unfold n, Py.len; lia).
  pose proof (Z.div_mod n k ltac:(lia)) as Hdm.
  pose proof (Z.mod_pos_bound n k Hk) as Hr.
  assert (Hq : 0 <= n / k) by (apply Z.div_pos; lia).
  set (kn := Z.to_nat k).
  set (q := Z.to_nat (n / k)).
  set (r := Z.to_nat (n mod k)).
  set (m := Z.to_nat (Py.range_len 0 n k)).
  assert (Hm : (q <= m)%nat).
  { unfold m, q, Py.range_len.
    destruct (Z.ltb_spec 0 k) as [_|]; [|lia].
    destruct (Z.ltb_spec 0 n) as [Hpos|Hz].
    - apply Z2Nat.inj_le; [lia| |].
      + assert (0 <= (n - 0 - 1) / k) by (apply Z.div_pos; lia). lia.
      + replace ((n - 0 - 1) / k + 1) with ((n - 1 + 1 * k) / k)
          by (rewrite Z.div_add by lia; f_equal; f_equal; lia).
        apply Z.div_le_mono; lia.
    - assert (n = 0) by lia.
      replace (n / k) with 0 by (subst n; rewrite H; reflexivity). lia. }
  assert (Hlen : length values = (q * kn + r)%nat).
  { unfold q, kn, r. apply Nat2Z.inj.
    rewrite Nat2Z.inj_add, Nat2Z.inj_mul, !Z2Nat.id by lia.
    fold (Py.len values). fold n. lia. }
  destruct (chop_full kn ltac:(unfold kn; lia) m values q r Hlen
              ltac:(unfold r, kn; lia) Hm) as (H1 & H2 & H3).
  exists (chop m kn values), (skipn (q * kn) values).
  assert (Hrun : chunklist values k = inr (chop m kn values)).
  { unfold chunklist, Py.range3. fold n.
    destruct (Z.eqb_spec k 0) as [|_]; [lia|].
    fold m. replace k with (Z.of_nat kn) by (unfold kn; lia).
    rewrite chunklist_loop_chop. reflexivity. }
  assert (Hqk : Z.to_nat (n / k * k) = (q * kn)%nat).
  { unfold q, kn. rewrite Z2Nat.inj_mul by lia. reflexivity. }
  repeat split.
  - exact Hrun.
  - unfold Py.len. rewrite H1. unfold q. lia.
  - eapply Forall_impl; [|exact H2].
    intros c Hc. unfold Py.len. rewrite Hc. unfold kn. lia.
  - rewrite Hqk. exact H3.
  - rewrite H3. symmetry. apply firstn_skipn.
  - unfold Py.len. rewrite length_skipn, Hlen.
    replace (q * kn + r - q * kn)%nat with r by lia.
    unfold r. lia.
Qed.

Lemma chunklist_zero_length (values : list A) :
  chunklist values 0 = inl (ValueError "range() arg 3 must not be zero").
Proof. reflexivity. Qed.
End ChunklistSpec.

(** The docstring's examples. *)
Example chunklist_range_6_2 :
  chunklist (Py.range 6) 2 = inr [[0; 1]; [2; 3]; [4; 5]].
Proof. reflexivity. Qed.

Example chunklist_range_7_3 :
  chunklist (Py.range 7) 3 = inr [[0; 1; 2]; [3; 4; 5]].
Proof. reflexivity. Qed.

Lemma chunklist_spec_witness :
  0 < 3 /\
  exists chunks dropped,
    chunklist (Py.range 7) 3 = inr chunks
    /\ Py.len chunks = Py.len (Py.range 7) / 3
    /\ Forall (fun c => Py.len c = 3) chunks
    /\ concat chunks = firstn (Z.to_nat (Py.len (Py.range 7) / 3 * 3)) (Py.range 7)
    /\ Py.range 7 = concat chunks ++ dropped
    /\ Py.len dropped = Py.len (Py.range 7) mod 3.
Proof.
  split; [lia | apply (chunklist_spec (Py.range 7) 3); lia].
Defined.

(** ** Computations that mutate and raise

    [M S A]: a computation over a state [S] that returns an [A] or raises.
    The state reached before a [raise] is kept. *)

Definition M (S A : Type) : Type := S -> (exn + A) * S.

Section Monad.
Context {S : Type}.

Definition ret {A} (a : A) : M S A := fun s => (inr a, s).
Definition raise {A} (e : exn) : M S A := fun s => (inl e, s).
Definition lift {A} (r : exn + A) : M S A := fun s => (r, s).
Definition bind {A B} (m : M S A) (f : A -> M S B) : M S B :=
  fun s =>
    match m s with
    | (inr a, s') => f a s'
    | (inl e, s') => (inl e, s')
    end.
Definition get : M S S := fun s => (inr s, s).
Definition gets {A} (f : S -> A) : M S A := fun s => (inr (f s), s).
Definition modify (f : S -> S) : M S unit := fun s => (inr tt, f s).

(** [try: m except Exception as e: h e]: what is not an [Exception] is
    not caught. *)
Definition try_except {A} (m : M S A) (h : exn -> M S A) : M S A :=
  fun s =>
    match m s with
    | (inr a, s') => (inr a, s')
    | (inl e, s') => if is_exception e then h e s' else (inl e, s')
    end.

(** [for x in l: result.append(f(x))] *)
Fixpoint for_each {A B} (f : A -> M S B) (l : list A) : M S (list B) :=
  match l with
  | [] => ret []
  | x :: xs =>
      bind (f x) (fun y => bind (for_each f xs) (fun ys => ret (y :: ys)))
  end.

(** Reading an attribute that is only there once it has been assigned. *)
Definition attr {A} (name : string) (field : S -> option A) : M S A :=
  fun s =>
    match field s with
    | Some a => (inr a, s)
    | None => (inl (AttributeError name), s)
    end.
End Monad.

Declare Scope py_scope.
Delimit Scope py_scope with py.
Notation "x <- m ;; k" := (bind m (fun x => k))
  (at level 61, m at next level, right associativity) : py_scope.
Notation "m ;; k" := (bind m (fun _ => k))
  (at level 61, right associativity) : py_scope.
Open Scope py_scope.

(** ** [maybe_chunked] *)

Section MaybeChunked.
(** [A]: the elements of [values]; [Args]: the extra positional and
    keyword arguments handed through; [R]: what a handler returns;
    [E]: the elements of a handler result that is iterated over. *)
Context {S A Args R E : Type}.

Definition handler : Type := list A -> Args -> M S R.

(** [on_chunked] is one callable, or an iterable of callables: the
    [iter(on_chunked)] test tells them apart. *)
Inductive chunked_handlers : Type :=
  | Single (f : handler)
  | Many (fs : list handler).

(** The three shapes of [result]. *)
Inductive chunk_result : Type :=
  | Whole (r : R)
  | PerChunk (rs : list R)
  | PerFunction (rss : list (list E)).

(** [sub_result += r] iterates over [r]. *)
Variable iter_result : R -> exn + list E.

Definition maybe_chunked (values : list A) (length_ : option Z)
    (on_chunked : chunked_handlers) (on_not_chunked : handler) (args : Args)
  : M S (chunk_result * bool) :=
  match length_ with
  | None =>
      result <- on_not_chunked values args ;;
      ret (Whole result, false)
  | Some k =>
      match on_chunked with
      | Single f =>
          chunks <- lift (chunklist values k) ;;
          result <- for_each (fun v => f v args) chunks ;;
          ret (PerChunk result, true)
      | Many fs =>
          result <- for_each (fun f =>
                      chunks <- lift (chunklist values k) ;;
                      subs <- for_each (fun v =>
                                r <- f v args ;; lift (iter_result r)) chunks ;;
                      ret (concat subs)) fs ;;
          ret (PerFunction result, true)
      end
  end.

(** A handler that also records its call: which handler ran on which
    values. *)
Definition traced (tag : bool) (h : handler)
  : list A -> Args -> M (S * list (bool * list A)) R :=
  fun v args st =>
    let '(r, s') := h v args (fst st) in
    (r, (s', snd st ++ [(tag, v)])).
End MaybeChunked.

Arguments chunked_handlers : clear implicits.
Arguments chunk_result : clear implicits.
Arguments handler : clear implicits.

Section MaybeChunkedFacts.
Context {S A Args R E : Type}.
Variable iter_result : R -> exn + list E.

Definition traced_handlers (h : chunked_handlers S A Args R)
  : chunked_handlers (S * list (bool * list A)) A Args R :=
  match h with
  | Single f => Single (traced true f)
  | Many fs => Many (map (traced true) fs)
  end.

(** C5.  With [length = None], [maybe_chunked] is one call of the
    not-chunked handler on the whole sequence, and its result paired with
    [False]; the chunked handlers are not called.  The second part says
    it with a call record: the record grows by the single entry
    "not-chunked handler, on [values]". *)
Theorem maybe_chunked_None (values : list A)
    (f : chunked_handlers S A Args R) (g : handler S A Args R) (args : Args) :
  maybe_chunked iter_result values None f g args
    = (r <- g values args ;; ret (Whole r, false))
  /\ forall s calls,
      maybe_chunked iter_result values None
        (traced_handlers f) (traced false g) args (s, calls)
      = match g values args s with
        | (inr r, s') => (inr (Whole r, false), (s', calls ++ [(false, values)]))
        | (inl e, s') => (inl e, (s', calls ++ [(false, values)]))
        end.
Proof.
  split; [reflexivity|].
  intros s calls. unfold maybe_chunked, bind, traced, ret. simpl.
  destruct (g values args s) as [[e|r] s']; reflexivity.
Qed.

(** The flag says which shape the result has. *)
Lemma maybe_chunked_flag (values : list A) k
    (f : chunked_handlers S A Args R) (g : handler S A Args R) (args : Args)
    s res flag s' :
  maybe_chunked iter_result values k f g args s = (inr (res, flag), s') ->
  match res with
  | Whole _ => flag = false /\ k = None
  | PerChunk _ => flag = true /\ exists h, f = Single h
  | PerFunction _ => flag = true /\ exists hs, f = Many hs
  end.
Proof.
  unfold maybe_chunked, bind, ret, lift.
  destruct k as [k|].
  - destruct f as [h|hs].
    + destruct (chunklist values k) as [e|chunks]; [discriminate|].
      match goal with
      | |- context [for_each ?h ?l ?s0] =>
          destruct (for_each h l s0) as [[e|rs] s1]; [discriminate|]
      end.
      intros H; inversion H; subst. eauto.
    + match goal with
      | |- context [for_each ?h ?l ?s0] =>
          destruct (for_each h l s0) as [[e|rs] s1]; [discriminate|]
      end.
      intros H; inversion H; subst. eauto.
  - destruct (g values args s) as [[e|r] s1]; [discriminate|].
    intros H; inversion H; subst. auto.
Qed.
End MaybeChunkedFacts.

(** ** What a computation may do to the state

    [respects R m]: the state [m] ends in, whether it returns or raises,
    is related by [R] to the state it started from.  [R] is a preorder;
    [keeps f] is the case "the component [f] is as it was". *)

Section Frames.
Context {S : Type} (R : relation S) `{!PreOrder R}.

Definition respects {A} (m : M S A) : Prop := forall s, R s (snd (m s)).

Lemma respects_ret {A} (a : A) : respects (ret a).
Proof. intros s. reflexivity. Qed.

Lemma respects_raise {A} (e : exn) : respects (@raise S A e).
Proof. intros s. reflexivity. Qed.

Lemma respects_lift {A} (r : exn + A) : respects (lift r).
Proof. intros s. reflexivity. Qed.

Lemma respects_get : respects get.
Proof. intros s. reflexivity. Qed.

Lemma respects_gets {A} (g : S -> A) : respects (gets g).
Proof. intros s. reflexivity. Qed.

Lemma respects_attr {A} name (field : S -> option A) :
  respects (attr name field).
Proof. intros s. unfold attr. destruct (field s); reflexivity. Qed.

Lemma respects_modify (g : S -> S) :
  (forall s, R s (g s)) -> respects (modify g).
Proof. intros H s. apply H. Qed.

Lemma respects_bind {A B} (m : M S A) (k : A -> M S B) :
  respects m -> (forall a, respects (k a)) -> respects (bind m k).
Proof.
  intros Hm Hk s. unfold bind.
  specialize (Hm s). destruct (m s) as [[e|a] s1]; simpl in *.
  - exact Hm.
  - etransitivity; [exact Hm|apply Hk].
Qed.

Lemma respects_try_except {A} (m : M S A) (h : exn -> M S A) :
  respects m -> (forall e, respects (h e)) -> respects (try_except m h).
Proof.
  intros Hm Hh s. unfold try_except.
  specialize (Hm s). destruct (m s) as [[e|a] s1]; simpl in *.
  - destruct (is_exception e); [|exact Hm].
    etransitivity; [exact Hm|apply Hh].
  - exact Hm.
Qed.

Lemma respects_for_each {A B} (k : A -> M S B) (l : list A) :
  (forall a, respects (k a)) -> respects (for_each k l).
Proof.
  intros Hk. induction l as [|x l IH]; simpl.
  - apply respects_ret.
  - apply respects_bind; [apply Hk|]. intros y.
    apply respects_bind; [exact IH|]. intros ys. apply respects_ret.
Qed.

Lemma respects_maybe_chunked {A Args R' E} (it : R' -> exn + list E)
    (values : list A) (k : option Z) (h : handler S A Args R')
    (g : handler S A Args R') (args : Args) :
  (forall v a, respects (h v a)) -> (forall v a, respects (g v a)) ->
  respects (maybe_chunked it values k (Single h) g args).
Proof.
  intros Hh Hg. unfold maybe_chunked. destruct k as [k|].
  - apply respects_bind; [apply respects_lift|]. intros chunks.
    apply respects_bind; [apply respects_for_each; intros; apply Hh|].
    intros rs. apply respects_ret.
  - apply respects_bind; [apply Hg|]. intros r. apply respects_ret.
Qed.
End Frames.

(** The component [f] of the state is as it was. *)
Definition same {S X} (f : S -> X) : relation S := fun s s' => f s' = f s.

#[export] Instance same_PreOrder {S X} (f : S -> X) : PreOrder (same f).
Proof.
  split.
  - intros s. reflexivity.
  - intros a b c Hab Hbc. unfold same in *. congruence.
Qed.

Abbreviation keeps f := (respects (same f)).

(** A [bind] that returned went through both of its parts. *)
Lemma bind_returns {S A B} (m : M S A) (k : A -> M S B) s b s' :
  bind m k s = (inr b, s') ->
  exists a s1, m s = (inr a, s1) /\ k a s1 = (inr b, s').
Proof.
  unfold bind. destruct (m s) as [[e|a] s1]; [discriminate|]. eauto.
Qed.

(** Splits a [respects] goal along the structure of the computation. *)
Ltac frame_step :=
  match goal with
  | |- respects _ (bind _ _) =>
      apply respects_bind; try typeclasses eauto; [|intros]
  | |- respects _ (ret _) => apply respects_ret; typeclasses eauto
  | |- respects _ (raise _) => apply respects_raise; typeclasses eauto
  | |- respects _ (lift _) => apply respects_lift; typeclasses eauto
  | |- respects _ (gets _) => apply respects_gets; typeclasses eauto
  | |- respects _ get => apply respects_get; typeclasses eauto
  | |- respects _ (attr _ _) => apply respects_attr; typeclasses eauto
  | |- respects _ (for_each _ _) =>
      apply respects_for_each; try typeclasses eauto; intros
  | |- respects _ (maybe_chunked _ _ _ (Single _) _ _) =>
      apply respects_maybe_chunked; try typeclasses eauto; intros
  | |- respects _ (modify _) => apply respects_modify; intros
  | |- respects _ (match ?x with _ => _ end) => destruct x
  | |- respects _ (if ?x then _ else _) => destruct x
  end.
Create HintDb frames.
Ltac frame := repeat frame_step; auto with frames.

Lemma respects_weaken {S A} (R R' : relation S) (m : M S A) :
  (forall s s', R s s' -> R' s s') -> respects R m -> respects R' m.
Proof. intros H Hm s. apply H, Hm. Qed.

(** ** Dicts

    A Python dict with string keys, in insertion order: assigning to a key
    that is present replaces its value in place, a new key goes last. *)

Module Dict.
Section Ops.
Context {V : Type}.
Definition t : Type := list (string * V).

Fixpoint get (k : string) (d : t) : option V :=
  match d with
  | [] => None
  | (k', v) :: r => if String.eqb k k' then Some v else get k r
  end.

Fixpoint set (k : string) (v : V) (d : t) : t :=
  match d with
  | [] => [(k, v)]
  | (k', v') :: r =>
      if String.eqb k k' then (k, v) :: r else (k', v') :: set k v r
  end.

(** [d.update(new)] *)
Definition update (d new : t) : t :=
  fold_left (fun acc kv => set (fst kv) (snd kv) acc) new d.

Definition keys (d : t) : list string := map fst d.
Definition mem (k : string) (d : t) : bool :=
  match get k d with Some _ => true | None => false end.
End Ops.
Arguments t : clear implicits.
End Dict.

(** ** Values of a configuration, and JSON documents

    A Python [float] is an IEEE 754 binary64 value, here a [spec_float]
    (sign, mantissa and exponent, the two zeros, the infinities, one NaN).
    json writes a float by its [repr], which reads back as the same float,
    and writes and reads [NaN] and the infinities by name. *)

(** A function or class: it is the object it is ([co_id]), and carries the
    [__name__] and [__module__] it was defined under. *)
Record callable : Type := {
  co_id : nat;
  co_name : string;
  co_module : string
}.

#[local] Unset Elimination Schemes.

Inductive pyval : Type :=
| PNone
| PBool (b : bool)
| PInt (z : Z)
| PFloat (f : spec_float)
| PStr (s : string)
| PList (l : list pyval)
| PTuple (l : list pyval)
| PDict (d : list (string * pyval))
| PCallable (c : callable)
| PObject (id : nat).   (* any other object: not callable, not known to json *)

Inductive json : Type :=
| JNull
| JBool (b : bool)
| JInt (z : Z)
| JFloat (f : spec_float)
| JStr (s : string)
| JArr (l : list json)
| JObj (o : list (string * json)).

#[local] Set Elimination Schemes.

Module TFModelConfigEncoder.
Definition CALLABLE_TYPE : string :=
  "TFMODELLIB_TFMODEL_JSONENCODER__CALLABLE_TYPE".

(** [default(self, obj)]: the marker triple for a callable, and
    [json.JSONEncoder.default]'s [TypeError] for anything else. *)
Definition default (obj : pyval) : exn + (string * string * string) :=
  match obj with
  | PCallable c => inr (CALLABLE_TYPE, co_name c, co_module c)
  | _ => inl (TypeError "Object is not JSON serializable")
  end.

(** [json.dump(..., cls=TFModelConfigEncoder)] on a value: what json
    knows it writes itself (a tuple as an array), the rest goes through
    [default], whose triple is written as an array of three strings. *)
Fixpoint encode (v : pyval) : exn + json :=
  let fix encode_list (l : list pyval) : exn + list json :=
    match l with
    | [] => inr []
    | x :: xs =>
        match encode x with
        | inl e => inl e
        | inr j =>
            match encode_list xs with
            | inl e => inl e
            | inr js => inr (j :: js)
            end
        end
    end in
  let fix encode_items (d : list (string * pyval)) : exn + list (string * json) :=
    match d with
    | [] => inr []
    | (k, x) :: xs =>
        match encode x with
        | inl e => inl e
        | inr j =>
            match encode_items xs with
            | inl e => inl e
            | inr js => inr ((k, j) :: js)
            end
        end
    end in
  match v with
  | PNone => inr JNull
  | PBool b => inr (JBool b)
  | PInt z => inr (JInt z)
  | PFloat f => inr (JFloat f)
  | PStr s => inr (JStr s)
  | PList l | PTuple l =>
      match encode_list l with inl e => inl e | inr js => inr (JArr js) end
  | PDict d =>
      match encode_items d with inl e => inl e | inr o => inr (JObj o) end
  | PCallable _ | PObject _ =>
      match default v with
      | inl e => inl e
      | inr (marker, name, module) => inr (JArr [JStr marker; JStr name; JStr module])
      end
  end.
End TFModelConfigEncoder.

(** What [json.load] builds from a document: arrays become lists, objects
    become dicts (a repeated key keeps its last value). *)
Fixpoint decode (j : json) : pyval :=
  match j with
  | JNull => PNone
  | JBool b => PBool b
  | JInt z => PInt z
  | JFloat f => PFloat f
  | JStr s => PStr s
  | JArr l => PList (map decode l)
  | JObj o => PDict (Dict.update [] (map (fun kv => (fst kv, decode (snd kv))) o))
  end.

(** ** The world outside the program *)

Inductive file : Type :=
| JsonDoc (j : json)     (* the text of a JSON document *)
| NotJson.               (* anything else, an empty or half-written file too *)

(** What importing a module does the first time: its code runs, and either
    leaves the module's [__dict__] or raises, an [Exception] or not. *)
Inductive module_code : Type :=
| Namespace (d : Dict.t pyval)
| Raises (e : exn).

Record world : Type := {
  files : Dict.t file;
  unwritable : list string;              (* paths [open(_, 'w')] fails on *)
  dirs : Dict.t (list string);           (* directory |-> names of its entries *)
  stdout : list exn;                     (* what [print(e)] printed *)
  version_info : Z * Z;                  (* [sys.version_info], major and minor *)
  modules : Dict.t module_code           (* module on the path |-> what importing it does *)
}.

Definition set_files (f : Dict.t file) (w : world) : world :=
  {| files := f; unwritable := unwritable w; dirs := dirs w;
     stdout := stdout w; version_info := version_info w; modules := modules w |}.
Definition set_dirs (d : Dict.t (list string)) (w : world) : world :=
  {| files := files w; unwritable := unwritable w; dirs := d;
     stdout := stdout w; version_info := version_info w; modules := modules w |}.
Definition set_stdout (o : list exn) (w : world) : world :=
  {| files := files w; unwritable := unwritable w; dirs := dirs w;
     stdout := o; version_info := version_info w; modules := modules w |}.

Definition print (e : exn) : M world unit :=
  modify (fun w => set_stdout (stdout w ++ [e]) w).

(** [open(fname, 'w')]: fails, or leaves an empty file. *)
Definition open_w (fname : string) : M world unit :=
  w <- get ;;
  if existsb (String.eqb fname) (unwritable w)
  then raise (IOError fname)
  else modify (set_files (Dict.set fname NotJson (files w))).

(** [json.dump(obj, fp, cls=TFModelConfigEncoder)] into the opened file:
    the document when every value can be written; otherwise the exception,
    with the file left half-written. *)
Definition json_dump (obj : pyval) (fname : string) : M world unit :=
  match TFModelConfigEncoder.encode obj with
  | inl e => raise e
  | inr j => w <- get ;; modify (set_files (Dict.set fname (JsonDoc j) (files w)))
  end.

(** [with open(fname, 'r') as fp: json.load(fp)] *)
Definition json_load (fname : string) : M world pyval :=
  w <- get ;;
  match Dict.get fname (files w) with
  | None => raise (IOError fname)
  | Some NotJson => raise (JSONDecodeError fname)
  | Some (JsonDoc j) => ret (decode j)
  end.

(** [sys.version_info >= (3,4)] *)
Definition version_at_least_3_4 (v : Z * Z) : bool :=
  (3 <? fst v) || ((fst v =? 3) && (4 <=? snd v)).

(** ** [TFModelConfig] *)

Module TFModelConfig.
Definition t : Type := Dict.t pyval.

Definition DEBUG : Z := 10.

Definition defaults : t :=
  [ ("summaries_root", PNone);
    ("checkpoints_root", PNone);
    ("epoch_summaries_interval", PInt 1);
    ("step_summaries_interval", PNone);
    ("saver_interval", PNone);
    ("saver_max_to_keep", PInt 50);
    ("scope_name", PStr "tfmodel");
    ("log_level", PInt DEBUG);
    ("log_file", PNone);
    ("batch_size", PInt 32);
    ("prefetch", PNone);
    ("shuffle_buffer", PNone) ].

(** [TFModelConfig(key=value, ...)]: the defaults, then the subclass's [init],
    then the keyword arguments. *)
Definition new (init : t -> t) (kwargs : t) : t :=
  Dict.update (init (Dict.update [] defaults)) kwargs.

Definition save (self : t) (fname : string) : M world unit :=
  try_except
    (open_w fname ;; json_dump (PDict self) fname)
    (fun e => print e).

(** [isinstance(val, list) and len(val) > 0] and [val[0] == CALLABLE_TYPE] *)
Definition is_callable_marker (val : pyval) : bool :=
  match val with
  | PList (PStr s :: _) => String.eqb s TFModelConfigEncoder.CALLABLE_TYPE
  | _ => false
  end.

(** [importlib.import_module(val[2]).__dict__[val[1]]] *)
Definition import_callable (mods : Dict.t module_code) (val : list pyval)
  : exn + pyval :=
  match Py.item val 2 with
  | inl e => inl e
  | inr (PStr module) =>
      match Dict.get module mods with
      | None => inl (ImportError module)
      | Some (Raises e) => inl e
      | Some (Namespace namespace) =>
          match Py.item val 1 with
          | inl e => inl e
          | inr (PStr name) =>
              match Dict.get name namespace with
              | Some obj => inr obj
              | None => inl (KeyError name)
              end
          | inr (PList _) | inr (PDict _) => inl (TypeError "unhashable type")
          | inr _ => inl (KeyError "")
          end
      end
  | inr _ => inl (AttributeError "startswith")
  end.

Definition legacy_message : string :=
  "Restoring function handles from checkpoints only implemented for Python versions 3.4 and newer.".

(** The [for key,val in conf.items()] loop, over the items still to
    visit, with [conf] as assigned so far. *)
Fixpoint restore_callables (ver : Z * Z) (mods : Dict.t module_code)
    (items : list (string * pyval)) (conf : t) : exn + t :=
  match items with
  | [] => inr conf
  | (key, val) :: rest =>
      if is_callable_marker val then
        if version_at_least_3_4 ver then
          match val with
          | PList l =>
              match import_callable mods l with
              | inl e => inl e
              | inr obj => restore_callables ver mods rest (Dict.set key obj conf)
              end
          | _ => restore_callables ver mods rest conf
          end
        else inl (NotImplementedError legacy_message)
      else restore_callables ver mods rest conf
  end.

(** [load] returns nothing; the dict it leaves [self] as is returned
    here. *)
Definition load (self : t) (fname : string) : M world t :=
  try_except
    (conf <- json_load fname ;;
     match conf with
     | PDict d =>
         w <- get ;;
         conf' <- lift (restore_callables (version_info w) (modules w) d d) ;;
         ret (Dict.update self conf')
     | _ => raise (AttributeError "items")
     end)
    (fun e => print e ;; ret self).
End TFModelConfig.

(** ** Facts about dicts *)

Fixpoint distinct (l : list string) : bool :=
  match l with
  | [] => true
  | x :: r => negb (existsb (String.eqb x) r) && distinct r
  end.

Section DictFacts.
Context {V : Type}.
Implicit Types (d : Dict.t V) (k : string) (v : V).

Lemma existsb_eqb_false k (l : list string) :
  existsb (String.eqb k) l = false <-> ~ In k l.
Proof.
  induction l as [|x l IH]; simpl.
  - tauto.
  - rewrite orb_false_iff, IH.
    destruct (String.eqb_spec k x); intuition congruence.
Qed.

Lemma distinct_app_cons (pre : list string) k post :
  distinct (pre ++ k :: post) = true ->
  ~ In k pre /\ ~ In k post /\ distinct (pre ++ post) = true.
Proof.
  induction pre as [|x pre IH]; simpl.
  - rewrite andb_true_iff, negb_true_iff, existsb_eqb_false. tauto.
  - rewrite !andb_true_iff, !negb_true_iff, !existsb_eqb_false.
    intros [Hx Hd]. destruct (IH Hd) as (H1 & H2 & H3).
    repeat split; auto.
    + intros [->|H]; [|tauto]. apply Hx, in_or_app. right. now left.
    + intros H. apply Hx. apply in_app_or in H. apply in_or_app.
      destruct H; [now left|right; now right].
Qed.

Lemma get_In k v d : Dict.get k d = Some v -> In (k, v) d.
Proof.
  induction d as [|[k' v'] d IH]; simpl; [discriminate|].
  destruct (String.eqb_spec k k') as [->|_].
  - intros [= ->]. now left.
  - intros H. right. now apply IH.
Qed.

Lemma get_set_same k v d : Dict.get k (Dict.set k v d) = Some v.
Proof.
  induction d as [|[k' v'] d IH]; simpl.
  - now rewrite String.eqb_refl.
  - destruct (String.eqb_spec k k') as [->|Hne]; simpl.
    + now rewrite String.eqb_refl.
    + destruct (String.eqb_spec k k'); [contradiction|exact IH].
Qed.

Lemma get_set_other k k' v d :
  k <> k' -> Dict.get k (Dict.set k' v d) = Dict.get k d.
Proof.
  intros Hne. induction d as [|[k0 v0] d IH]; simpl.
  - destruct (String.eqb_spec k k'); [contradiction|reflexivity].
  - destruct (String.eqb_spec k' k0) as [->|Hne0]; simpl.
    + destruct (String.eqb_spec k k0); [contradiction|reflexivity].
    + destruct (String.eqb_spec k k0); [reflexivity|exact IH].
Qed.

Lemma get_update_absent k d new :
  ~ In k (Dict.keys new) -> Dict.get k (Dict.update d new) = Dict.get k d.
Proof.
  unfold Dict.update. revert d.
  induction new as [|[k' v'] new IH]; intros d Hk; simpl; [reflexivity|].
  simpl in Hk. rewrite IH by tauto.
  apply get_set_other. intros ->. tauto.
Qed.

Lemma get_update_present k v d new :
  distinct (Dict.keys new) = true -> In (k, v) new ->
  Dict.get k (Dict.update d new) = Some v.
Proof.
  unfold Dict.update. revert d.
  induction new as [|[k' v'] new IH]; intros d Hd Hin; simpl; [destruct Hin|].
  simpl in Hd. apply andb_true_iff in Hd as [Hk Hd].
  apply negb_true_iff, existsb_eqb_false in Hk.
  destruct Hin as [[= -> ->]|Hin].
  - fold (Dict.update (Dict.set k v d) new).
    rewrite get_update_absent by exact Hk. apply get_set_same.
  - now apply IH.
Qed.

Lemma set_absent k v d : ~ In k (Dict.keys d) -> Dict.set k v d = d ++ [(k, v)].
Proof.
  induction d as [|[k' v'] d IH]; simpl; [reflexivity|].
  intros H. destruct (String.eqb_spec k k') as [->|_]; [tauto|].
  rewrite IH by tauto. reflexivity.
Qed.

Lemma set_middle k v v0 (pre post : Dict.t V) :
  ~ In k (Dict.keys pre) ->
  Dict.set k v (pre ++ (k, v0) :: post) = pre ++ (k, v) :: post.
Proof.
  induction pre as [|[k' v'] pre IH]; simpl.
  - now rewrite String.eqb_refl.
  - intros H. destruct (String.eqb_spec k k') as [->|_]; [tauto|].
    rewrite IH by tauto. reflexivity.
Qed.

(** Building a dict from pairs with distinct keys keeps the pairs. *)
Lemma update_distinct (acc new : Dict.t V) :
  distinct (Dict.keys (acc ++ new)) = true ->
  Dict.update acc new = acc ++ new.
Proof.
  unfold Dict.update. revert acc.
  induction new as [|[k v] new IH]; intros acc Hd; simpl.
  - now rewrite app_nil_r.
  - unfold Dict.keys in Hd. rewrite map_app in Hd. simpl in Hd.
    destruct (distinct_app_cons _ _ _ Hd) as (Hpre & _ & _).
    rewrite set_absent by exact Hpre.
    rewrite IH; rewrite <- app_assoc; simpl; [reflexivity|].
    unfold Dict.keys. rewrite map_app. exact Hd.
Qed.
End DictFacts.

(** ** Loading a config on a runtime older than 3.4 *)

Section LoadLegacy.
Import TFModelConfig.

Lemma restore_callables_legacy ver mods items conf key rest :
  version_at_least_3_4 ver = false ->
  In (key, PList (PStr TFModelConfigEncoder.CALLABLE_TYPE :: rest)) items ->
  restore_callables ver mods items conf
    = inl (NotImplementedError legacy_message).
Proof.
  intros Hver. induction items as [|[k v] items IH]; intros Hin; [destruct Hin|].
  cbn [restore_callables]. rewrite Hver.
  destruct Hin as [[= -> ->]|Hin].
  - cbn [is_callable_marker]. now rewrite String.eqb_refl.
  - destruct (is_callable_marker v); [reflexivity|now apply IH].
Qed.

(** C3, as the code has it.  On a runtime older than 3.4, loading a
    document that has a callable-marker field raises the not-implemented
    error inside [load]'s own [try], whose handler prints it: [load]
    returns normally, the config is left as it was, and nothing but the
    printed message changes. *)
Theorem load_legacy_marker_swallowed (self : t) (fname : string) (w : world)
    (j : json) (conf : Dict.t pyval) (key : string) (rest : list pyval) :
  Dict.get fname (files w) = Some (JsonDoc j) ->
  decode j = PDict conf ->
  In (key, PList (PStr TFModelConfigEncoder.CALLABLE_TYPE :: rest)) conf ->
  version_at_least_3_4 (version_info w) = false ->
  restore_callables (version_info w) (modules w) conf conf
    = inl (NotImplementedError legacy_message)
  /\ load self fname w
     = (inr self,
        set_stdout (stdout w ++ [NotImplementedError legacy_message]) w).
Proof.
  intros Hfile Hdec Hin Hver.
  pose proof (restore_callables_legacy _ (modules w) _ conf _ _ Hver Hin) as Hloop.
  split; [exact Hloop|].
  unfold load, try_except, json_load, bind, get, lift, ret, print, modify.
  rewrite Hfile, Hdec, Hloop. reflexivity.
Qed.
End LoadLegacy.

(** A checkpoint's [config.json] with a function-valued field, read on
    Python 2.7. *)
Definition legacy_doc : json :=
  JObj [ ("batch_size", JInt 32);
         ("hidden_activation",
          JArr [ JStr TFModelConfigEncoder.CALLABLE_TYPE; JStr "relu";
                 JStr "tensorflow.python.ops.gen_nn_ops" ]) ].

Definition legacy_world : world :=
  {| files := [("config.json", JsonDoc legacy_doc)];
     unwritable := []; dirs := []; stdout := [];
     version_info := (2, 7); modules := [] |}.

Lemma load_legacy_marker_swallowed_witness :
  TFModelConfig.restore_callables (2, 7) []
    [("batch_size", PInt 32);
     ("hidden_activation",
      PList [ PStr TFModelConfigEncoder.CALLABLE_TYPE; PStr "relu";
              PStr "tensorflow.python.ops.gen_nn_ops" ])]
    [("batch_size", PInt 32);
     ("hidden_activation",
      PList [ PStr TFModelConfigEncoder.CALLABLE_TYPE; PStr "relu";
              PStr "tensorflow.python.ops.gen_nn_ops" ])]
    = inl (NotImplementedError TFModelConfig.legacy_message)
  /\ TFModelConfig.load TFModelConfig.defaults "config.json" legacy_world
     = (inr TFModelConfig.defaults,
        set_stdout [NotImplementedError TFModelConfig.legacy_message] legacy_world).
Proof.
  apply (load_legacy_marker_swallowed TFModelConfig.defaults "config.json"
           legacy_world legacy_doc _ "hidden_activation"
           [PStr "relu"; PStr "tensorflow.python.ops.gen_nn_ops"]).
  - reflexivity.
  - reflexivity.
  - simpl. right. left. reflexivity.
  - reflexivity.
Defined.

(** C3, as stated, fails: the file has a callable-marker field and the
    runtime is 2.7, yet [load] returns normally; no not-implemented error
    (and no other exception) reaches the caller. *)
Lemma load_legacy_does_not_propagate :
  Dict.get "config.json" (files legacy_world) = Some (JsonDoc legacy_doc)
  /\ version_at_least_3_4 (version_info legacy_world) = false
  /\ fst (TFModelConfig.load TFModelConfig.defaults "config.json" legacy_world)
     = inr TFModelConfig.defaults
  /\ ~ exists e,
       fst (TFModelConfig.load TFModelConfig.defaults "config.json" legacy_world)
       = inl e.
Proof.
  repeat split; try reflexivity.
  intros [e H]. vm_compute in H. discriminate.
Qed.

(** ** Saving a config and loading it again *)

(** Induction over values, through the lists and dicts inside them. *)
Section PyvalInd.
Variable P : pyval -> Prop.
Hypothesis HNone : P PNone.
Hypothesis HBool : forall b, P (PBool b).
Hypothesis HInt : forall z, P (PInt z).
Hypothesis HFloat : forall f, P (PFloat f).
Hypothesis HStr : forall s, P (PStr s).
Hypothesis HList : forall l, Forall P l -> P (PList l).
Hypothesis HTuple : forall l, Forall P l -> P (PTuple l).
Hypothesis HDict : forall d, Forall (fun kv => P (snd kv)) d -> P (PDict d).
Hypothesis HCallable : forall c, P (PCallable c).
Hypothesis HObject : forall i, P (PObject i).

Fixpoint pyval_nested_ind (v : pyval) : P v :=
  match v with
  | PNone => HNone
  | PBool b => HBool b
  | PInt z => HInt z
  | PFloat f => HFloat f
  | PStr s => HStr s
  | PList l =>
      HList l ((fix go (l : list pyval) : Forall P l :=
                  match l with
                  | [] => Forall_nil P
                  | x :: xs => Forall_cons x (pyval_nested_ind x) (go xs)
                  end) l)
  | PTuple l =>
      HTuple l ((fix go (l : list pyval) : Forall P l :=
                   match l with
                   | [] => Forall_nil P
                   | x :: xs => Forall_cons x (pyval_nested_ind x) (go xs)
                   end) l)
  | PDict d =>
      HDict d ((fix go (d : list (string * pyval))
                  : Forall (fun kv => P (snd kv)) d :=
                  match d with
                  | [] => Forall_nil _
                  | kv :: xs =>
                      Forall_cons kv (pyval_nested_ind (snd kv)) (go xs)
                  end) d)
  | PCallable c => HCallable c
  | PObject i => HObject i
  end.
End PyvalInd.

(** The values the encoder writes: [None], booleans, integers, floats,
    strings and callables, and lists, tuples and dicts of such values. *)
Fixpoint json_writable (v : pyval) : bool :=
  match v with
  | PNone | PBool _ | PInt _ | PFloat _ | PStr _ | PCallable _ => true
  | PList l | PTuple l => forallb json_writable l
  | PDict d =>
      forallb (fun kv => json_writable (snd kv)) d && distinct (map fst d)
  | PObject _ => false
  end.

(** What [json.load] reads where [json.dump] wrote [v]: a tuple was
    written as an array and is read as a list, a callable was written as
    its marker and is read as a list of three strings, at any depth;
    everything else is read as it was. *)
Fixpoint listified (v : pyval) : pyval :=
  match v with
  | PList l | PTuple l => PList (map listified l)
  | PDict d => PDict (map (fun kv => (fst kv, listified (snd kv))) d)
  | PCallable c =>
      PList [ PStr TFModelConfigEncoder.CALLABLE_TYPE;
              PStr (co_name c); PStr (co_module c) ]
  | _ => v
  end.

(** Neither a tuple nor a callable in [v], at any depth. *)
Fixpoint plain (v : pyval) : bool :=
  match v with
  | PTuple _ | PCallable _ => false
  | PList l => forallb plain l
  | PDict d => forallb (fun kv => plain (snd kv)) d
  | _ => true
  end.

(** A callable that its module holds under its own name. *)
Definition importable (mods : Dict.t module_code) (c : callable) : Prop :=
  exists namespace,
    Dict.get (co_module c) mods = Some (Namespace namespace)
    /\ Dict.get (co_name c) namespace = Some (PCallable c).

(** A top-level field that comes back from a save and a load: a callable
    that can be imported, or a value json writes that is not read as the
    marker of a callable. *)
Definition restorable (mods : Dict.t module_code) (v : pyval) : Prop :=
  match v with
  | PCallable c => importable mods c
  | _ => json_writable v = true
         /\ TFModelConfig.is_callable_marker (listified v) = false
  end.

(** What a field is once the document is parsed, before callables are
    resolved. *)
Definition parsed (v : pyval) : pyval :=
  match v with
  | PCallable c =>
      PList [ PStr TFModelConfigEncoder.CALLABLE_TYPE;
              PStr (co_name c); PStr (co_module c) ]
  | _ => listified v
  end.

(** What a field is after the save and the load. *)
Definition reloaded (v : pyval) : pyval :=
  match v with
  | PCallable c => PCallable c
  | _ => listified v
  end.

Definition encode_list : list pyval -> exn + list json :=
  fix encode_list (l : list pyval) : exn + list json :=
    match l with
    | [] => inr []
    | x :: xs =>
        match TFModelConfigEncoder.encode x with
        | inl e => inl e
        | inr j =>
            match encode_list xs with
            | inl e => inl e
            | inr js => inr (j :: js)
            end
        end
    end.

Definition encode_items : list (string * pyval) -> exn + list (string * json) :=
  fix encode_items (d : list (string * pyval)) : exn + list (string * json) :=
    match d with
    | [] => inr []
    | (k, x) :: xs =>
        match TFModelConfigEncoder.encode x with
        | inl e => inl e
        | inr j =>
            match encode_items xs with
            | inl e => inl e
            | inr js => inr ((k, j) :: js)
            end
        end
    end.

Definition decode_items (o : list (string * json)) : list (string * pyval) :=
  map (fun kv => (fst kv, decode (snd kv))) o.

Definition listified_item (kv : string * pyval) : string * pyval :=
  (fst kv, listified (snd kv)).

Section Roundtrip.
Import TFModelConfigEncoder.

Lemma encode_PList l :
  encode (PList l)
  = match encode_list l with inl e => inl e | inr js => inr (JArr js) end.
Proof. reflexivity. Qed.

Lemma encode_PDict d :
  encode (PDict d)
  = match encode_items d with inl e => inl e | inr o => inr (JObj o) end.
Proof. reflexivity. Qed.

(** What [json.dump] raises is the [TypeError] of [default]. *)
Definition not_serializable : exn :=
  TypeError "Object is not JSON serializable".

Lemma encode_list_error l e :
  Forall (fun v => forall e, encode v = inl e -> e = not_serializable) l ->
  encode_list l = inl e -> e = not_serializable.
Proof.
  induction 1 as [|x l Hx _ IH]; [discriminate|].
  cbn [encode_list].
  destruct (encode x) as [e1|j]; [intros [= <-]; now apply Hx|].
  destruct (encode_list l) as [e2|js]; [intros [= <-]|discriminate].
  now apply IH.
Qed.

Lemma encode_items_error d e :
  Forall (fun kv => forall e, encode (snd kv) = inl e -> e = not_serializable) d ->
  encode_items d = inl e -> e = not_serializable.
Proof.
  induction 1 as [|[k x] d Hx _ IH]; [discriminate|].
  cbn [encode_items]. cbn [snd] in Hx.
  destruct (encode x) as [e1|j]; [intros [= <-]; now apply Hx|].
  destruct (encode_items d) as [e2|js]; [intros [= <-]|discriminate].
  now apply IH.
Qed.

Lemma encode_error v : forall e, encode v = inl e -> e = not_serializable.
Proof.
  induction v as [ | b | z | f | s | l IH | l IH | d IH | c | i ]
    using pyval_nested_ind; intros e H.
  - discriminate.
  - discriminate.
  - discriminate.
  - discriminate.
  - discriminate.
  - rewrite encode_PList in H. apply (encode_list_error l e IH).
    destruct (encode_list l); [now injection H as ->|discriminate].
  - change (encode (PTuple l)) with (encode (PList l)) in H.
    rewrite encode_PList in H. apply (encode_list_error l e IH).
    destruct (encode_list l); [now injection H as ->|discriminate].
  - rewrite encode_PDict in H. apply (encode_items_error d e IH).
    destruct (encode_items d); [now injection H as ->|discriminate].
  - discriminate.
  - now injection H as <-.
Qed.

(** Whatever fails while [save] opens the file and writes the document is
    an [Exception]. *)
Lemma dump_error_is_exception (obj : pyval) (fname : string) (w w1 : world)
    (e : exn) :
  (open_w fname ;; json_dump obj fname) w = (inl e, w1) ->
  is_exception e = true.
Proof.
  unfold open_w, json_dump, bind, get, modify, raise.
  destruct (existsb _ (unwritable w)); [now intros [= <- _]|].
  destruct (encode obj) as [e1|j] eqn:He; [|discriminate].
  intros [= <- _]. now rewrite (encode_error _ _ He).
Qed.

Lemma encode_list_writable l :
  Forall (fun v => json_writable v = true ->
                   exists j, encode v = inr j /\ decode j = listified v) l ->
  forallb json_writable l = true ->
  exists js, encode_list l = inr js /\ map decode js = map listified l.
Proof.
  induction 1 as [|x l Hx _ IH]; simpl; intros Hn.
  - now exists [].
  - apply andb_true_iff in Hn as [Hnx Hnl].
    destruct (Hx Hnx) as (j & -> & Hj).
    destruct (IH Hnl) as (js & -> & Hjs).
    exists (j :: js). simpl. now rewrite Hj, Hjs.
Qed.

Lemma encode_items_writable d :
  Forall (fun kv => json_writable (snd kv) = true ->
                    exists j, encode (snd kv) = inr j
                              /\ decode j = listified (snd kv)) d ->
  forallb (fun kv => json_writable (snd kv)) d = true ->
  exists o, encode_items d = inr o /\ decode_items o = map listified_item d.
Proof.
  induction 1 as [|[k x] d Hx _ IH]; simpl; intros Hn.
  - now exists [].
  - apply andb_true_iff in Hn as [Hnx Hnl]. simpl in Hx.
    destruct (Hx Hnx) as (j & -> & Hj).
    destruct (IH Hnl) as (o & -> & Ho).
    exists ((k, j) :: o). simpl. unfold listified_item at 1. cbn [fst snd].
    now rewrite Hj, Ho.
Qed.

Lemma keys_listified d : map fst (map listified_item d) = map fst d.
Proof. rewrite map_map. reflexivity. Qed.

(** A value json writes is written, and read back with its tuples as
    lists. *)
Lemma encode_decode_writable v :
  json_writable v = true -> exists j, encode v = inr j /\ decode j = listified v.
Proof.
  induction v as [ | b | z | f | s | l IH | l IH | d IH | c | i ]
    using pyval_nested_ind; intros Hn; try discriminate.
  - now exists JNull.
  - now exists (JBool b).
  - now exists (JInt z).
  - now exists (JFloat f).
  - now exists (JStr s).
  - destruct (encode_list_writable l IH Hn) as (js & Hjs & Hmap).
    exists (JArr js). rewrite encode_PList, Hjs. simpl. now rewrite Hmap.
  - destruct (encode_list_writable l IH Hn) as (js & Hjs & Hmap).
    exists (JArr js).
    change (encode (PTuple l)) with (encode (PList l)).
    rewrite encode_PList, Hjs. simpl. now rewrite Hmap.
  - simpl in Hn. apply andb_true_iff in Hn as [Hn Hd].
    destruct (encode_items_writable d IH Hn) as (o & Ho & Hmap).
    exists (JObj o). rewrite encode_PDict, Ho. split; [reflexivity|].
    simpl. fold (decode_items o). rewrite Hmap.
    rewrite (update_distinct [] (map listified_item d));
      [reflexivity|].
    unfold Dict.keys. simpl. now rewrite keys_listified.
  - eexists. split; reflexivity.
Qed.

(** Without tuples and callables, what is read is what was written. *)
Lemma listified_plain v : plain v = true -> listified v = v.
Proof.
  induction v as [ | b | z | f | s | l IH | l IH | d IH | c | i ]
    using pyval_nested_ind; intros Ht; try reflexivity; try discriminate.
  - cbn [listified plain] in *. f_equal.
    induction IH as [|x l Hx _ IHl]; [reflexivity|].
    cbn [forallb] in Ht. apply andb_true_iff in Ht as [Htx Htl].
    cbn [map]. now rewrite (Hx Htx), (IHl Htl).
  - cbn [listified plain] in *. f_equal.
    induction IH as [|[k x] d Hx _ IHd]; [reflexivity|].
    cbn [forallb snd] in Ht, Hx. apply andb_true_iff in Ht as [Htx Htd].
    cbn [map fst snd]. now rewrite (Hx Htx), (IHd Htd).
Qed.

Lemma encode_decode_restorable mods v :
  restorable mods v -> exists j, encode v = inr j /\ decode j = parsed v.
Proof.
  destruct v; intros H; cbn [restorable parsed] in *;
    first [ destruct H as [Hn _]; now apply encode_decode_writable
          | eexists; split; reflexivity ].
Qed.

Lemma encode_items_restorable mods d :
  Forall (fun kv => restorable mods (snd kv)) d ->
  exists o, encode_items d = inr o
            /\ decode_items o = map (fun kv => (fst kv, parsed (snd kv))) d.
Proof.
  induction 1 as [|[k x] d Hx _ IH]; simpl.
  - now exists [].
  - destruct (encode_decode_restorable mods x Hx) as (j & -> & Hj).
    destruct IH as (o & -> & Ho).
    exists ((k, j) :: o). simpl. now rewrite Hj, Ho.
Qed.
End Roundtrip.

Section ConfigRoundtrip.
Import TFModelConfig.

Definition parsed_item (kv : string * pyval) : string * pyval :=
  (fst kv, parsed (snd kv)).

Definition reloaded_item (kv : string * pyval) : string * pyval :=
  (fst kv, reloaded (snd kv)).

Lemma keys_parsed d : Dict.keys (map parsed_item d) = Dict.keys d.
Proof. unfold Dict.keys. rewrite map_map. reflexivity. Qed.

Lemma keys_reloaded d : Dict.keys (map reloaded_item d) = Dict.keys d.
Proof. unfold Dict.keys. rewrite map_map. reflexivity. Qed.

Lemma import_callable_marker mods c :
  importable mods c ->
  import_callable mods
    [PStr TFModelConfigEncoder.CALLABLE_TYPE; PStr (co_name c); PStr (co_module c)]
  = inr (PCallable c).
Proof.
  intros (namespace & Hm & Hn). unfold import_callable. cbn [Py.item].
  simpl. now rewrite Hm, Hn.
Qed.

Lemma is_callable_marker_head l :
  is_callable_marker (PList (PStr TFModelConfigEncoder.CALLABLE_TYPE :: l)) = true.
Proof. apply String.eqb_refl. Qed.

(** On a runtime with dynamic import, the loop of [load] resolves the
    callables of the parsed fields and leaves the other fields as they
    were parsed. *)
Lemma restore_callables_restorable ver mods post :
  version_at_least_3_4 ver = true ->
  Forall (fun kv => restorable mods (snd kv)) post ->
  forall pre,
    distinct (Dict.keys (pre ++ post)) = true ->
    restore_callables ver mods (map parsed_item post)
      (pre ++ map parsed_item post)
    = inr (pre ++ map reloaded_item post).
Proof.
  intros Hver. induction 1 as [|[k v] post Hv _ IH]; intros pre Hd.
  - reflexivity.
  - assert (Hk : ~ In k (Dict.keys pre)).
    { unfold Dict.keys in Hd. rewrite map_app in Hd.
      now destruct (distinct_app_cons _ _ _ Hd). }
    assert (Hd' : distinct (Dict.keys ((pre ++ [(k, reloaded v)]) ++ post)) = true).
    { rewrite <- app_assoc. unfold Dict.keys in *.
      rewrite map_app in *. exact Hd. }
    specialize (IH (pre ++ [(k, reloaded v)]) Hd').
    rewrite <- !app_assoc in IH. cbn [app] in IH.
    change (map parsed_item ((k, v) :: post))
      with ((k, parsed v) :: map parsed_item post).
    change (map reloaded_item ((k, v) :: post))
      with ((k, reloaded v) :: map reloaded_item post).
    cbn [restore_callables]. cbn [snd] in Hv.
    destruct v; cbn [restorable parsed reloaded] in *;
      try (destruct Hv as [_ Hm]; rewrite Hm; exact IH).
    rewrite is_callable_marker_head, Hver.
    rewrite import_callable_marker by exact Hv.
    rewrite set_middle by exact Hk. exact IH.
Qed.

Lemma get_reloaded (cfg : t) (key : string) (v : pyval) :
  Dict.get key cfg = Some v ->
  In (key, reloaded v) (map reloaded_item cfg).
Proof.
  intros H. apply get_In in H.
  apply in_map_iff. now exists (key, v).
Qed.

(** C7, as the code has it.  A config whose fields are callables that
    their module holds under their own name, or values the encoder writes
    ([None], booleans, integers, floats, strings, callables, and lists,
    tuples and string-keyed dicts of such values; no list or tuple that
    starts with the marker string), saved to a writable path and loaded on
    a runtime with dynamic import into any config: both calls return,
    nothing is printed, a callable field is the identical object, and
    every other field comes back with each tuple in it, at any depth,
    replaced by the list of the same elements, each callable in it
    replaced by the list of three strings that marks it, and otherwise as
    it was.  So a field that holds neither a tuple nor a callable comes
    back equal to the saved one, floats included, and a tuple comes back
    as a list. *)
Theorem config_roundtrip (cfg fresh : t) (fname : string) (w : world) :
  distinct (Dict.keys cfg) = true ->
  existsb (String.eqb fname) (unwritable w) = false ->
  version_at_least_3_4 (version_info w) = true ->
  Forall (fun kv => restorable (modules w) (snd kv)) cfg ->
  exists w1 cfg',
    save cfg fname w = (inr tt, w1)
    /\ stdout w1 = stdout w
    /\ load fresh fname w1 = (inr cfg', w1)
    /\ (forall key v, Dict.get key cfg = Some v ->
                      Dict.get key cfg' = Some (reloaded v))
    /\ (forall key v, Dict.get key cfg = Some v -> plain v = true ->
                      Dict.get key cfg' = Some v)
    /\ (forall key l, Dict.get key cfg = Some (PTuple l) ->
                      Dict.get key cfg' = Some (PList (map listified l)))
    /\ (forall key c, Dict.get key cfg = Some (PCallable c) ->
                      Dict.get key cfg' = Some (PCallable c)).
Proof.
  intros Hd Hw Hver Hall.
  destruct (encode_items_restorable _ _ Hall) as (o & Henc & Hdec).
  fold parsed_item in Hdec.
  set (w1 := set_files
               (Dict.set fname (JsonDoc (JObj o))
                  (Dict.set fname NotJson (files w))) w).
  exists w1, (Dict.update fresh (map reloaded_item cfg)).
  assert (Hsave : save cfg fname w = (inr tt, w1)).
  { unfold save, try_except, open_w, json_dump, bind, get, modify, raise.
    rewrite Hw, encode_PDict, Henc. reflexivity. }
  assert (Hparse : decode (JObj o) = PDict (map parsed_item cfg)).
  { simpl. fold (decode_items o). rewrite Hdec.
    rewrite (update_distinct [] (map parsed_item cfg)); [reflexivity|].
    simpl. now rewrite keys_parsed. }
  assert (Hloop : restore_callables (version_info w1) (modules w1)
                    (map parsed_item cfg) (map parsed_item cfg)
                  = inr (map reloaded_item cfg)).
  { exact (restore_callables_restorable _ _ cfg Hver Hall [] Hd). }
  assert (Hback : forall key v, Dict.get key cfg = Some v ->
                    Dict.get key (Dict.update fresh (map reloaded_item cfg))
                    = Some (reloaded v)).
  { intros key v Hget. apply get_update_present.
    - now rewrite keys_reloaded.
    - now apply get_reloaded. }
  split; [exact Hsave|]. split; [reflexivity|]. split.
  { unfold load, try_except, json_load, bind, get, lift, ret.
    replace (Dict.get fname (files w1)) with (Some (JsonDoc (JObj o)))
      by (symmetry; apply get_set_same).
    rewrite Hparse, Hloop. reflexivity. }
  split; [exact Hback|]. split; [|split].
  - intros key v Hget Hfree. rewrite (Hback key v Hget). f_equal.
    destruct v; try reflexivity; cbn [reloaded];
      now apply listified_plain.
  - intros key l Hget. exact (Hback key _ Hget).
  - intros key c Hget. exact (Hback key _ Hget).
Qed.
End ConfigRoundtrip.

(** A config that holds a tuple, as [n_hidden=(10, 10)]. *)
Definition tuple_config : TFModelConfig.t :=
  TFModelConfig.new (fun d => d) [("n_hidden", PTuple [PInt 10; PInt 10])].

Definition modern_world : world :=
  {| files := []; unwritable := []; dirs := []; stdout := [];
     version_info := (3, 6); modules := [] |}.

(** C7, as stated, fails: the non-callable field [n_hidden] is saved as a
    tuple and comes back as a list. *)
Lemma config_roundtrip_tuple_counterexample :
  let w1 := snd (TFModelConfig.save tuple_config "config.json" modern_world) in
  let loaded := fst (TFModelConfig.load (TFModelConfig.new (fun d => d) [])
                       "config.json" w1) in
  Dict.get "n_hidden" tuple_config = Some (PTuple [PInt 10; PInt 10])
  /\ (exists cfg', loaded = inr cfg'
        /\ Dict.get "n_hidden" cfg' = Some (PList [PInt 10; PInt 10]))
  /\ ~ (exists cfg', loaded = inr cfg'
          /\ forall key v, Dict.get key tuple_config = Some v ->
                           Dict.get key cfg' = Some v).
Proof.
  cbv zeta. split; [reflexivity|]. split.
  - eexists. split; reflexivity.
  - intros (cfg' & Hload & Hall).
    vm_compute in Hload. injection Hload as <-.
    specialize (Hall "n_hidden" (PTuple [PInt 10; PInt 10]) eq_refl).
    vm_compute in Hall. discriminate.
Qed.

(** A function without a module-level name of its own (a lambda) is saved
    under the name ["<lambda>"], which its module does not hold: [load]
    prints the [KeyError] and leaves the config as it was. *)
Definition a_lambda : callable :=
  {| co_id := 7; co_name := "<lambda>"; co_module := "__main__" |}.

Example config_roundtrip_lambda :
  let w := {| files := []; unwritable := []; dirs := []; stdout := [];
              version_info := (3, 6); modules := [("__main__", Namespace [])] |} in
  let cfg := TFModelConfig.new (fun d => d)
               [("batch_size", PInt 8); ("hidden_activation", PCallable a_lambda)] in
  let w1 := snd (TFModelConfig.save cfg "config.json" w) in
  let r := TFModelConfig.load (TFModelConfig.new (fun d => d) []) "config.json" w1 in
  fst r = inr (TFModelConfig.new (fun d => d) [])
  /\ stdout (snd r) = [KeyError "<lambda>"].
Proof. split; reflexivity. Qed.

(** The float [0.5]. *)
Definition float_half : spec_float := S754_finite false 4503599627370496 (-53).

Lemma config_roundtrip_witness :
  let relu := {| co_id := 1; co_name := "relu";
                 co_module := "tensorflow.python.ops.gen_nn_ops" |} in
  let w := {| files := []; unwritable := []; dirs := []; stdout := [];
              version_info := (3, 6);
              modules := [("tensorflow.python.ops.gen_nn_ops",
                           Namespace [("relu", PCallable relu)])] |} in
  let cfg := TFModelConfig.new (fun d => d)
               [("n_hidden", PTuple [PInt 10; PInt 10]);
                ("dropout", PFloat float_half);
                ("hidden_activation", PCallable relu);
                ("activations", PList [PCallable relu])] in
  exists w1 cfg',
    TFModelConfig.save cfg "config.json" w = (inr tt, w1)
    /\ stdout w1 = stdout w
    /\ TFModelConfig.load TFModelConfig.defaults "config.json" w1 = (inr cfg', w1)
    /\ (forall key v, Dict.get key cfg = Some v ->
                      Dict.get key cfg' = Some (reloaded v))
    /\ (forall key v, Dict.get key cfg = Some v -> plain v = true ->
                      Dict.get key cfg' = Some v)
    /\ (forall key l, Dict.get key cfg = Some (PTuple l) ->
                      Dict.get key cfg' = Some (PList (map listified l)))
    /\ (forall key c, Dict.get key cfg = Some (PCallable c) ->
                      Dict.get key cfg' = Some (PCallable c)).
Proof.
  cbv zeta.
  apply config_roundtrip.
  - reflexivity.
  - reflexivity.
  - reflexivity.
  - repeat constructor.
    simpl. eexists. split; reflexivity.
Defined.

(** The same config, loaded: the float is the float that was saved, the
    tuple is a list, the callable field is the callable, and the callable
    inside a list is its marker. *)
Example config_roundtrip_float_and_tuple :
  let relu := {| co_id := 1; co_name := "relu";
                 co_module := "tensorflow.python.ops.gen_nn_ops" |} in
  let w := {| files := []; unwritable := []; dirs := []; stdout := [];
              version_info := (3, 6);
              modules := [("tensorflow.python.ops.gen_nn_ops",
                           Namespace [("relu", PCallable relu)])] |} in
  let cfg := TFModelConfig.new (fun d => d)
               [("n_hidden", PTuple [PInt 10; PInt 10]);
                ("dropout", PFloat float_half);
                ("hidden_activation", PCallable relu);
                ("activations", PList [PCallable relu])] in
  let w1 := snd (TFModelConfig.save cfg "config.json" w) in
  let loaded := fst (TFModelConfig.load TFModelConfig.defaults "config.json" w1) in
  exists cfg',
    loaded = inr cfg'
    /\ Dict.get "dropout" cfg' = Some (PFloat float_half)
    /\ Dict.get "n_hidden" cfg' = Some (PList [PInt 10; PInt 10])
    /\ Dict.get "hidden_activation" cfg' = Some (PCallable relu)
    /\ Dict.get "activations" cfg'
       = Some (PList [PList [PStr TFModelConfigEncoder.CALLABLE_TYPE;
                             PStr "relu";
                             PStr "tensorflow.python.ops.gen_nn_ops"]]).
Proof. cbv zeta. eexists. repeat split. Qed.

(** ** Paths, decimal names, 32- and 64-bit integers *)

Definition ends_with_slash (s : string) : bool :=
  match String.length s with
  | O => false
  | S n => match String.get n s with
           | Some c => Ascii.eqb c "/"
           | None => false
           end
  end.

(** [os.path.join(a, b)] *)
Definition path_join (a b : string) : string :=
  if String.prefix "/" b then b
  else if (String.length a =? 0)%nat || ends_with_slash a then (a ++ b)%string
  else (a ++ "/" ++ b)%string.

(** [str(n)] of an integer. *)
Definition str_of_int (n : Z) : string := NilZero.string_of_int (Z.to_int n).

(** [int(name)] for a name in plain decimal, with or without a minus
    sign; [ValueError] for the names this does not read. *)
Definition int_of_str (s : string) : exn + Z :=
  match NilZero.int_of_string s with
  | Some d => inr (Z.of_int d)
  | None => inl (ValueError "invalid literal for int() with base 10")
  end.

Definition wrap (bits : Z) (z : Z) : Z :=
  (z + 2 ^ (bits - 1)) mod 2 ^ bits - 2 ^ (bits - 1).
Definition wrap32 : Z -> Z := wrap 32.
Definition wrap64 : Z -> Z := wrap 64.
Definition INT32_MAX : Z := 2 ^ 31 - 1.
Definition INT64_MAX : Z := 2 ^ 63 - 1.

(** [np.max([0] + ns) + 1] on numbers that fit 64 bits: the maximum is an
    [int64], and adding one to it wraps. *)
Definition np_max_plus_one (ns : list Z) : Z :=
  wrap64 (fold_right Z.max 0 ns + 1).

(** [x % m] with a numpy integer on the left: the remainder has the sign
    of [m], and is 0 (with a warning) when [m] is 0. *)
Definition np_mod (x m : Z) : Z := if m =? 0 then 0 else x mod m.

(** The directories above [p]: its prefixes that end before a slash. *)
Fixpoint prefixes_before_slash (pre rest : string) : list string :=
  match rest with
  | EmptyString => []
  | String c r =>
      (if Ascii.eqb c "/" && negb (String.eqb pre "") then [pre] else [])
      ++ prefixes_before_slash (pre ++ String c EmptyString) r
  end.

Definition ancestors (p : string) : list string := prefixes_before_slash "" p.

Definition is_dir (p : string) (w : world) : bool := Dict.mem p (dirs w).
Definition is_file (p : string) (w : world) : bool := Dict.mem p (files w).

(** A directory above [p] is a regular file: nothing can be made at [p]. *)
Definition below_a_file (p : string) (w : world) : bool :=
  existsb (fun a => is_file a w) (ancestors p).

(** Neither [p] nor a directory above it is a regular file. *)
Definition clear_path (p : string) (w : world) : bool :=
  negb (is_file p w) && negb (below_a_file p w).

(** [os.path.exists], [os.makedirs], [os.listdir] on the directories and
    regular files of the world.  [os.makedirs] fails where the path exists
    or lies below a regular file.  [mkdir_child root name] makes
    [root/name] unless it is a directory already, and [root] with it; it
    fails where [root/name] is a regular file or lies below one. *)
Definition path_exists (p : string) (w : world) : bool :=
  is_dir p w || is_file p w.

Definition makedirs (p : string) : M world unit :=
  w <- get ;;
  if path_exists p w || below_a_file p w then raise (IOError p)
  else modify (set_dirs (Dict.set p [] (dirs w))).

Definition with_child (root name : string) (w : world) : world :=
  let entries := match Dict.get root (dirs w) with Some l => l | None => [] end in
  let entries' := if existsb (String.eqb name) entries then entries
                  else entries ++ [name] in
  let d1 := Dict.set root entries' (dirs w) in
  let child := path_join root name in
  set_dirs (if Dict.mem child d1 then d1 else Dict.set child [] d1) w.

Definition mkdir_child (root name : string) : M world unit :=
  w <- get ;;
  if negb (clear_path (path_join root name) w)
  then raise (IOError (path_join root name))
  else modify (with_child root name).

(** [os.listdir]: fails on what is not a directory, a regular file
    included. *)
Definition listdir (p : string) : M world (list string) :=
  w <- get ;;
  match Dict.get p (dirs w) with
  | Some names => ret names
  | None => raise (IOError p)
  end.

(** ** The state of a [TFModel] *)

Module Level.
Definition DEBUG : Z := 10.
Definition INFO : Z := 20.
Definition WARNING : Z := 30.
Definition ERROR : Z := 40.
End Level.

(** A [logging.Logger] with its handlers: the records it let through. *)
Record logger_t : Type := {
  lg_name : pyval;
  lg_level : Z;
  lg_file : option string;
  lg_records : list (Z * string)
}.

Section State.
(** [V]: floating-point scalars (losses, summary values); [Row]: a row of
    an input or target array; [P]: the values of the graph's variables
    other than the two counters. *)
Context {V Row P : Type}.

(** The variables of the session.  The two counters are [tf.int32]. *)
Record session : Type := {
    global_step : Z;
    batch_step : Z;
    params : P
  }.

Record summary_value : Type := { sv_tag : string; simple_value : V }.

(** A [tf.summary.FileWriter]: what was added to it, with its step. *)
Record file_writer : Type := {
    logdir : string;
    events : list (list summary_value * Z)
  }.

Record summary_state : Type := {
    summaries : Dict.t (V * string);
    summaries_ind : option Z;
    summary_fwriter : option (option file_writer);
    summary_values : option (Dict.t (summary_value * string))
  }.

(** The saver and what it wrote: [saved] maps a checkpoint path to the
    variables stored there, [last_checkpoints] is the saver's list of the
    ones it still keeps. *)
Record checkpoint_state : Type := {
    saver_max_to_keep : option pyval;
    last_checkpoints : list string;
    checkpoint_dir : option (option string);
    saved : Dict.t session
  }.

Record dataset_state : Type := {
    trainset : option (list Row * list Row);
    validset : option (list Row * list Row);
    num_batches : option Z
  }.

Record model : Type := {
    config : Dict.t pyval;
    sess : session;
    data : option dataset_state;
    logger : option logger_t;
    summ : summary_state;
    ckpt : checkpoint_state;
    entropy : nat;                 (* how many random draws were made *)
    outside : world
  }.

Definition set_config c (s : model) : model :=
  {| config := c; sess := sess s; data := data s; logger := logger s;
     summ := summ s; ckpt := ckpt s; entropy := entropy s; outside := outside s |}.
Definition set_sess x (s : model) : model :=
  {| config := config s; sess := x; data := data s; logger := logger s;
     summ := summ s; ckpt := ckpt s; entropy := entropy s; outside := outside s |}.
Definition set_data x (s : model) : model :=
  {| config := config s; sess := sess s; data := x; logger := logger s;
     summ := summ s; ckpt := ckpt s; entropy := entropy s; outside := outside s |}.
Definition set_logger x (s : model) : model :=
  {| config := config s; sess := sess s; data := data s; logger := x;
     summ := summ s; ckpt := ckpt s; entropy := entropy s; outside := outside s |}.
Definition set_summ x (s : model) : model :=
  {| config := config s; sess := sess s; data := data s; logger := logger s;
     summ := x; ckpt := ckpt s; entropy := entropy s; outside := outside s |}.
Definition set_ckpt x (s : model) : model :=
  {| config := config s; sess := sess s; data := data s; logger := logger s;
     summ := summ s; ckpt := x; entropy := entropy s; outside := outside s |}.
Definition set_entropy x (s : model) : model :=
  {| config := config s; sess := sess s; data := data s; logger := logger s;
     summ := summ s; ckpt := ckpt s; entropy := x; outside := outside s |}.
Definition set_outside x (s : model) : model :=
  {| config := config s; sess := sess s; data := data s; logger := logger s;
     summ := summ s; ckpt := ckpt s; entropy := entropy s; outside := x |}.

(** Running a computation on the outside world from within the model. *)
Definition in_world {A} (m : M world A) : M model A :=
  fun s => let '(r, w) := m (outside s) in (r, set_outside w s).

(** [self.config[key]] *)
Definition config_get (key : string) : M model pyval :=
  c <- gets config ;;
  match Dict.get key c with
  | Some v => ret v
  | None => raise (KeyError key)
  end.

(** A config value used as an interval: [None], or a number (a [bool] is
    an [int]).  Then as an optional path, and as a string. *)
Inductive number : Type :=
| NInt (z : Z)
| NFloat (f : spec_float).

Definition as_opt_number (v : pyval) : exn + option number :=
  match v with
  | PNone => inr None
  | PInt z => inr (Some (NInt z))
  | PBool b => inr (Some (NInt (if b then 1 else 0)))
  | PFloat f => inr (Some (NFloat f))
  | _ => inl (TypeError "unsupported operand type(s) for %")
  end.

(** [x % f == 0] with a numpy integer on the left and a float on the
    right: the remainder is exact, so it is zero where [x] is a multiple
    of [f]; it is NaN for a zero or NaN [f], and [x] or an infinity for an
    infinite [f]. *)
Definition float_divides (f : spec_float) (x : Z) : bool :=
  match f with
  | S754_nan | S754_zero _ => false
  | S754_infinity _ => x =? 0
  | S754_finite _ m e =>
      if 0 <=? e then x mod (Zpos m * 2 ^ e) =? 0
      else (x * 2 ^ (- e)) mod Zpos m =? 0
  end.

(** [x % n == 0] with a numpy integer on the left *)
Definition is_multiple (x : Z) (n : number) : bool :=
  match n with
  | NInt m => np_mod x m =? 0
  | NFloat f => float_divides f x
  end.
Definition as_opt_str (v : pyval) : exn + option string :=
  match v with
  | PNone => inr None
  | PStr p => inr (Some p)
  | _ => inl (TypeError "a path or None is required")
  end.
Definition as_str (v : pyval) : exn + string :=
  match v with
  | PStr p => inr p
  | _ => inl (TypeError "unsupported format string")
  end.

(** [self.logger.log(level, msg)]: the record is kept when the level is
    enabled for the logger. *)
Definition logger_log (level : Z) (msg : string) : M model unit :=
  lg <- attr "logger" logger ;;
  if lg_level lg <=? level
  then modify (set_logger
                 (Some {| lg_name := lg_name lg; lg_level := lg_level lg;
                          lg_file := lg_file lg;
                          lg_records := lg_records lg ++ [(level, msg)] |}))
  else ret tt.
End State.

Arguments session : clear implicits.
Arguments summary_value : clear implicits.
Arguments file_writer : clear implicits.
Arguments summary_state : clear implicits.
Arguments checkpoint_state : clear implicits.
Arguments dataset_state : clear implicits.
Arguments model : clear implicits.

(** ** [TFModel]: logger, summaries, saver *)

Definition dquote : string := String (ascii_of_nat 34) EmptyString.
Definition newline : string := String (ascii_of_nat 10) EmptyString.

(** The names bound at the top level of [tfmodel.py]; none of them is a
    string. *)
Definition module_names : list string :=
  [ "tf"; "np"; "logging"; "json"; "os"; "sys"; "inspect"; "importlib";
    "docsig"; "graph_def"; "chunklist"; "maybe_chunked";
    "TFModelConfigEncoder"; "TFModelConfig"; "TFModel" ].

(** Evaluating a name as the argument of a ['{:s}'] format, inside a
    function whose string-valued local names are [locals]: a local is
    found first, a module-level object does not format as a string, and a
    name bound nowhere is a [NameError]. *)
Definition load_name (locals : Dict.t string) (name : string) : exn + string :=
  match Dict.get name locals with
  | Some v => inr v
  | None =>
      if existsb (String.eqb name) module_names
      then inl (TypeError "unsupported format string")
      else inl (NameError name)
  end.

Fixpoint map_exn {A B} (f : A -> exn + B) (l : list A) : exn + list B :=
  match l with
  | [] => inr []
  | x :: xs =>
      match f x with
      | inl e => inl e
      | inr y => match map_exn f xs with
                 | inl e => inl e
                 | inr ys => inr (y :: ys)
                 end
      end
  end.

Section TFModel.
Context {V Row P Args Out : Type}.
Let st : Type := model V Row P.

(** [float()], [np.nan], and the initial values of the graph's other
    variables. *)
Variables (float0 nan : V) (init_params : P).
(** [os.path.realpath], [os.path.relpath] *)
Variables realpath relpath : string -> string.
(** What a subclass provides. *)
Variable load_data :
  M st (option (list Row * list Row * option (list Row * list Row))).
Variable build_graph : M st unit.
Variable run_update_and_loss : option (list Row * list Row) -> Args -> M st V.
Variable run_loss : option (list Row * list Row) -> Args -> M st V.
Variable run_output : list Row -> Args -> M st Out.
Variables on_epoch_done on_train_step_done : M st unit.
(** numpy: the mean of loss pairs along axis 0, [vstack], and the random
    draws, the [n]-th of which is decided by [n]. *)
Variable np_mean : list (V * V) -> V * V.
Variable np_vstack : list Out -> exn + Out.
Variable np_random_permutation : nat -> Z -> list Z.
Variable np_random_randint : nat -> Z -> Z -> list Z.
(** The line [train] writes to the log. *)
Variable format_losses : Z -> V -> V -> string.

Definition set_summaries x (u : summary_state V) : summary_state V :=
  {| summaries := x; summaries_ind := summaries_ind u;
     summary_fwriter := summary_fwriter u; summary_values := summary_values u |}.
Definition set_summaries_ind x (u : summary_state V) : summary_state V :=
  {| summaries := summaries u; summaries_ind := x;
     summary_fwriter := summary_fwriter u; summary_values := summary_values u |}.
Definition set_summary_fwriter x (u : summary_state V) : summary_state V :=
  {| summaries := summaries u; summaries_ind := summaries_ind u;
     summary_fwriter := x; summary_values := summary_values u |}.
Definition set_summary_values x (u : summary_state V) : summary_state V :=
  {| summaries := summaries u; summaries_ind := summaries_ind u;
     summary_fwriter := summary_fwriter u; summary_values := x |}.
Definition upd_summ (f : summary_state V -> summary_state V) : M st unit :=
  modify (fun s => set_summ (f (summ s)) s).
Definition upd_ckpt (f : checkpoint_state P -> checkpoint_state P) : M st unit :=
  modify (fun s => set_ckpt (f (ckpt s)) s).

Definition init_logger : M st unit :=
  name <- config_get "scope_name" ;;
  level <- config_get "log_level" ;;
  (* a level given by its name is not modelled *)
  level <- lift (match level with
                 | PInt z => inr z
                 | _ => inl (TypeError "Level not an integer or a valid string")
                 end) ;;
  modify (set_logger (Some {| lg_name := name; lg_level := level;
                              lg_file := None; lg_records := [] |})) ;;
  log_file <- config_get "log_file" ;;
  log_file <- lift (as_opt_str log_file) ;;
  match log_file with
  | Some f =>
      in_world (open_w f) ;;
      modify (set_logger (Some {| lg_name := name; lg_level := level;
                                  lg_file := Some f; lg_records := [] |}))
  | None => ret tt
  end.

Definition valid_summary_modes : list string := ["epoch"; "step"].

(** The string-valued locals of [add_summary]. *)
Definition add_summary_locals (tag : string) (key : option string)
    (mode : string) : Dict.t string :=
  ("tag", tag) :: match key with Some k => [("key", k)] | None => [] end
  ++ [("mode", mode)].

Definition add_summary (tag : string) (key : option string) (mode : string)
  : M st unit :=
  if negb (existsb (String.eqb mode) valid_summary_modes) then
    _ <- attr "logger" logger ;;
    which <- lift (load_name (add_summary_locals tag key mode) "which") ;;
    logger_log Level.WARNING
      ("Invalid summary mode " ++ which ++ ", ignoring.")%string
  else
    let key := match key with None => tag | Some k => k end in
    upd_summ (fun u => set_summaries (Dict.set key (float0, mode) (summaries u)) u).

Definition update_summary (key : string) (val : V) : M st unit :=
  fw <- attr "summary_fwriter" (fun s => summary_fwriter (summ s)) ;;
  match fw with
  | Some _ =>
      values <- attr "summary_values" (fun s => summary_values (summ s)) ;;
      match Dict.get key values with
      | None =>
          logger_log Level.WARNING
            ("Invalid summary key " ++ dquote ++ key ++ dquote ++ ", skipping.")%string
      | Some (v, mode) =>
          upd_summ (set_summary_values
                      (Some (Dict.set key
                               ({| sv_tag := sv_tag v; simple_value := val |}, mode)
                               values)))
      end
  | None => ret tt
  end.

(** The tag of a standard summary: ['({:s}) ...'.format(scope_name)]. *)
Definition standard_tag (what : string) : M st string :=
  scope <- config_get "scope_name" ;;
  scope <- lift (as_str scope) ;;
  ret ("(" ++ scope ++ ") " ++ what)%string.

(** Lines 335-339 of [init_summaries]: the index of this run. *)
Definition next_run_index (summaries_root : string) : M st Z :=
  w <- gets outside ;;
  if negb (path_exists summaries_root w) then
    in_world (makedirs summaries_root) ;;
    ret 0
  else
    names <- in_world (listdir summaries_root) ;;
    ns <- lift (map_exn int_of_str names) ;;
    ret (np_max_plus_one ns).

Definition init_summaries : M st unit :=
  root <- config_get "summaries_root" ;;
  root <- lift (as_opt_str root) ;;
  match root with
  | Some p =>
      let summaries_root := realpath p in
      ind <- next_run_index summaries_root ;;
      upd_summ (set_summaries_ind (Some ind)) ;;
      in_world (mkdir_child summaries_root (str_of_int ind)) ;;
      upd_summ (set_summary_fwriter
                  (Some (Some {| logdir := path_join summaries_root (str_of_int ind);
                                 events := [] |}))) ;;
      tag <- standard_tag "epoch training loss" ;;
      add_summary tag (Some "epoch_train_loss") "epoch" ;;
      tag <- standard_tag "epoch validation loss" ;;
      add_summary tag (Some "epoch_valid_loss") "epoch" ;;
      tag <- standard_tag "step training loss" ;;
      add_summary tag (Some "step_train_loss") "step" ;;
      tag <- standard_tag "step validation loss" ;;
      add_summary tag (Some "step_valid_loss") "step" ;;
      regs <- gets (fun s => summaries (summ s)) ;;
      upd_summ (set_summary_values
                  (Some (Dict.update []
                           (map (fun kv =>
                                   (fst kv,
                                    ({| sv_tag := fst kv;
                                        simple_value := fst (snd kv) |},
                                     snd (snd kv)))) regs))))
  | None => upd_summ (set_summary_fwriter (Some None))
  end.

Definition get_global_step : M st Z := gets (fun s => global_step (sess s)).

Definition write_summary (which : string) : M st unit :=
  if negb (existsb (String.eqb which) valid_summary_modes) then
    logger_log Level.WARNING
      ("Invalid summary mode " ++ which ++ ", ignoring.")%string
  else
    fw <- attr "summary_fwriter" (fun s => summary_fwriter (summ s)) ;;
    match fw with
    | Some writer =>
        values <- attr "summary_values" (fun s => summary_values (summ s)) ;;
        let value_list :=
          map (fun kv => fst (snd kv))
              (filter (fun kv => String.eqb (snd (snd kv)) which) values) in
        step <- (if String.eqb which "epoch" then get_global_step
                 else if String.eqb which "step"
                      then gets (fun s => batch_step (sess s))
                      else raise (NameError "step")) ;;
        upd_summ (set_summary_fwriter
                    (Some (Some {| logdir := logdir writer;
                                   events := events writer ++ [(value_list, step)] |})))
    | None => ret tt
    end.

Definition init_saver : M st unit :=
  _ <- config_get "scope_name" ;;
  keep <- config_get "saver_max_to_keep" ;;
  upd_ckpt (fun c => {| saver_max_to_keep := Some keep; last_checkpoints := [];
                        checkpoint_dir := checkpoint_dir c; saved := saved c |}) ;;
  root <- config_get "checkpoints_root" ;;
  root <- lift (as_opt_str root) ;;
  match root with
  | Some p =>
      let checkpoints_root := relpath p in
      ind <- attr "summaries_ind" (fun s => summaries_ind (summ s)) ;;
      let dir := path_join checkpoints_root (str_of_int ind) in
      w <- gets outside ;;
      (if negb (path_exists dir w)
       then in_world (mkdir_child checkpoints_root (str_of_int ind))
       else ret tt) ;;
      upd_ckpt (fun c => {| saver_max_to_keep := saver_max_to_keep c;
                            last_checkpoints := last_checkpoints c;
                            checkpoint_dir := Some (Some dir); saved := saved c |})
  | None =>
      upd_ckpt (fun c => {| saver_max_to_keep := saver_max_to_keep c;
                            last_checkpoints := last_checkpoints c;
                            checkpoint_dir := Some None; saved := saved c |})
  end.

Definition init_variables : M st unit :=
  modify (set_sess {| global_step := 0; batch_step := 0; params := init_params |}).

(** [self.saver.save(sess, save_path, global_step)]: the variables are
    stored under [save_path-<global_step>]; a saver with a non-zero
    [max_to_keep] drops its oldest checkpoint beyond that number. *)
Definition remove_key {X} (k : string) (d : Dict.t X) : Dict.t X :=
  filter (fun kv => negb (String.eqb k (fst kv))) d.

Definition saver_save (save_path : string) (step : Z) : M st unit :=
  keep <- attr "saver" (fun s => saver_max_to_keep (ckpt s)) ;;
  s <- get ;;
  let path := (save_path ++ "-" ++ str_of_int step)%string in
  upd_ckpt (fun c =>
    let kept := filter (fun q => negb (String.eqb path q)) (last_checkpoints c)
                ++ [path] in
    let stored := Dict.set path (sess s) (saved c) in
    let drop_oldest :=
      match keep with
      | PInt n => negb (n =? 0) && (n <? Py.len kept)
      | _ => false
      end in
    match kept with
    | oldest :: rest =>
        if drop_oldest
        then {| saver_max_to_keep := saver_max_to_keep c;
                last_checkpoints := rest;
                checkpoint_dir := checkpoint_dir c;
                saved := remove_key oldest stored |}
        else {| saver_max_to_keep := saver_max_to_keep c;
                last_checkpoints := kept;
                checkpoint_dir := checkpoint_dir c;
                saved := stored |}
    | [] => {| saver_max_to_keep := saver_max_to_keep c;
               last_checkpoints := kept;
               checkpoint_dir := checkpoint_dir c;
               saved := stored |}
    end).

Definition save : M st unit :=
  dir <- attr "checkpoint_dir" (fun s => checkpoint_dir (ckpt s)) ;;
  match dir with
  | Some dir =>
      step <- get_global_step ;;
      saver_save (path_join dir "") step ;;
      let config_json_fname := path_join dir "config.json" in
      w <- gets outside ;;
      if negb (Dict.mem config_json_fname (files w))
      then cfg <- gets config ;;
           in_world (TFModelConfig.save cfg config_json_fname)
      else ret tt
  | None =>
      logger_log Level.WARNING
        ("'checkpoints_root' was set to None in the model configuration - saving not possible."
           ++ newline)%string
  end.

(** [self.saver.restore(sess, save_path)] assigns every saved variable,
    the two counters among them ([get_saver_variables] is all global
    variables of the graph). *)
Definition restore (save_path : string) : M st unit :=
  logger_log Level.DEBUG ("restoring from " ++ save_path ++ newline)%string ;;
  _ <- attr "saver" (fun s => saver_max_to_keep (ckpt s)) ;;
  stored <- gets (fun s => saved (ckpt s)) ;;
  match Dict.get save_path stored with
  | Some snapshot => modify (set_sess snapshot)
  | None => raise (NotFoundError save_path)
  end.

(** *** Datasets and construction *)

(** [a // b] on integers *)
Definition floordiv (a b : Z) : exn + Z :=
  if b =? 0 then inl ZeroDivisionError else inr (a / b).

Definition init_datasets : M st unit :=
  loaded <- load_data ;;
  match loaded with
  | Some (inputs, targets, valid) =>
      _ <- config_get "prefetch" ;;
      _ <- config_get "shuffle_buffer" ;;
      batch_size <- config_get "batch_size" ;;
      batch_size <- lift (match batch_size with
                          | PInt z => inr z
                          | _ => inl (TypeError "batch_size is not an integer")
                          end) ;;
      n <- lift (floordiv (Py.len inputs) batch_size) ;;
      modify (set_data (Some {| trainset := Some (inputs, targets);
                                validset := valid;
                                num_batches := Some n |}))
  | None =>
      modify (set_data (Some {| trainset := None; validset := None;
                                num_batches := None |}))
  end.

(** An instance on which [__init__] has not run yet. *)
Definition blank (w : world) : st :=
  {| config := [];
     sess := {| global_step := 0; batch_step := 0; params := init_params |};
     data := None;
     logger := None;
     summ := {| summaries := []; summaries_ind := None;
                summary_fwriter := None; summary_values := None |};
     ckpt := {| saver_max_to_keep := None; last_checkpoints := [];
                checkpoint_dir := None; saved := [] |};
     entropy := O;
     outside := w |}.

Definition _init_from_config (cfg : TFModelConfig.t) : M st unit :=
  modify (set_config cfg) ;;
  upd_summ (set_summaries []) ;;
  init_datasets ;;
  build_graph ;;
  _ <- config_get "scope_name" ;;
  init_logger ;;
  init_summaries ;;
  init_saver ;;
  init_variables.

(** *** Training and inference *)

(** [arr[inds]] on the rows of an array. *)
Definition np_take (rows : list Row) (inds : list Z) : exn + list Row :=
  map_exn (Py.item rows) inds.

(** The rows of the index array [train] builds: training indices alone,
    or paired with validation indices. *)
Inductive batch_inds : Type :=
| Plain (inds : list Z)
| Paired (inds : list (Z * Z)).

Definition rows_or_error (what : string) (a : option (list Row)) : exn + list Row :=
  match a with
  | Some rows => inr rows
  | None => inl (TypeError what)
  end.

(** [tf.assign_add] on an [int32] variable *)
Definition increment_train_step_op : M st Z :=
  modify (fun s => set_sess {| global_step := global_step (sess s);
                               batch_step := wrap32 (batch_step (sess s) + 1);
                               params := params (sess s) |} s) ;;
  gets (fun s => batch_step (sess s)).

Definition increment_global_step_op : M st Z :=
  modify (fun s => set_sess {| global_step := wrap32 (global_step (sess s) + 1);
                               batch_step := batch_step (sess s);
                               params := params (sess s) |} s) ;;
  get_global_step.

(** Lines 472-501 of [train_step]: the two losses. *)
Definition train_step_losses (inds : option batch_inds)
    (train_inputs train_targets validation_inputs validation_targets
       : option (list Row)) (args : Args) : M st (V * V) :=
  match inds with
  | Some inds =>
      split <- lift (match validation_inputs, inds with
                     | Some _, Paired l => inr (map fst l, map snd l)
                     | None, Plain l => inr (l, [])
                     | Some _, Plain _ =>
                         inl (ValueError "not enough values to unpack")
                     | None, Paired _ =>
                         inl (IndexError "too many indices for array")
                     end) ;;
      let '(training_inds, validation_inds) := split in
      inputs <- lift (rows_or_error "train_inputs" train_inputs) ;;
      batch_inputs <- lift (np_take inputs training_inds) ;;
      targets <- lift (rows_or_error "train_targets" train_targets) ;;
      batch_targets <- lift (np_take targets training_inds) ;;
      training_loss <- run_update_and_loss (Some (batch_inputs, batch_targets)) args ;;
      match validation_inputs with
      | Some vinputs =>
          vbatch <- lift (np_take vinputs validation_inds) ;;
          vtargets <- lift (rows_or_error "validation_targets" validation_targets) ;;
          vtbatch <- lift (np_take vtargets validation_inds) ;;
          validation_loss <- run_loss (Some (vbatch, vtbatch)) args ;;
          ret (training_loss, validation_loss)
      | None => ret (training_loss, nan)
      end
  | None =>
      training_loss <- run_update_and_loss None args ;;
      match validation_inputs with
      | Some _ =>
          validation_loss <- run_loss None args ;;
          ret (training_loss, validation_loss)
      | None => ret (training_loss, nan)
      end
  end.

(** Lines 505-513 of [train_step]: the step summaries, when they are due. *)
Definition train_step_summaries (losses : V * V) : M st unit :=
  step_count <- gets (fun s => batch_step (sess s)) ;;
  fw <- attr "summary_fwriter" (fun s => summary_fwriter (summ s)) ;;
  match fw with
  | None => ret tt
  | Some _ =>
      interval <- config_get "step_summaries_interval" ;;
      interval <- lift (as_opt_number interval) ;;
      match interval with
      | None => ret tt
      | Some n =>
          if is_multiple step_count n then
            update_summary "step_train_loss" (fst losses) ;;
            update_summary "step_valid_loss" (snd losses) ;;
            write_summary "step"
          else ret tt
      end
  end.

Definition train_step (inds : option batch_inds)
    (train_inputs train_targets validation_inputs validation_targets
       : option (list Row)) (args : Args) : M st (V * V) :=
  losses <- (losses <- train_step_losses inds train_inputs train_targets
                         validation_inputs validation_targets args ;;
             on_train_step_done ;;
             train_step_summaries losses ;;
             ret losses) ;;
  _ <- increment_train_step_op ;;
  ret losses.

(** What [train] holds in [result] before it unpacks the two losses. *)
Inductive epoch_result : Type :=
| Losses (p : V * V)
| EmptyList                 (* no chunk was processed *)
| NanScalar.                (* the mean of no batch at all *)

Definition unpack_losses (r : epoch_result) : exn + (V * V) :=
  match r with
  | Losses p => inr p
  | EmptyList => inl (ValueError "not enough values to unpack")
  | NanScalar => inl (TypeError "cannot unpack non-iterable object")
  end.

(** The arguments [train] hands through [maybe_chunked] to [train_step]. *)
Definition train_args : Type :=
  option (list Row) * option (list Row) * option (list Row) * option (list Row) * Args.

Definition train_step_on {A} (mk : list A -> batch_inds)
  : handler st A train_args (V * V) :=
  fun v a =>
    let '(ti, tg, vi, vt, args) := a in
    train_step (Some (mk v)) ti tg vi vt args.

Definition iter_pair (p : V * V) : exn + list V := inr [fst p; snd p].

(** Lines 422-426 of [train]; a result that is not the one the flag
    announces does not come out of [maybe_chunked] (see
    [maybe_chunked_flag]). *)
Definition reduce_chunked (res : chunk_result (V * V) V * bool)
  : exn + epoch_result :=
  match res with
  | (Whole r, false) => inr (Losses r)
  | (PerChunk rs, true) =>
      if 1 <? Py.len rs then inr (Losses (np_mean rs))
      else match rs with
           | [r] => inr (Losses r)
           | _ => inr EmptyList
           end
  | _ => inl (TypeError "result and was_chunked disagree")
  end.

(** Lines 398-433 of [train]: the losses of the epoch. *)
Definition train_epoch (train_inputs train_targets validation_inputs
    validation_targets : option (list Row)) (batch_size : option Z)
    (args : Args) : M st epoch_result :=
  ds <- attr "trainset" data ;;
  match trainset ds with
  | None =>
      match train_inputs, train_targets with
      | Some inputs, Some _ =>
          let n_samples := Py.len inputs in
          seed <- gets entropy ;;
          modify (set_entropy (S seed)) ;;
          let inds := np_random_permutation seed n_samples in
          let bundle := (train_inputs, train_targets, validation_inputs,
                         validation_targets, args) in
          match validation_inputs with
          | Some vinputs =>
              seed <- gets entropy ;;
              modify (set_entropy (S seed)) ;;
              (if Py.len vinputs <=? 0
               then raise (ValueError "low >= high") else ret tt) ;;
              let validation_inds :=
                np_random_randint seed (Py.len vinputs) n_samples in
              res <- maybe_chunked iter_pair (combine inds validation_inds)
                       batch_size (Single (train_step_on Paired))
                       (train_step_on Paired) bundle ;;
              lift (reduce_chunked res)
          | None =>
              res <- maybe_chunked iter_pair inds batch_size
                       (Single (train_step_on Plain)) (train_step_on Plain)
                       bundle ;;
              lift (reduce_chunked res)
          end
      | _, _ =>
          raise (ValueError "train_inputs and train_targets must not be None.")
      end
  | Some _ =>
      n <- attr "num_batches" (fun _ => num_batches ds) ;;
      results <- for_each (fun _ => train_step None None None None None args)
                   (Py.range n) ;;
      match results with
      | [] => ret NanScalar
      | _ => ret (Losses (np_mean results))
      end
  end.

(** Lines 435-455 of [train]: hook, checkpoint, epoch summaries, log. *)
Definition train_epoch_done (result : epoch_result) : M st (V * V) :=
  on_epoch_done ;;
  losses <- lift (unpack_losses result) ;;
  step <- get_global_step ;;
  interval <- config_get "saver_interval" ;;
  interval <- lift (as_opt_number interval) ;;
  match interval with
  | Some n => if is_multiple step n then save else ret tt
  | None => ret tt
  end ;;
  interval <- config_get "epoch_summaries_interval" ;;
  interval <- lift (as_opt_number interval) ;;
  match interval with
  | Some n =>
      if is_multiple step n then
        update_summary "epoch_train_loss" (fst losses) ;;
        update_summary "epoch_valid_loss" (snd losses) ;;
        write_summary "epoch"
      else ret tt
  | None => ret tt
  end ;;
  logger_log Level.INFO (format_losses step (fst losses) (snd losses)) ;;
  ret losses.

Definition train (train_inputs train_targets validation_inputs
    validation_targets : option (list Row)) (batch_size : option Z)
    (args : Args) : M st (V * V) :=
  losses <- (result <- train_epoch train_inputs train_targets
                         validation_inputs validation_targets batch_size args ;;
             train_epoch_done result) ;;
  _ <- increment_global_step_op ;;
  ret losses.

Definition infer_step (inds : list Z) (a : list Row * Args) : M st Out :=
  rows <- lift (np_take (fst a) inds) ;;
  run_output rows (snd a).

Definition iter_out (o : Out) : exn + list Out :=
  inl (TypeError "not used: one handler is passed").

Definition infer (inputs : list Row) (batch_size : option Z) (args : Args)
  : M st Out :=
  res <- maybe_chunked iter_out (Py.range (Py.len inputs)) batch_size
           (Single infer_step) infer_step (inputs, args) ;;
  match res with
  | (Whole r, false) => ret r
  | (PerChunk result, true) =>
      if 1 <? Py.len result then lift (np_vstack result)
      else lift (Py.item result 0)
  | _ => raise (TypeError "result and was_chunked disagree")
  end.

(** *** Running a computation step by step *)

Lemma run_bind {S' A B} (m : M S' A) (k : A -> M S' B) s a s1 :
  m s = (inr a, s1) -> bind m k s = k a s1.
Proof. intros H. unfold bind. now rewrite H. Qed.

Lemma run_bind_raise {S' A B} (m : M S' A) (k : A -> M S' B) s e s1 :
  m s = (inl e, s1) -> bind m k s = (inl e, s1).
Proof. intros H. unfold bind. now rewrite H. Qed.

Lemma config_get_run (key : string) (v : pyval) (s : st) :
  Dict.get key (config s) = Some v -> config_get key s = (inr v, s).
Proof. intros H. unfold config_get, bind, gets. now rewrite H. Qed.

Lemma set_outside_same (s : st) : set_outside (outside s) s = s.
Proof. destruct s. reflexivity. Qed.

Lemma set_summ_same (s : st) : set_summ (summ s) s = s.
Proof. destruct s. reflexivity. Qed.

(** *** Summaries with an invalid mode, and without a writer *)

Definition invalid_mode_message (which : string) : string :=
  ("Invalid summary mode " ++ which ++ ", ignoring.")%string.

(** C1, for [add_summary].  With a mode that is neither ['epoch'] nor
    ['step'], [add_summary] builds its warning from the name [which], which
    is bound neither in the function (its parameter is [mode]) nor in the
    module: the call raises [NameError], nothing is logged and the state is
    as it was. *)
Theorem add_summary_invalid_mode_raises (tag : string) (key : option string)
    (mode : string) (s : st) (lg : logger_t) :
  existsb (String.eqb mode) valid_summary_modes = false ->
  logger s = Some lg ->
  add_summary tag key mode s = (inl (NameError "which"), s).
Proof.
  intros Hmode Hlg. unfold add_summary. rewrite Hmode. cbn [negb].
  unfold bind, attr. rewrite Hlg.
  destruct key; reflexivity.
Qed.

(** The sibling path, [write_summary], names its own parameter: the
    warning is handed to the logger, which records it when warnings are
    enabled; nothing else changes and the call returns. *)
Lemma write_summary_invalid_mode_logged (which : string) (s : st) (lg : logger_t) :
  existsb (String.eqb which) valid_summary_modes = false ->
  logger s = Some lg ->
  write_summary which s
  = (inr tt,
     if lg_level lg <=? Level.WARNING
     then set_logger
            (Some {| lg_name := lg_name lg; lg_level := lg_level lg;
                     lg_file := lg_file lg;
                     lg_records := lg_records lg
                                   ++ [(Level.WARNING, invalid_mode_message which)] |})
            s
     else s).
Proof.
  intros Hmode Hlg. unfold write_summary. rewrite Hmode. cbn [negb].
  unfold logger_log, bind, attr. rewrite Hlg.
  destruct (lg_level lg <=? Level.WARNING); reflexivity.
Qed.

(** C10.  When no summary writer is configured ([summary_fwriter] is
    [None]), [update_summary] returns at once for every key and value,
    registered or not: the state, the log included, is as it was. *)
Theorem update_summary_without_writer (key : string) (val : V) (s : st) :
  summary_fwriter (summ s) = Some None ->
  update_summary key val s = (inr tt, s).
Proof.
  intros H. unfold update_summary, bind, attr. now rewrite H.
Qed.

(** [init_summaries] leaves no writer when [summaries_root] is [None]. *)
Lemma init_summaries_without_root (s : st) :
  Dict.get "summaries_root" (config s) = Some PNone ->
  init_summaries s
  = (inr tt, set_summ (set_summary_fwriter (Some None) (summ s)) s).
Proof.
  intros H. unfold init_summaries.
  rewrite (run_bind _ _ _ _ _ (config_get_run _ _ _ H)).
  reflexivity.
Qed.

(** *** Inference on fewer rows than a batch *)

Lemma len_range (n : Z) : 0 <= n -> Py.len (Py.range n) = n.
Proof.
  intros Hn. unfold Py.len, Py.range. rewrite length_map, length_seq. lia.
Qed.

Lemma chunklist_short {A} (values : list A) (k : Z) :
  Py.len values < k -> chunklist values k = inr [].
Proof.
  intros Hlt. unfold Py.len in Hlt.
  unfold chunklist, Py.range3.
  destruct (Z.eqb_spec k 0) as [|_]; [lia|].
  replace k with (Z.of_nat (Z.to_nat k)) by lia.
  rewrite chunklist_loop_chop. f_equal.
  destruct (Z.to_nat (Py.range_len 0 (Py.len values) (Z.of_nat (Z.to_nat k))))
    as [|m]; [reflexivity|].
  cbn [chop Nat.mul skipn]. rewrite length_firstn.
  destruct (Nat.eqb_spec (Nat.min (Z.to_nat k) (length values)) (Z.to_nat k));
    [lia|reflexivity].
Qed.

(** C9.  With [0 < rows < batch_size], [maybe_chunked] has no chunk to
    hand to [infer_step]: it returns the empty list with the flag set, and
    [infer] raises [IndexError] on element 0 of that list.  [run_output] is
    not called; the state is as it was. *)
Theorem infer_short_input_raises (inputs : list Row) (batch_size : Z)
    (args : Args) (s : st) :
  0 < Py.len inputs < batch_size ->
  maybe_chunked iter_out (Py.range (Py.len inputs)) (Some batch_size)
    (Single infer_step) infer_step (inputs, args) s
  = (inr (PerChunk [], true), s)
  /\ infer inputs (Some batch_size) args s
     = (inl (IndexError "list index out of range"), s).
Proof.
  intros [Hpos Hlt].
  assert (Hchunks : chunklist (Py.range (Py.len inputs)) batch_size = inr []).
  { apply chunklist_short. rewrite len_range by lia. exact Hlt. }
  assert (Hrun : maybe_chunked iter_out (Py.range (Py.len inputs))
                   (Some batch_size) (Single infer_step) infer_step
                   (inputs, args) s
                 = (inr (PerChunk [], true), s)).
  { unfold maybe_chunked, bind, lift. rewrite Hchunks. reflexivity. }
  split; [exact Hrun|].
  unfold infer. rewrite (run_bind _ _ _ _ _ Hrun). reflexivity.
Qed.

(** *** The index of a run *)

Lemma wrap64_small (z : Z) : - 2 ^ 63 <= z <= INT64_MAX -> wrap64 z = z.
Proof.
  intros H. unfold wrap64, wrap, INT64_MAX in *.
  rewrite Z.mod_small; lia.
Qed.

Lemma np_max_plus_one_exact (ns : list Z) :
  Forall (fun n => - 2 ^ 63 <= n < INT64_MAX) ns ->
  np_max_plus_one ns = fold_right Z.max 0 ns + 1.
Proof.
  intros H. unfold np_max_plus_one.
  assert (Hm : 0 <= fold_right Z.max 0 ns < INT64_MAX).
  { induction H as [|n ns Hn _ IH]; simpl.
    - unfold INT64_MAX. lia.
    - lia. }
  apply wrap64_small. lia.
Qed.

Lemma mem_get_none {X} (k : string) (d : Dict.t X) :
  Dict.get k d = None -> Dict.mem k d = false.
Proof. unfold Dict.mem. now intros ->. Qed.

Lemma mem_get_some {X} (k : string) (d : Dict.t X) (x : X) :
  Dict.get k d = Some x -> Dict.mem k d = true.
Proof. unfold Dict.mem. now intros ->. Qed.

Lemma below_a_file_files (p : string) (w w' : world) :
  files w' = files w -> below_a_file p w' = below_a_file p w.
Proof. unfold below_a_file, is_file. now intros ->. Qed.

Lemma clear_path_files (p : string) (w w' : world) :
  files w' = files w -> clear_path p w' = clear_path p w.
Proof.
  intros H. unfold clear_path. rewrite (below_a_file_files p w w' H).
  unfold is_file. now rewrite H.
Qed.

Lemma mkdir_child_run (root name : string) (s : st) :
  clear_path (path_join root name) (outside s) = true ->
  in_world (mkdir_child root name) s
  = (inr tt, set_outside (with_child root name (outside s)) s).
Proof.
  intros H. unfold in_world, mkdir_child, bind, get, modify.
  rewrite H. reflexivity.
Qed.

Lemma next_run_index_absent (root : string) (s : st) :
  path_exists root (outside s) = false ->
  below_a_file root (outside s) = false ->
  next_run_index root s
  = (inr 0, set_outside (set_dirs (Dict.set root [] (dirs (outside s)))
                           (outside s)) s).
Proof.
  intros H Hb. unfold next_run_index, bind, gets.
  rewrite H. cbn [negb].
  unfold in_world, makedirs, bind, get, modify. rewrite H, Hb. reflexivity.
Qed.

Lemma next_run_index_not_a_directory (root : string) (s : st) :
  Dict.get root (dirs (outside s)) = None ->
  is_file root (outside s) = true ->
  next_run_index root s = (inl (IOError root), s).
Proof.
  intros H Hf. unfold next_run_index, bind, gets, path_exists.
  rewrite Hf, Bool.orb_true_r. cbn [negb].
  unfold in_world, listdir, bind, get, raise. rewrite H.
  now rewrite set_outside_same.
Qed.

Lemma next_run_index_present (root : string) (s : st) names ns :
  Dict.get root (dirs (outside s)) = Some names ->
  map_exn int_of_str names = inr ns ->
  next_run_index root s = (inr (np_max_plus_one ns), s).
Proof.
  intros H Hns. unfold next_run_index, bind, gets, path_exists, is_dir.
  rewrite (mem_get_some _ _ _ H). cbn [negb orb].
  unfold in_world, listdir, bind, get, ret, lift. rewrite H, Hns.
  now rewrite set_outside_same.
Qed.

Lemma standard_tag_run (what scope : string) (s : st) :
  Dict.get "scope_name" (config s) = Some (PStr scope) ->
  standard_tag what s = (inr ("(" ++ scope ++ ") " ++ what)%string, s).
Proof.
  intros H. unfold standard_tag.
  rewrite (run_bind _ _ _ _ _ (config_get_run _ _ _ H)). reflexivity.
Qed.

Lemma add_summary_valid_run (tag : string) (key : option string)
    (mode : string) (s : st) :
  existsb (String.eqb mode) valid_summary_modes = true ->
  add_summary tag key mode s
  = (inr tt,
     set_summ
       (set_summaries
          (Dict.set (match key with None => tag | Some k => k end)
             (float0, mode) (summaries (summ s)))
          (summ s)) s).
Proof. intros H. unfold add_summary. rewrite H. reflexivity. Qed.

Lemma init_summaries_runs (s s0 : st) (p scope : string) (ind : Z) :
  Dict.get "summaries_root" (config s) = Some (PStr p) ->
  next_run_index (realpath p) s = (inr ind, s0) ->
  Dict.get "scope_name" (config s0) = Some (PStr scope) ->
  clear_path (path_join (realpath p) (str_of_int ind)) (outside s0) = true ->
  exists s1,
    init_summaries s = (inr tt, s1)
    /\ summaries_ind (summ s1) = Some ind
    /\ config s1 = config s0
    /\ files (outside s1) = files (outside s0).
Proof.
  intros Hroot Hind Hscope Hclear. unfold init_summaries.
  rewrite (run_bind _ _ _ _ _ (config_get_run _ _ _ Hroot)).
  cbn [as_opt_str]. rewrite (run_bind _ _ _ _ _ (eq_refl : lift _ s = (inr (Some p), s))).
  rewrite (run_bind _ _ _ _ _ Hind).
  repeat
    (erewrite run_bind;
     [| first [ apply add_summary_valid_run; reflexivity
              | apply standard_tag_run; cbn [config set_summ set_outside];
                exact Hscope
              | apply mkdir_child_run; exact Hclear
              | reflexivity ] ]).
  eexists. split; [reflexivity|]. split; [reflexivity|]. split; reflexivity.
Qed.

Lemma init_saver_runs (s : st) (q : string) (scope keep : pyval) (ind : Z) :
  Dict.get "scope_name" (config s) = Some scope ->
  Dict.get "saver_max_to_keep" (config s) = Some keep ->
  Dict.get "checkpoints_root" (config s) = Some (PStr q) ->
  summaries_ind (summ s) = Some ind ->
  below_a_file (path_join (relpath q) (str_of_int ind)) (outside s) = false ->
  exists s2,
    init_saver s = (inr tt, s2)
    /\ checkpoint_dir (ckpt s2)
       = Some (Some (path_join (relpath q) (str_of_int ind))).
Proof.
  intros Hscope Hkeep Hroot Hind Hbelow. unfold init_saver.
  rewrite (run_bind _ _ _ _ _ (config_get_run _ _ _ Hscope)).
  rewrite (run_bind _ _ _ _ _ (config_get_run _ _ _ Hkeep)).
  erewrite run_bind by reflexivity.
  erewrite run_bind by (apply config_get_run; exact Hroot).
  erewrite run_bind by reflexivity.
  cbn iota.
  erewrite run_bind by (unfold attr; cbn; rewrite Hind; reflexivity).
  erewrite run_bind by reflexivity.
  match goal with
  | |- context [negb (path_exists ?d ?w)] =>
      destruct (path_exists d w) eqn:Hex
  end; cbn [negb].
  - erewrite run_bind by reflexivity. eexists. split; reflexivity.
  - erewrite run_bind.
    2:{ apply mkdir_child_run. unfold clear_path.
        unfold path_exists in Hex. apply Bool.orb_false_elim in Hex as [_ Hf].
        apply andb_true_intro. split; apply Bool.negb_true_iff;
          [exact Hf|exact Hbelow]. }
    eexists. split; reflexivity.
Qed.

(** The run starting in [s] gets the index [ind]: [init_summaries] returns
    with [summaries_ind = ind], and [init_saver], when a checkpoint root is
    configured under which a directory of that name can be made, then names
    the checkpoint directory by the same index. *)
Definition allocates (s : st) (ind : Z) : Prop :=
  exists s1,
    init_summaries s = (inr tt, s1)
    /\ summaries_ind (summ s1) = Some ind
    /\ forall (q : string) (keep : pyval),
         Dict.get "checkpoints_root" (config s) = Some (PStr q) ->
         Dict.get "saver_max_to_keep" (config s) = Some keep ->
         below_a_file (path_join (relpath q) (str_of_int ind)) (outside s)
         = false ->
         exists s2,
           init_saver s1 = (inr tt, s2)
           /\ checkpoint_dir (ckpt s2)
              = Some (Some (path_join (relpath q) (str_of_int ind))).

(** C2, as the code has it.  The run index is computed from the summaries
    root, and the checkpoint directory reuses it.  It is 0 when nothing
    exists at the summaries root, neither a directory nor a regular file,
    and the root and its run directory can be made; when the root is a
    directory whose entries are decimal names and the run directory can be
    made, it is the maximum of 0 and those numbers, plus 1, whatever gaps
    there are: an existing empty root gives 1.  When the root is a regular
    file, [os.path.exists] holds, [os.listdir] raises, and no index is
    assigned. *)
Theorem run_index_allocation (s : st) (p scope : string) :
  Dict.get "summaries_root" (config s) = Some (PStr p) ->
  Dict.get "scope_name" (config s) = Some (PStr scope) ->
  (path_exists (realpath p) (outside s) = false ->
   below_a_file (realpath p) (outside s) = false ->
   clear_path (path_join (realpath p) (str_of_int 0)) (outside s) = true ->
   allocates s 0)
  /\ (forall names ns,
         Dict.get (realpath p) (dirs (outside s)) = Some names ->
         map_exn int_of_str names = inr ns ->
         Forall (fun n => - 2 ^ 63 <= n < INT64_MAX) ns ->
         clear_path (path_join (realpath p)
                       (str_of_int (fold_right Z.max 0 ns + 1))) (outside s)
         = true ->
         allocates s (fold_right Z.max 0 ns + 1))
  /\ (Dict.get (realpath p) (dirs (outside s)) = None ->
      is_file (realpath p) (outside s) = true ->
      init_summaries s = (inl (IOError (realpath p)), s)).
Proof.
  intros Hroot Hscope.
  assert (Hgen : forall ind s0,
             next_run_index (realpath p) s = (inr ind, s0) ->
             config s0 = config s ->
             files (outside s0) = files (outside s) ->
             clear_path (path_join (realpath p) (str_of_int ind)) (outside s)
             = true ->
             allocates s ind).
  { intros ind s0 Hind Hcfg Hfiles Hclear.
    destruct (init_summaries_runs s s0 p scope ind Hroot Hind
                ltac:(now rewrite Hcfg)
                ltac:(now rewrite (clear_path_files _ _ _ Hfiles)))
      as (s1 & Hrun & Hidx & Hcfg1 & Hfiles1).
    exists s1. split; [exact Hrun|]. split; [exact Hidx|].
    intros q keep Hq Hkeep Hbelow.
    apply (init_saver_runs s1 q (PStr scope) keep ind);
      try (rewrite Hcfg1, Hcfg; assumption).
    - exact Hidx.
    - rewrite (below_a_file_files _ (outside s) (outside s1)); [exact Hbelow|].
      now rewrite Hfiles1. }
  split; [|split].
  - intros Habsent Hbelow Hclear.
    eapply Hgen;
      [apply next_run_index_absent; assumption|reflexivity|reflexivity
      |exact Hclear].
  - intros names ns Hnames Hparse Hrange Hclear.
    rewrite <- (np_max_plus_one_exact ns Hrange) in *.
    eapply Hgen;
      [eapply next_run_index_present; eassumption|reflexivity|reflexivity
      |exact Hclear].
  - intros Hnodir Hfile. unfold init_summaries.
    rewrite (run_bind _ _ _ _ _ (config_get_run _ _ _ Hroot)).
    cbn [as_opt_str].
    rewrite (run_bind _ _ _ _ _ (eq_refl : lift _ s = (inr (Some p), s))).
    apply run_bind_raise. now apply next_run_index_not_a_directory.
Qed.

(** *** The two counters *)

Definition counters (s : st) : Z * Z :=
  (global_step (sess s), batch_step (sess s)).

Definition inc32 (n : Z) : Z := wrap32 (n + 1).

(** What an epoch may do to the counters before its own increment: the
    epoch counter is as it was, the mini-batch counter went through some
    number of increments. *)
Definition stepped : relation st :=
  fun s s' =>
    global_step (sess s') = global_step (sess s)
    /\ exists n, batch_step (sess s') = Nat.iter n inc32 (batch_step (sess s)).

#[local] Instance stepped_PreOrder : PreOrder stepped.
Proof.
  split.
  - intros s. split; [reflexivity|]. now exists O.
  - intros a b c [Hg1 [n1 Hb1]] [Hg2 [n2 Hb2]]. split; [congruence|].
    exists (n2 + n1)%nat. now rewrite Nat.iter_add, <- Hb1.
Qed.

Lemma same_counters_stepped (s s' : st) : same counters s s' -> stepped s s'.
Proof.
  unfold same, counters. intros [= Hg Hb]. split; [exact Hg|].
  exists O. exact Hb.
Qed.

Lemma counters_stepped {A} (m : M st A) : keeps counters m -> respects stepped m.
Proof. apply respects_weaken, same_counters_stepped. Qed.

Lemma counters_in_world {A} (m : M world A) : keeps counters (in_world m).
Proof. intros s. unfold in_world. destruct (m (outside s)). reflexivity. Qed.

Lemma counters_config_get (key : string) : keeps counters (config_get key).
Proof. unfold config_get. frame. Qed.

Lemma counters_logger_log (level : Z) (msg : string) :
  keeps counters (logger_log level msg).
Proof. unfold logger_log. frame. reflexivity. Qed.

Lemma counters_upd_summ f : keeps counters (upd_summ f).
Proof. unfold upd_summ. frame. reflexivity. Qed.

Lemma counters_upd_ckpt f : keeps counters (upd_ckpt f).
Proof. unfold upd_ckpt. frame. reflexivity. Qed.

#[local] Hint Resolve counters_in_world counters_config_get
  counters_logger_log counters_upd_summ counters_upd_ckpt : frames.

Lemma counters_add_summary tag key mode : keeps counters (add_summary tag key mode).
Proof. unfold add_summary. frame. Qed.

Lemma counters_update_summary key val : keeps counters (update_summary key val).
Proof. unfold update_summary. frame. Qed.

Lemma counters_write_summary which : keeps counters (write_summary which).
Proof. unfold write_summary, get_global_step. frame. Qed.

Lemma counters_saver_save path step : keeps counters (saver_save path step).
Proof. unfold saver_save. frame. Qed.

Lemma counters_save : keeps counters save.
Proof. unfold save, get_global_step. frame; apply counters_saver_save. Qed.

#[local] Hint Resolve counters_add_summary counters_update_summary
  counters_write_summary counters_save : frames.

Lemma restore_returns (path : string) (s s' : st) :
  restore path s = (inr tt, s') -> Dict.get path (saved (ckpt s)) = Some (sess s').
Proof.
  unfold restore, logger_log, bind, attr, gets, modify, raise, ret.
  destruct (logger s) as [lg|]; [|discriminate].
  destruct (lg_level lg <=? Level.DEBUG); cbn;
    (destruct (saver_max_to_keep (ckpt s)); cbn; [|intros H; discriminate H]);
    (destruct (Dict.get path (saved (ckpt s))) as [snapshot|]; cbn;
     [|intros H; discriminate H]);
    intros [= <-]; reflexivity.
Qed.


(** *** Construction from a checkpoint, and by the base class *)

Definition minimal_config : Dict.t pyval :=
  [("scope_name", PStr ""); ("log_level", PInt Level.ERROR)].

Definition failed_to_initialize (config_json_fname : string) : string :=
  (newline ++ newline ++ "Failed to initialize from config file ("
     ++ config_json_fname ++ ")." ++ newline ++ newline)%string.

Definition _init_from_checkpoint (config_json_fname : string) : M st unit :=
  let conf := TFModelConfig.new (fun d => d) [] in
  try_except
    (conf <- in_world (TFModelConfig.load conf config_json_fname) ;;
     _init_from_config conf)
    (fun e =>
       modify (set_config minimal_config) ;;
       init_logger ;;
       logger_log Level.ERROR (failed_to_initialize config_json_fname) ;;
       raise e).

(** What [TFModel(config)] is given. *)
Inductive constructor_argument : Type :=
| AConfig (config : TFModelConfig.t)     (* a [TFModelConfig] instance *)
| APath (path : string)                  (* a [str] *)
| AOther (obj : pyval).                  (* anything else, a plain dict too *)

Definition __init__ (config : constructor_argument) : M st unit :=
  match config with
  | AConfig c => _init_from_config c
  | APath p => _init_from_checkpoint p
  | AOther _ =>
      raise (ValueError
               "Expecting a TFModelConfig instance, or path to a config.json file in a checkpoint directory.")
  end.

(** The logger the error handler of [_init_from_checkpoint] gets as far as
    creating. *)
Definition error_logger : logger_t :=
  {| lg_name := PStr ""; lg_level := Level.ERROR; lg_file := None;
     lg_records := [] |}.

(** When loading the config and building from it fails with an
    [Exception] inside [_init_from_checkpoint], the handler replaces the
    config by one that has no ['log_file'] key, and [init_logger] reads
    that key: the caller gets [KeyError: 'log_file'] instead of the
    original exception, and the failure message is never logged. *)
Theorem init_from_checkpoint_failure_masked (fname : string) (s s1 : st) (e : exn) :
  (conf <- in_world (TFModelConfig.load (TFModelConfig.new (fun d => d) []) fname) ;;
   _init_from_config conf) s = (inl e, s1) ->
  is_exception e = true ->
  _init_from_checkpoint fname s
  = (inl (KeyError "log_file"),
     set_logger (Some error_logger) (set_config minimal_config s1)).
Proof.
  intros H He. unfold _init_from_checkpoint, try_except. cbv zeta.
  rewrite H, He. reflexivity.
Qed.

(** A config file that is not there does not fail the construction:
    [load] prints the error and the model is built from the base
    defaults. *)
Theorem init_from_checkpoint_missing_file (fname : string) (s s' : st) :
  Dict.get fname (files (outside s)) = None ->
  _init_from_config (TFModelConfig.new (fun d => d) [])
    (set_outside (set_stdout (stdout (outside s) ++ [IOError fname]) (outside s)) s)
  = (inr tt, s') ->
  _init_from_checkpoint fname s = (inr tt, s').
Proof.
  intros Hfile Hbuild. unfold _init_from_checkpoint, try_except. cbv zeta.
  assert (Hload : in_world (TFModelConfig.load (TFModelConfig.new (fun d => d) []) fname) s
                  = (inr (TFModelConfig.new (fun d => d) []),
                     set_outside (set_stdout (stdout (outside s) ++ [IOError fname])
                                    (outside s)) s)).
  { unfold in_world, TFModelConfig.load, try_except, json_load, bind, get.
    rewrite Hfile. reflexivity. }
  rewrite (run_bind _ _ _ _ _ Hload), Hbuild. reflexivity.
Qed.

(** With a checkpoint root configured and no summaries root, no run index
    was ever assigned: [init_saver] raises [AttributeError] on
    [summaries_ind]. *)
Theorem init_saver_without_run_index (s : st) (q : string) (scope keep : pyval) :
  Dict.get "summaries_root" (config s) = Some PNone ->
  Dict.get "scope_name" (config s) = Some scope ->
  Dict.get "saver_max_to_keep" (config s) = Some keep ->
  Dict.get "checkpoints_root" (config s) = Some (PStr q) ->
  summaries_ind (summ s) = None ->
  exists s', (init_summaries ;; init_saver) s
             = (inl (AttributeError "summaries_ind"), s')
             /\ checkpoint_dir (ckpt s') = checkpoint_dir (ckpt s).
Proof.
  intros Hsum Hscope Hkeep Hroot Hind.
  rewrite (run_bind _ _ _ _ _ (init_summaries_without_root s Hsum)).
  unfold init_saver.
  erewrite run_bind by (apply config_get_run; exact Hscope).
  erewrite run_bind by (apply config_get_run; exact Hkeep).
  erewrite run_bind by reflexivity.
  erewrite run_bind by (apply config_get_run; exact Hroot).
  erewrite run_bind by reflexivity.
  cbn iota.
  erewrite run_bind_raise by (unfold attr; cbn; rewrite Hind; reflexivity).
  eexists. split; reflexivity.
Qed.


(** *** Summaries with a writer *)

Definition invalid_key_message (key : string) : string :=
  ("Invalid summary key " ++ dquote ++ key ++ dquote ++ ", skipping.")%string.

Definition log_record (level : Z) (msg : string) (lg : logger_t) : logger_t :=
  if lg_level lg <=? level
  then {| lg_name := lg_name lg; lg_level := lg_level lg; lg_file := lg_file lg;
          lg_records := lg_records lg ++ [(level, msg)] |}
  else lg.

Lemma logger_log_run (level : Z) (msg : string) (s : st) (lg : logger_t) :
  logger s = Some lg ->
  logger_log level msg s = (inr tt, set_logger (Some (log_record level msg lg)) s).
Proof.
  intros H. unfold logger_log, bind, attr, log_record. rewrite H.
  destruct (lg_level lg <=? level); [reflexivity|].
  cbn. destruct s; cbn in *. now subst.
Qed.

(** A summary that is registered after construction is never written:
    [add_summary] records it in [summaries], but the values the writer
    uses were fixed by [init_summaries], so [update_summary] only logs the
    invalid-key warning.  The tag given along with a key plays no part. *)
Theorem late_summary_is_not_written (tag key mode : string) (val : V) (s : st)
    (fw : file_writer V) (values : Dict.t (summary_value V * string))
    (lg : logger_t) :
  existsb (String.eqb mode) valid_summary_modes = true ->
  summary_fwriter (summ s) = Some (Some fw) ->
  summary_values (summ s) = Some values ->
  Dict.get key values = None ->
  logger s = Some lg ->
  (add_summary tag (Some key) mode ;; update_summary key val) s
  = (inr tt,
     set_logger (Some (log_record Level.WARNING (invalid_key_message key) lg))
       (set_summ (set_summaries (Dict.set key (float0, mode) (summaries (summ s)))
                    (summ s)) s)).
Proof.
  intros Hmode Hfw Hvalues Hkey Hlg.
  rewrite (run_bind _ _ _ _ _ (add_summary_valid_run tag (Some key) mode s Hmode)).
  unfold update_summary.
  erewrite run_bind by (unfold attr; cbn; rewrite Hfw; reflexivity).
  cbn iota.
  erewrite run_bind by (unfold attr; cbn; rewrite Hvalues; reflexivity).
  rewrite Hkey. now apply logger_log_run.
Qed.

Lemma in_set_same {X} (k : string) (x : X) (d : Dict.t X) :
  In (k, x) (Dict.set k x d).
Proof.
  induction d as [|[k' x'] d IH]; simpl; [now left|].
  destruct (String.eqb k k'); [now left|now right].
Qed.

(** The counter a summary of a mode is written at. *)
Definition step_of_mode (mode : string) (s : st) : Z :=
  if String.eqb mode "epoch" then global_step (sess s) else batch_step (sess s).

(** Updating a registered summary and writing its mode hands the writer
    exactly one more event; the event carries the new value under the
    summary's tag, at the epoch counter for mode ['epoch'] and at the
    mini-batch counter for mode ['step'].  The variables of the session are
    not touched. *)
Theorem update_then_write (key mode : string) (val : V) (s : st)
    (fw : file_writer V) (values : Dict.t (summary_value V * string))
    (v : summary_value V) :
  existsb (String.eqb mode) valid_summary_modes = true ->
  summary_fwriter (summ s) = Some (Some fw) ->
  summary_values (summ s) = Some values ->
  Dict.get key values = Some (v, mode) ->
  exists event_values s',
    (update_summary key val ;; write_summary mode) s = (inr tt, s')
    /\ summary_fwriter (summ s')
       = Some (Some {| logdir := logdir fw;
                       events := events fw
                                 ++ [(event_values, step_of_mode mode s)] |})
    /\ In {| sv_tag := sv_tag v; simple_value := val |} event_values
    /\ sess s' = sess s.
Proof.
  intros Hmode Hfw Hvalues Hkey.
  set (v' := {| sv_tag := sv_tag v; simple_value := val |}).
  set (values' := Dict.set key (v', mode) values).
  set (s1 := set_summ (set_summary_values (Some values') (summ s)) s).
  assert (Hupd : update_summary key val s = (inr tt, s1)).
  { unfold update_summary.
    erewrite run_bind by (unfold attr; cbn; rewrite Hfw; reflexivity).
    cbn iota.
    erewrite run_bind by (unfold attr; cbn; rewrite Hvalues; reflexivity).
    rewrite Hkey. reflexivity. }
  exists (map (fun kv => fst (snd kv))
            (filter (fun kv => String.eqb (snd (snd kv)) mode) values')).
  eexists.
  rewrite (run_bind _ _ _ _ _ Hupd).
  unfold write_summary. rewrite Hmode. cbn [negb].
  erewrite run_bind by (unfold attr, s1; cbn; rewrite Hfw; reflexivity).
  cbn iota.
  erewrite run_bind by (unfold attr, s1; cbn; reflexivity).
  assert (Hstep : (if String.eqb mode "epoch" then get_global_step
                   else if String.eqb mode "step"
                        then gets (fun s => batch_step (sess s))
                        else raise (NameError "step")) s1
                  = (inr (step_of_mode mode s), s1)).
  { unfold step_of_mode. simpl in Hmode.
    destruct (String.eqb mode "epoch"); [reflexivity|].
    destruct (String.eqb mode "step"); [reflexivity|discriminate]. }
  rewrite (run_bind _ _ _ _ _ Hstep).
  split; [reflexivity|]. split; [reflexivity|]. split; [|reflexivity].
  apply (in_map (fun kv => fst (snd kv)) _ (key, (v', mode))).
  apply filter_In. split; [apply in_set_same|]. cbn. apply String.eqb_refl.
Qed.


(** *** Saving *)

Definition no_checkpoint_root_message : string :=
  ("'checkpoints_root' was set to None in the model configuration - saving not possible."
     ++ newline)%string.

(** Without a checkpoint root, [save] stores nothing and writes no file:
    it hands a warning to the logger and returns. *)
Theorem save_without_checkpoint_root (s : st) (lg : logger_t) :
  checkpoint_dir (ckpt s) = Some None ->
  logger s = Some lg ->
  save s
  = (inr tt,
     set_logger (Some (log_record Level.WARNING no_checkpoint_root_message lg)) s).
Proof.
  intros Hdir Hlg. unfold save.
  erewrite run_bind by (unfold attr; rewrite Hdir; reflexivity).
  cbn iota. now apply logger_log_run.
Qed.

Lemma saver_save_runs (p : string) (step : Z) (s : st) (keep : pyval) :
  saver_max_to_keep (ckpt s) = Some keep ->
  exists c, saver_save p step s = (inr tt, set_ckpt c s).
Proof.
  intros Hkeep. unfold saver_save.
  erewrite run_bind by (unfold attr; rewrite Hkeep; reflexivity).
  erewrite run_bind by reflexivity.
  unfold upd_ckpt, modify. eexists. reflexivity.
Qed.

Lemma config_save_returns (cfg : TFModelConfig.t) (fname : string) (w : world) :
  exists w', TFModelConfig.save cfg fname w = (inr tt, w').
Proof.
  unfold TFModelConfig.save, try_except.
  destruct ((open_w fname;; json_dump (PDict cfg) fname) w) as [[e|[]] w1]
    eqn:Hdump; [|eexists; reflexivity].
  rewrite (dump_error_is_exception _ _ _ _ _ Hdump). eexists. reflexivity.
Qed.

(** With a checkpoint directory, [save] returns normally, leaves the
    session as it is, and writes the [config.json] snapshot only when none
    is there yet: an existing one is kept as it is, whatever the config
    holds by now; a snapshot that cannot be written does not fail the
    call. *)
Theorem save_writes_config_once (s : st) (dir : string) (keep : pyval) :
  checkpoint_dir (ckpt s) = Some (Some dir) ->
  saver_max_to_keep (ckpt s) = Some keep ->
  exists s',
    save s = (inr tt, s')
    /\ sess s' = sess s
    /\ (Dict.mem (path_join dir "config.json") (files (outside s)) = true ->
        outside s' = outside s)
    /\ (Dict.mem (path_join dir "config.json") (files (outside s)) = false ->
        outside s'
        = snd (TFModelConfig.save (config s) (path_join dir "config.json")
                 (outside s))).
Proof.
  intros Hdir Hkeep. unfold save.
  erewrite run_bind by (unfold attr; rewrite Hdir; reflexivity).
  cbn iota.
  erewrite run_bind by reflexivity.
  destruct (saver_save_runs (path_join dir "") (global_step (sess s)) s keep Hkeep)
    as [c Hc].
  erewrite run_bind by exact Hc.
  erewrite run_bind by reflexivity.
  cbn [outside set_ckpt].
  destruct (Dict.mem (path_join dir "config.json") (files (outside s))) eqn:Hmem;
    cbn [negb].
  - eexists. split; [reflexivity|]. split; [reflexivity|].
    split; [reflexivity|discriminate].
  - erewrite run_bind by reflexivity. cbn [config set_ckpt].
    unfold in_world. cbn [outside set_ckpt].
    destruct (config_save_returns (config s) (path_join dir "config.json")
                (outside s)) as [w' Hsave].
    rewrite Hsave.
    eexists. split; [reflexivity|]. split; [reflexivity|].
    split; [discriminate|reflexivity].
Qed.

(** *** Epochs that cannot produce a loss *)

(** In array mode, an epoch on fewer samples than a batch has no chunk to
    train on: [train_step] is not called, [on_epoch_done] still runs, and
    unpacking the two losses from the empty result raises [ValueError];
    the epoch is not counted. *)
Theorem train_fewer_samples_than_batch (inputs targets : list Row)
    (batch_size : Z) (args : Args) (s s1 : st) (ds : dataset_state Row) :
  data s = Some ds ->
  trainset ds = None ->
  Py.len (np_random_permutation (entropy s) (Py.len inputs)) < batch_size ->
  on_epoch_done (set_entropy (S (entropy s)) s) = (inr tt, s1) ->
  train (Some inputs) (Some targets) None None (Some batch_size) args s
  = (inl (ValueError "not enough values to unpack"), s1).
Proof.
  intros Hdata Hts Hshort Hhook. unfold train.
  assert (Hepoch : train_epoch (Some inputs) (Some targets) None None
                     (Some batch_size) args s
                   = (inr EmptyList, set_entropy (S (entropy s)) s)).
  { unfold train_epoch.
    erewrite run_bind by (unfold attr; rewrite Hdata; reflexivity).
    rewrite Hts.
    erewrite run_bind by reflexivity.
    erewrite run_bind by reflexivity.
    unfold maybe_chunked. rewrite (chunklist_short _ _ Hshort).
    reflexivity. }
  apply run_bind_raise.
  rewrite (run_bind _ _ _ _ _ Hepoch).
  unfold train_epoch_done.
  rewrite (run_bind _ _ _ _ _ Hhook). reflexivity.
Qed.

(** *** Inference without and with a batch size *)

Lemma np_take_seq (inputs : list Row) (b c : nat) :
  (b + c <= length inputs)%nat ->
  np_take inputs (map Z.of_nat (seq b c)) = inr (firstn c (skipn b inputs)).
Proof.
  revert b. induction c as [|c IH]; intros b Hb; [reflexivity|].
  cbn [seq map]. unfold np_take in *. cbn [map_exn].
  unfold Py.item at 1.
  destruct (Z.ltb_spec (Z.of_nat b) 0) as [|_]; [lia|].
  destruct (Z.ltb_spec (Z.of_nat b) 0) as [|_]; [lia|].
  rewrite Nat2Z.id.
  destruct (nth_error inputs b) as [x|] eqn:Hnth.
  - rewrite IH by lia.
    f_equal.
    assert (Hskip : skipn b inputs = x :: skipn (S b) inputs).
    { clear - Hnth. revert b Hnth.
      induction inputs as [|y inputs IH]; intros [|b] H; try discriminate.
      - injection H as ->. reflexivity.
      - cbn in H. cbn [skipn]. now apply IH. }
    now rewrite Hskip.
  - apply nth_error_None in Hnth. lia.
Qed.

(** Without a batch size, [infer] is one call of [run_output] on all the
    rows of the input, in their order, and returns what it returns. *)
Theorem infer_whole_input (inputs : list Row) (args : Args) (s : st) :
  infer inputs None args s = run_output inputs args s.
Proof.
  unfold infer, maybe_chunked, infer_step. cbn [fst snd].
  assert (Hrows : np_take inputs (Py.range (Py.len inputs)) = inr inputs).
  { unfold Py.range, Py.len. rewrite Nat2Z.id.
    rewrite np_take_seq by lia. cbn [skipn]. now rewrite firstn_all. }
  rewrite Hrows. unfold bind, lift, ret.
  destruct (run_output inputs args s) as [[e|r] s']; reflexivity.
Qed.

(** The chunks of a positive chunk length, in natural numbers. *)
Lemma chunklist_runs {A} (values : list A) (k : Z) :
  0 < k ->
  exists chunks,
    chunklist values k = inr chunks
    /\ length chunks = (length values / Z.to_nat k)%nat
    /\ Forall (fun c => length c = Z.to_nat k) chunks
    /\ concat chunks
       = firstn (length values / Z.to_nat k * Z.to_nat k) values.
Proof.
  intros Hk.
  set (kn := Z.to_nat k).
  assert (Hkn : (0 < kn)%nat) by (unfold kn; lia).
  set (q := (length values / kn)%nat).
  set (r := (length values mod kn)%nat).
  set (m := Z.to_nat (Py.range_len 0 (Py.len values) k)).
  assert (Hlen : length values = (q * kn + r)%nat).
  { unfold q, r. rewrite Nat.mul_comm. apply Nat.div_mod_eq. }
  assert (Hr : (r < kn)%nat) by (apply Nat.mod_upper_bound; lia).
  assert (Hm : (q <= m)%nat).
  { unfold m, Py.range_len, Py.len.
    destruct (Z.ltb_spec 0 k) as [_|]; [|lia].
    destruct (Z.ltb_spec 0 (Z.of_nat (length values))) as [Hpos|Hz].
    - assert (Z.of_nat q <= (Z.of_nat (length values) - 0 - 1) / k + 1); [|lia].
      replace ((Z.of_nat (length values) - 0 - 1) / k + 1)
        with ((Z.of_nat (length values) - 1 + 1 * k) / k)
        by (rewrite Z.div_add by lia; f_equal; f_equal; lia).
      unfold q. rewrite Nat2Z.inj_div.
      replace (Z.of_nat kn) with k by (unfold kn; lia).
      apply Z.div_le_mono; lia.
    - assert (length values = 0)%nat by lia.
      assert (q = 0)%nat by (unfold q; rewrite H; now apply Nat.Div0.div_0_l).
      lia. }
  destruct (chop_full kn Hkn m values q r Hlen Hr Hm) as (H1 & H2 & H3).
  exists (chop m kn values). repeat split; try assumption.
  unfold chunklist, Py.range3.
  destruct (Z.eqb_spec k 0) as [|_]; [lia|].
  fold m. replace k with (Z.of_nat kn) by (unfold kn; lia).
  now rewrite chunklist_loop_chop.
Qed.


Lemma chunklist_chop {A} (values : list A) (k : Z) :
  0 < k ->
  chunklist values k
  = inr (chop (Z.to_nat (Py.range_len 0 (Py.len values) k)) (Z.to_nat k) values).
Proof.
  intros Hk.
  set (m := Z.to_nat (Py.range_len 0 (Py.len values) k)).
  set (kn := Z.to_nat k).
  unfold chunklist, Py.range3.
  destruct (Z.eqb_spec k 0) as [|_]; [lia|].
  fold m. replace k with (Z.of_nat kn) by (unfold kn; lia).
  now rewrite chunklist_loop_chop.
Qed.

Lemma firstn_seq_map (b c k : nat) :
  (k <= c)%nat ->
  firstn k (map Z.of_nat (seq b c)) = map Z.of_nat (seq b k).
Proof.
  intros Hle. rewrite firstn_map. f_equal.
  replace c with (k + (c - k))%nat by lia.
  rewrite seq_app, firstn_app, length_seq, Nat.sub_diag, firstn_O, app_nil_r.
  rewrite firstn_all2; [reflexivity|]. rewrite length_seq. lia.
Qed.

Lemma skipn_seq_map (b c k : nat) :
  (k <= c)%nat ->
  skipn k (map Z.of_nat (seq b c)) = map Z.of_nat (seq (b + k) (c - k)).
Proof.
  intros Hle. rewrite skipn_map. f_equal.
  replace c with (k + (c - k))%nat at 1 by lia.
  rewrite seq_app, skipn_app, length_seq, Nat.sub_diag, skipn_O.
  rewrite skipn_all2; [reflexivity|]. rewrite length_seq. lia.
Qed.

Lemma bind_ext {S' A B} (m m' : M S' A) (k k' : A -> M S' B) s :
  m s = m' s -> (forall a s1, k a s1 = k' a s1) -> bind m k s = bind m' k' s.
Proof.
  intros Hm Hk. unfold bind. rewrite Hm.
  destruct (m' s) as [[e|a] s1]; [reflexivity|apply Hk].
Qed.

Lemma infer_step_seq (inputs : list Row) (args : Args) (b k : nat) s :
  (b + k <= length inputs)%nat ->
  infer_step (map Z.of_nat (seq b k)) (inputs, args) s
  = run_output (firstn k (skipn b inputs)) args s.
Proof.
  intros H. unfold infer_step. cbn [fst snd].
  now rewrite np_take_seq by exact H.
Qed.

Lemma infer_blocks (inputs : list Row) (args : Args) (k m : nat) :
  forall b s, (b <= length inputs)%nat ->
    for_each (fun v => infer_step v (inputs, args))
      (chop m k (map Z.of_nat (seq b (length inputs - b)))) s
    = for_each (fun rows => run_output rows args)
        (chop m k (skipn b inputs)) s.
Proof.
  induction m as [|m IH]; intros b s Hb; [reflexivity|].
  cbn [chop].
  rewrite !length_firstn, length_map, length_seq, length_skipn.
  destruct (Nat.eqb_spec (Nat.min k (length inputs - b)) k) as [Hfull|_];
    [|reflexivity].
  assert (Hle : (k <= length inputs - b)%nat) by lia.
  rewrite firstn_seq_map, skipn_seq_map by exact Hle.
  cbn [for_each].
  apply bind_ext; [apply infer_step_seq; lia|].
  intros y s1. apply bind_ext; [|reflexivity].
  replace (length inputs - b - k)%nat with (length inputs - (b + k))%nat by lia.
  rewrite skipn_skipn, (Nat.add_comm k b).
  apply IH. lia.
Qed.

(** With a batch size [k > 0], [infer] calls [run_output] on the chunks
    [chunklist] cuts from the input rows themselves, block after block in
    the order of the rows, and stacks what they return; the rows of an
    incomplete last block are not passed to the model. *)
Theorem infer_in_batches (inputs : list Row) (k : Z) (args : Args) (s : st) :
  0 < k ->
  exists blocks,
    chunklist inputs k = inr blocks
    /\ infer inputs (Some k) args s
       = (outs <- for_each (fun rows => run_output rows args) blocks ;;
          if 1 <? Py.len outs then lift (np_vstack outs)
          else lift (Py.item outs 0)) s.
Proof.
  intros Hk. eexists. split; [now apply chunklist_chop|].
  unfold infer, maybe_chunked.
  rewrite chunklist_chop by exact Hk.
  assert (Hlen : Py.len (Py.range (Py.len inputs)) = Py.len inputs).
  { unfold Py.range, Py.len. rewrite length_map, length_seq. lia. }
  rewrite Hlen.
  unfold Py.range, Py.len at 2. rewrite Nat2Z.id.
  pose proof (infer_blocks inputs args (Z.to_nat k)
                (Z.to_nat (Py.range_len 0 (Py.len inputs) k)) 0 s (Nat.le_0_l _))
    as Hblocks.
  rewrite Nat.sub_0_r in Hblocks. cbn [skipn] in Hblocks.
  unfold bind, lift, ret. rewrite Hblocks.
  destruct (for_each (fun rows => run_output rows args) _ s) as [[e|outs] s1];
    reflexivity.
Qed.

Section Counters.
(** The subclass's hooks do not touch the two counters. *)
Hypothesis update_keeps : forall b a, keeps counters (run_update_and_loss b a).
Hypothesis loss_keeps : forall b a, keeps counters (run_loss b a).
Hypothesis output_keeps : forall rows a, keeps counters (run_output rows a).
Hypothesis epoch_done_keeps : keeps counters on_epoch_done.
Hypothesis step_done_keeps : keeps counters on_train_step_done.

#[local] Hint Resolve update_keeps loss_keeps output_keeps epoch_done_keeps
  step_done_keeps : frames.

Lemma counters_train_step_losses inds ti tg vi vt args :
  keeps counters (train_step_losses inds ti tg vi vt args).
Proof. unfold train_step_losses. frame. Qed.

Lemma counters_train_step_summaries losses :
  keeps counters (train_step_summaries losses).
Proof. unfold train_step_summaries. frame. Qed.

Lemma counters_infer inputs batch_size args :
  keeps counters (infer inputs batch_size args).
Proof. unfold infer, infer_step. frame. Qed.

Lemma stepped_train_step inds ti tg vi vt args :
  respects stepped (train_step inds ti tg vi vt args).
Proof.
  unfold train_step, increment_train_step_op.
  apply respects_bind; [typeclasses eauto| |].
  - apply counters_stepped. frame.
    + apply counters_train_step_losses.
    + apply counters_train_step_summaries.
  - intros losses. frame.
    split; [reflexivity|]. now exists 1%nat.
Qed.

Lemma stepped_train_epoch ti tg vi vt batch_size args :
  respects stepped (train_epoch ti tg vi vt batch_size args).
Proof.
  unfold train_epoch, train_step_on. frame;
    try apply stepped_train_step;
    try (split; [reflexivity|]; now exists O).
Qed.

Lemma counters_train_epoch_done result :
  keeps counters (train_epoch_done result).
Proof. unfold train_epoch_done, get_global_step. frame. Qed.

Lemma wrap32_small (z : Z) : - 2 ^ 31 <= z <= INT32_MAX -> wrap32 z = z.
Proof.
  intros H. unfold wrap32, wrap, INT32_MAX in *.
  rewrite Z.mod_small; lia.
Qed.

(** C6, as the code has it.  With hooks that leave the counters alone:
    a completed [train_step] adds one to the mini-batch counter and leaves
    the epoch counter; a completed [train] adds one to the epoch counter,
    however many mini-batches it ran (each of them added one to the
    mini-batch counter); both additions are 32-bit, so they are exact
    below [2^31 - 1].  [infer], [save], [add_summary], [update_summary] and
    [write_summary] leave both counters as they were.  [restore] is
    different: it sets both counters to the values stored in the
    checkpoint. *)
Theorem counters_advance :
  (forall inds ti tg vi vt args s r s',
      train_step inds ti tg vi vt args s = (inr r, s') ->
      global_step (sess s') = global_step (sess s)
      /\ batch_step (sess s') = wrap32 (batch_step (sess s) + 1)
      /\ (0 <= batch_step (sess s) < INT32_MAX ->
          batch_step (sess s') = batch_step (sess s) + 1))
  /\ (forall ti tg vi vt batch_size args s r s',
      train ti tg vi vt batch_size args s = (inr r, s') ->
      global_step (sess s') = wrap32 (global_step (sess s) + 1)
      /\ (0 <= global_step (sess s) < INT32_MAX ->
          global_step (sess s') = global_step (sess s) + 1)
      /\ exists n, batch_step (sess s') = Nat.iter n inc32 (batch_step (sess s)))
  /\ (forall inputs batch_size args, keeps counters (infer inputs batch_size args))
  /\ keeps counters save
  /\ (forall tag key mode, keeps counters (add_summary tag key mode))
  /\ (forall key val, keeps counters (update_summary key val))
  /\ (forall which, keeps counters (write_summary which))
  /\ (forall path s s',
      restore path s = (inr tt, s') ->
      Dict.get path (saved (ckpt s)) = Some (sess s')).
Proof.
  split; [|split; [|split; [|split; [|split; [|split; [|split]]]]]];
    auto using counters_infer with frames.
  - intros inds ti tg vi vt args s r s' H.
    unfold train_step in H.
    apply bind_returns in H as (losses & s1 & Hbody & H).
    assert (Hk : same counters s s1).
    { assert (Hb : keeps counters
                     (losses <- train_step_losses inds ti tg vi vt args ;;
                      on_train_step_done ;;
                      train_step_summaries losses ;; ret losses)).
      { frame.
        - apply counters_train_step_losses.
        - apply counters_train_step_summaries. }
      specialize (Hb s). now rewrite Hbody in Hb. }
    unfold same, counters in Hk. injection Hk as Hg Hb.
    unfold increment_train_step_op, bind, modify, gets, ret in H.
    injection H as _ <-. cbn.
    rewrite Hg, Hb. repeat split.
    intros Hrange. apply wrap32_small. unfold INT32_MAX in *. lia.
  - intros ti tg vi vt batch_size args s r s' H.
    unfold train in H.
    apply bind_returns in H as (losses & s1 & Hbody & H).
    assert (Hk : stepped s s1).
    { assert (Hb : respects stepped
                     (result <- train_epoch ti tg vi vt batch_size args ;;
                      train_epoch_done result)).
      { apply respects_bind;
          [typeclasses eauto|apply stepped_train_epoch|].
        intros result. apply counters_stepped, counters_train_epoch_done. }
      specialize (Hb s). now rewrite Hbody in Hb. }
    destruct Hk as [Hg [n Hb]].
    unfold increment_global_step_op, get_global_step, bind, modify, gets, ret in H.
    injection H as _ <-. cbn.
    rewrite Hg. repeat split.
    + intros Hrange. apply wrap32_small. unfold INT32_MAX in *. lia.
    + exists n. exact Hb.
  - intros path s s'. apply restore_returns.
Qed.

(** *** Calls that fail, and how many mini-batches an epoch counts *)

Lemma bind_raises {S' A B} (m : M S' A) (k : A -> M S' B) s e s' :
  bind m k s = (inl e, s') ->
  m s = (inl e, s')
  \/ exists a s1, m s = (inr a, s1) /\ k a s1 = (inl e, s').
Proof.
  unfold bind. destruct (m s) as [[e1|a] s1]; intros H;
    [injection H as -> ->; now left|].
  right. eauto.
Qed.

Lemma counters_train_step_body inds ti tg vi vt args :
  keeps counters
    (losses <- train_step_losses inds ti tg vi vt args ;;
     on_train_step_done ;;
     train_step_summaries losses ;; ret losses).
Proof.
  frame.
  - apply counters_train_step_losses.
  - apply counters_train_step_summaries.
Qed.

Lemma train_step_counts inds ti tg vi vt args s r s' :
  train_step inds ti tg vi vt args s = (inr r, s') ->
  global_step (sess s') = global_step (sess s)
  /\ batch_step (sess s') = inc32 (batch_step (sess s)).
Proof.
  intros H. unfold train_step in H.
  apply bind_returns in H as (losses & s1 & Hbody & H).
  pose proof (counters_train_step_body inds ti tg vi vt args s) as Hk.
  rewrite Hbody in Hk. unfold same, counters in Hk. injection Hk as Hg Hb.
  unfold increment_train_step_op, bind, modify, gets, ret in H.
  injection H as _ <-. cbn. rewrite Hg, Hb. now split.
Qed.

Lemma for_each_counts {X B} (f : X -> M st B) (l : list X) :
  (forall x s r s', f x s = (inr r, s') ->
                    batch_step (sess s') = inc32 (batch_step (sess s))) ->
  forall s rs s',
    for_each f l s = (inr rs, s') ->
    batch_step (sess s') = Nat.iter (length l) inc32 (batch_step (sess s)).
Proof.
  intros Hf. induction l as [|x l IH]; intros s rs s' H.
  - injection H as _ <-. reflexivity.
  - cbn [for_each] in H.
    apply bind_returns in H as (y & s1 & Hx & H).
    apply bind_returns in H as (ys & s2 & Hl & H).
    injection H as _ <-.
    rewrite (IH _ _ _ Hl), (Hf _ _ _ _ Hx).
    cbn [length]. now rewrite Nat.iter_succ_r.
Qed.

(** A call that raises is not counted.  A [train_step] that fails leaves
    both counters as they were, and a [train] that fails leaves the epoch
    counter: each increment is the last statement of its method. *)
Theorem failed_calls_do_not_count :
  (forall inds ti tg vi vt args s e s',
      train_step inds ti tg vi vt args s = (inl e, s') ->
      counters s' = counters s)
  /\ (forall ti tg vi vt batch_size args s e s',
      train ti tg vi vt batch_size args s = (inl e, s') ->
      global_step (sess s') = global_step (sess s)).
Proof.
  split.
  - intros inds ti tg vi vt args s e s' H.
    unfold train_step in H.
    apply bind_raises in H as [H|(losses & s1 & _ & H)].
    + pose proof (counters_train_step_body inds ti tg vi vt args s) as Hk.
      rewrite H in Hk. exact Hk.
    + unfold increment_train_step_op, bind, modify, gets, ret in H.
      discriminate.
  - intros ti tg vi vt batch_size args s e s' H.
    unfold train in H.
    apply bind_raises in H as [H|(losses & s1 & _ & H)].
    + assert (Hb : respects stepped
                     (result <- train_epoch ti tg vi vt batch_size args ;;
                      train_epoch_done result)).
      { apply respects_bind;
          [typeclasses eauto|apply stepped_train_epoch|].
        intros result. apply counters_stepped, counters_train_epoch_done. }
      specialize (Hb s). rewrite H in Hb. exact (proj1 Hb).
    + unfold increment_global_step_op, get_global_step, bind, modify, gets, ret in H.
      discriminate.
Qed.

Lemma maybe_chunked_counts {X} (mk : list X -> batch_inds) (values : list X)
    (k : Z) (bundle : train_args) s res s' :
  0 < k ->
  maybe_chunked iter_pair values (Some k) (Single (train_step_on mk))
    (train_step_on mk) bundle s = (inr res, s') ->
  batch_step (sess s')
  = Nat.iter (length values / Z.to_nat k) inc32 (batch_step (sess s)).
Proof.
  intros Hk H. unfold maybe_chunked in H.
  destruct (chunklist_runs values k Hk) as (chunks & Hrun & Hlen & _).
  rewrite Hrun in H.
  rewrite (run_bind _ _ s chunks s) in H by reflexivity.
  apply bind_returns in H as (rs & s1 & Hfor & H).
  injection H as _ <-.
  rewrite <- Hlen.
  refine (for_each_counts _ chunks _ _ _ _ Hfor).
  intros v t r t' Hstep. unfold train_step_on in Hstep.
  destruct bundle as [[[[ti tg] vi] vt] args].
  now apply train_step_counts in Hstep.
Qed.

(** An epoch over arrays counts its mini-batches exactly: a completed
    [train] on [n] samples with batch size [k > 0] has advanced the
    mini-batch counter [n / k] times (rounded down), with or without
    validation arrays; the samples of an incomplete last batch are not
    trained on. *)
Theorem epoch_batch_count (inputs targets : list Row)
    (vi vt : option (list Row)) (k : Z) (args : Args) (s s' : st)
    (ds : dataset_state Row) (r : V * V) :
  (forall seed n, length (np_random_permutation seed n) = Z.to_nat n) ->
  (forall seed high n, length (np_random_randint seed high n) = Z.to_nat n) ->
  data s = Some ds ->
  trainset ds = None ->
  0 < k ->
  train (Some inputs) (Some targets) vi vt (Some k) args s = (inr r, s') ->
  batch_step (sess s')
  = Nat.iter (length inputs / Z.to_nat k) inc32 (batch_step (sess s)).
Proof.
  intros Hperm Hrand Hdata Hts Hk H.
  unfold train in H.
  apply bind_returns in H as (losses & s1 & H & Hinc).
  unfold increment_global_step_op, get_global_step, bind, modify, gets, ret in Hinc.
  injection Hinc as _ <-. cbn [sess set_sess batch_step].
  apply bind_returns in H as (result & s2 & Hepoch & Hdone).
  pose proof (counters_train_epoch_done result s2) as Hkeep.
  rewrite Hdone in Hkeep. unfold same, counters in Hkeep.
  injection Hkeep as _ ->.
  unfold train_epoch in Hepoch.
  rewrite (run_bind _ _ s ds s) in Hepoch by (unfold attr; now rewrite Hdata).
  rewrite Hts in Hepoch.
  apply bind_returns in Hepoch as (seed & s3 & Hseed & Hepoch).
  unfold gets in Hseed. injection Hseed as <- <-.
  apply bind_returns in Hepoch as ([] & s4 & Hmod & Hepoch).
  unfold modify in Hmod. injection Hmod as <-.
  destruct vi as [vinputs|].
  - apply bind_returns in Hepoch as (seed' & s5 & Hseed & Hepoch).
    unfold gets in Hseed. injection Hseed as <- <-.
    apply bind_returns in Hepoch as ([] & s6 & Hmod & Hepoch).
    unfold modify in Hmod. injection Hmod as <-.
    apply bind_returns in Hepoch as ([] & s7 & Hcheck & Hepoch).
    assert (s7 = set_entropy (S (entropy (set_entropy (S (entropy s)) s)))
                   (set_entropy (S (entropy s)) s)) as ->.
    { destruct (Py.len vinputs <=? 0); [discriminate|].
      now injection Hcheck as <-. }
    apply bind_returns in Hepoch as (res & s8 & Hchunked & Hred).
    assert (s2 = s8) as ->.
    { unfold lift in Hred. destruct (reduce_chunked res); [discriminate|].
      now injection Hred as _ <-. }
    rewrite (maybe_chunked_counts _ _ _ _ _ _ _ Hk Hchunked).
    rewrite length_combine, Hperm, Hrand, Nat.min_id.
    unfold Py.len. now rewrite Nat2Z.id.
  - apply bind_returns in Hepoch as (res & s8 & Hchunked & Hred).
    assert (s2 = s8) as ->.
    { unfold lift in Hred. destruct (reduce_chunked res); [discriminate|].
      now injection Hred as _ <-. }
    rewrite (maybe_chunked_counts _ _ _ _ _ _ _ Hk Hchunked).
    rewrite Hperm. unfold Py.len. now rewrite Nat2Z.id.
Qed.

End Counters.

End TFModel.

(** ** A small concrete model

    Integers stand in for the floating-point scalars and for rows; the
    subclass computes a constant loss and returns its input rows; paths are
    already normalised; the random permutation is the identity. *)

Definition demo_model : Type := model Z Z unit.

Definition demo_loss (batch : option (list Z * list Z)) (args : unit)
  : M demo_model Z := ret 0.
Definition demo_output (rows : list Z) (args : unit) : M demo_model (list Z) :=
  ret rows.
Definition demo_hook : M demo_model unit := ret tt.
Definition demo_mean (l : list (Z * Z)) : Z * Z :=
  match l with
  | [] => (0, 0)
  | p :: _ => p
  end.
Definition demo_vstack (l : list (list Z)) : exn + list Z := inr (concat l).
Definition demo_permutation (seed : nat) (n : Z) : list Z := Py.range n.
Definition demo_randint (seed : nat) (high size : Z) : list Z :=
  map (fun _ => 0) (Py.range size).
Definition demo_format (step loss vloss : Z) : string := str_of_int step.
Definition demo_path (p : string) : string := p.

Definition demo_init (cfg : TFModelConfig.t) : M demo_model unit :=
  _init_from_config 0 tt demo_path demo_path (ret None) (ret tt) cfg.

Abbreviation demo_train inputs batch_size :=
  (train 0 demo_loss demo_loss demo_hook demo_hook demo_mean demo_permutation
     demo_randint demo_format (Some inputs) (Some inputs) None None
     batch_size tt).

Definition demo_infer (inputs : list Z) (batch_size : option Z)
  : M demo_model (list Z) :=
  infer demo_output demo_vstack inputs batch_size tt.

Definition empty_world : world :=
  {| files := []; unwritable := []; dirs := []; stdout := [];
     version_info := (3, 6); modules := [] |}.

(** A model built from the default configuration: no summaries, no
    checkpoints. *)
Definition demo_default : demo_model :=
  snd (demo_init TFModelConfig.defaults (blank tt empty_world)).

Example demo_default_built :
  fst (demo_init TFModelConfig.defaults (blank tt empty_world)) = inr tt
  /\ summary_fwriter (summ demo_default) = Some None
  /\ checkpoint_dir (ckpt demo_default) = Some None
  /\ counters demo_default = (0, 0).
Proof. repeat split. Qed.

Lemma add_summary_invalid_mode_raises_witness :
  add_summary 0 "loss" None "batch" demo_default
  = (inl (NameError "which"), demo_default).
Proof.
  apply (add_summary_invalid_mode_raises 0 "loss" None "batch" demo_default
           {| lg_name := PStr "tfmodel"; lg_level := 10; lg_file := None;
              lg_records := [] |}).
  - reflexivity.
  - reflexivity.
Defined.

(** The sibling [write_summary] does log and return on the same mode. *)
Example write_summary_invalid_mode_demo :
  exists s', write_summary "batch" demo_default = (inr tt, s')
             /\ option_map lg_records (logger s')
                = Some [(Level.WARNING, "Invalid summary mode batch, ignoring.")].
Proof. eexists. split; reflexivity. Qed.

Lemma update_summary_without_writer_witness :
  update_summary "no_such_summary" 5 demo_default = (inr tt, demo_default).
Proof.
  apply (update_summary_without_writer "no_such_summary" 5 demo_default).
  reflexivity.
Defined.

Lemma infer_short_input_raises_witness :
  maybe_chunked iter_out (Py.range (Py.len [10; 20; 30])) (Some 5)
    (Single (infer_step demo_output)) (infer_step demo_output)
    ([10; 20; 30], tt) demo_default
  = (inr (PerChunk [], true), demo_default)
  /\ demo_infer [10; 20; 30] (Some 5)  demo_default
     = (inl (IndexError "list index out of range"), demo_default).
Proof.
  apply (infer_short_input_raises demo_output demo_vstack [10; 20; 30] 5 tt
           demo_default).
  split; reflexivity.
Defined.

(** Inference in full batches does return. *)
Example demo_infer_full_batches :
  fst (demo_infer [10; 20; 30; 40] (Some 2) demo_default) = inr [10; 20; 30; 40].
Proof. reflexivity. Qed.

(** *** Run indices, concretely *)

(** Both roots exist and are empty. *)
Definition empty_roots_world : world :=
  {| files := []; unwritable := [];
     dirs := [("summaries", []); ("checkpoints", [])];
     stdout := []; version_info := (3, 6); modules := [] |}.

Definition roots_config : TFModelConfig.t :=
  TFModelConfig.new (fun d => d)
    [("summaries_root", PStr "summaries"); ("checkpoints_root", PStr "checkpoints")].

(** C2, as stated, fails: the first model built on empty roots gets the run
    index 1, not 0, for its summaries and for its checkpoints. *)
Lemma first_run_on_empty_root_is_1 :
  let built := demo_init roots_config (blank tt empty_roots_world) in
  Dict.get "summaries" (dirs empty_roots_world) = Some []
  /\ Dict.get "checkpoints" (dirs empty_roots_world) = Some []
  /\ fst built = inr tt
  /\ summaries_ind (summ (snd built)) = Some 1
  /\ checkpoint_dir (ckpt (snd built)) = Some (Some "checkpoints/1")
  /\ summaries_ind (summ (snd built)) <> Some 0.
Proof.
  cbv zeta. repeat split. vm_compute. discriminate.
Qed.

(** The checkpoint root is not looked at: with runs 0 and 3 in it and a
    fresh summaries root, the checkpoint directory is [checkpoints/0]. *)
Example checkpoint_index_follows_summaries :
  let w := {| files := []; unwritable := [];
              dirs := [("checkpoints", ["0"; "3"]); ("checkpoints/0", []);
                       ("checkpoints/3", [])];
              stdout := []; version_info := (3, 6); modules := [] |} in
  let built := demo_init roots_config (blank tt w) in
  fst built = inr tt
  /\ checkpoint_dir (ckpt (snd built)) = Some (Some "checkpoints/0").
Proof. split; reflexivity. Qed.

(** Runs 0 and 5 exist: the next run is 6. *)
Definition gap_state : demo_model :=
  set_config roots_config
    (blank tt {| files := []; unwritable := [];
                 dirs := [("summaries", ["0"; "5"]); ("summaries/0", []);
                          ("summaries/5", [])];
                 stdout := []; version_info := (3, 6); modules := [] |}).

(** Nothing exists yet. *)
Definition fresh_state : demo_model :=
  set_config roots_config (blank tt empty_world).

(** The summaries root is a regular file. *)
Definition file_root_state : demo_model :=
  set_config roots_config
    (blank tt {| files := [("summaries", NotJson)]; unwritable := [];
                 dirs := [];
                 stdout := []; version_info := (3, 6); modules := [] |}).

Lemma run_index_allocation_witness :
  allocates 0 demo_path demo_path fresh_state 0
  /\ allocates 0 demo_path demo_path gap_state 6
  /\ init_summaries 0 demo_path file_root_state
     = (inl (IOError "summaries"), file_root_state).
Proof.
  split; [|split].
  - apply (proj1 (run_index_allocation 0 demo_path demo_path fresh_state
                    "summaries" "tfmodel" eq_refl eq_refl)); reflexivity.
  - apply (proj1 (proj2 (run_index_allocation 0 demo_path demo_path gap_state
                           "summaries" "tfmodel" eq_refl eq_refl))
             ["0"; "5"] [0; 5]).
    + reflexivity.
    + reflexivity.
    + repeat constructor; unfold INT64_MAX; lia.
    + reflexivity.
  - apply (proj2 (proj2 (run_index_allocation 0 demo_path demo_path
                           file_root_state "summaries" "tfmodel"
                           eq_refl eq_refl))); reflexivity.
Defined.

(** The directories above a path. *)
Example ancestors_demo :
  ancestors "runs/summaries/3" = ["runs"; "runs/summaries"]
  /\ ancestors "/tmp/runs" = ["/tmp"]
  /\ ancestors "summaries" = [].
Proof. repeat split. Qed.

(** With a regular file at the summaries root the constructor fails;
    nothing is made and no run index is assigned. *)
Example summaries_root_is_a_file :
  let built := demo_init roots_config (blank tt (outside file_root_state)) in
  fst built = inl (IOError "summaries")
  /\ summaries_ind (summ (snd built)) = None
  /\ dirs (outside (snd built)) = [].
Proof. cbv zeta. repeat split. Qed.

(** *** Counters, concretely *)

Definition saving_config : TFModelConfig.t :=
  TFModelConfig.new (fun d => d)
    [("summaries_root", PStr "runs"); ("checkpoints_root", PStr "ckpt");
     ("saver_interval", PInt 1)].

Definition saving_model : demo_model :=
  snd (demo_init saving_config (blank tt empty_world)).

Definition after_two_epochs : demo_model :=
  snd (demo_train [10; 20; 30; 40] (Some 2)
         (snd (demo_train [10; 20; 30; 40] (Some 2) saving_model))).

(** C6, as stated, fails: after two epochs of two mini-batches the
    counters are 2 and 4; restoring the checkpoint written in the first
    epoch returns normally and sets them back to 0 and 2. *)
Lemma restore_sets_counters_back :
  counters saving_model = (0, 0)
  /\ counters after_two_epochs = (2, 4)
  /\ fst (restore "ckpt/0/-0" after_two_epochs) = inr tt
  /\ counters (snd (restore "ckpt/0/-0" after_two_epochs)) = (0, 2)
  /\ global_step (sess (snd (restore "ckpt/0/-0" after_two_epochs)))
     < global_step (sess after_two_epochs)
  /\ batch_step (sess (snd (restore "ckpt/0/-0" after_two_epochs)))
     < batch_step (sess after_two_epochs).
Proof. repeat split. Qed.

Lemma demo_hooks_keep_counters :
  (forall b a, keeps counters (demo_loss b a))
  /\ (forall rows a, keeps counters (demo_output rows a))
  /\ keeps counters demo_hook.
Proof. repeat split. Qed.

Lemma counters_advance_witness :
  exists r s',
    demo_train [10; 20; 30; 40] (Some 2) saving_model = (inr r, s')
    /\ global_step (sess s') = global_step (sess saving_model) + 1
    /\ exists n, batch_step (sess s')
                 = Nat.iter n inc32 (batch_step (sess saving_model)).
Proof.
  destruct demo_hooks_keep_counters as (Hloss & Hout & Hhook).
  pose proof (counters_advance (Args := unit) (Out := list Z) 0 0
                demo_loss demo_loss demo_output demo_hook demo_hook
                demo_mean demo_vstack demo_permutation demo_randint
                demo_format Hloss Hloss Hout Hhook Hhook)
    as (_ & Htrain & _).
  assert (Hrun : demo_train [10; 20; 30; 40] (Some 2) saving_model
                 = (inr (0, 0),
                    snd (demo_train [10; 20; 30; 40] (Some 2) saving_model)))
    by (vm_compute; reflexivity).
  exists (0, 0), (snd (demo_train [10; 20; 30; 40] (Some 2) saving_model)).
  split; [exact Hrun|].
  destruct (Htrain _ _ _ _ _ _ _ _ _ Hrun) as (_ & Hexact & Hsteps).
  split; [|exact Hsteps].
  apply Hexact. vm_compute. split; [discriminate|reflexivity].
Defined.

(** ** The loss of the VAE ([vae.py])

    The graph computes in 32-bit floating point.  A number is a
    [spec_float] of the binary32 format: 24 bits of precision, exponents
    below 128, every operation rounded to nearest, ties to even.
    TensorFlow runs its kernels with denormal numbers flushed to zero, on
    the operands and on the result of an operation.  A tensor of shape
    [batch, latent] is a list of rows. *)

Module F32.

Definition prec : Z := 24.
Definition emax : Z := 128.

(** A denormal number is read, and written, as the zero of its sign. *)
Definition flush (x : spec_float) : spec_float :=
  match x with
  | S754_finite s m e =>
      if Z.pos (digits2_pos m) <? prec then S754_zero s else x
  | _ => x
  end.

Definition kernel (op : Z -> Z -> spec_float -> spec_float -> spec_float)
    (x y : spec_float) : spec_float :=
  flush (op prec emax (flush x) (flush y)).

Definition add : spec_float -> spec_float -> spec_float := kernel SFadd.
Definition sub : spec_float -> spec_float -> spec_float := kernel SFsub.
Definition mul : spec_float -> spec_float -> spec_float := kernel SFmul.
Definition div : spec_float -> spec_float -> spec_float := kernel SFdiv.

(** An integer, and a Python float (a binary64 number), as float32. *)
Definition of_Z (z : Z) : spec_float := binary_normalize prec emax z 0 false.
Definition of_float (x : spec_float) : spec_float :=
  match x with
  | S754_finite s m e => binary_round prec emax s m e
  | _ => x
  end.

(** The Python float that the literal of value [num / den] denotes. *)
Definition literal (num den : positive) : spec_float :=
  SFdiv 53 1024 (S754_finite false num 0) (S754_finite false den 0).

Definition zero : spec_float := S754_zero false.
Definition pos_inf : spec_float := S754_infinity false.
Definition neg_inf : spec_float := S754_infinity true.

Definition is_nan (x : spec_float) : bool :=
  match x with S754_nan => true | _ => false end.

(** Zero, finite or infinite, and not negative. *)
Definition unsigned (x : spec_float) : bool :=
  match x with
  | S754_zero false | S754_finite false _ _ | S754_infinity false => true
  | _ => false
  end.

(** Positive, finite or infinite. *)
Definition positive_number (x : spec_float) : bool :=
  match x with
  | S754_finite false _ _ | S754_infinity false => true
  | _ => false
  end.

End F32.

Lemma flush_flush (x : spec_float) : F32.flush (F32.flush x) = F32.flush x.
Proof.
  destruct x as [s|s| |s m e]; try reflexivity.
  simpl. destruct (Z.pos (digits2_pos m) <? F32.prec) eqn:E; simpl;
    [reflexivity|now rewrite E].
Qed.

Lemma flush_opp (x : spec_float) : F32.flush (SFopp x) = SFopp (F32.flush x).
Proof.
  destruct x as [s|s| |s m e]; try reflexivity.
  simpl. now destruct (Z.pos (digits2_pos m) <? F32.prec).
Qed.

Lemma flush_unsigned (x : spec_float) :
  F32.unsigned x = true -> F32.unsigned (F32.flush x) = true.
Proof.
  destruct x as [s|s| |s m e]; try (intros H; exact H).
  simpl. now destruct (Z.pos (digits2_pos m) <? F32.prec).
Qed.

Lemma shr_1_nonneg (mrs : shr_record) : 0 <= shr_m mrs -> 0 <= shr_m (shr_1 mrs).
Proof.
  destruct mrs as [m r s]. simpl.
  destruct m as [|[p|p|]|[p|p|]]; simpl; lia.
Qed.

Lemma iter_shr_1_nonneg (n : positive) (mrs : shr_record) :
  0 <= shr_m mrs -> 0 <= shr_m (iter_pos shr_1 n mrs).
Proof.
  revert mrs. induction n as [n IH|n IH|]; intros mrs H; simpl.
  - apply IH, IH, shr_1_nonneg, H.
  - apply IH, IH, H.
  - apply shr_1_nonneg, H.
Qed.

Lemma shr_fexp_nonneg prec emax (m e : Z) (l : location) :
  0 <= m -> 0 <= shr_m (fst (shr_fexp prec emax m e l)).
Proof.
  intros H. unfold shr_fexp, shr.
  assert (H0 : 0 <= shr_m (shr_record_of_loc m l))
    by (destruct l as [|[]]; exact H).
  destruct (fexp prec emax (Zdigits2 m + e) - e); simpl;
    [exact H0|now apply iter_shr_1_nonneg|exact H0].
Qed.

Lemma round_nearest_even_nonneg (m : Z) (l : location) :
  0 <= m -> 0 <= round_nearest_even m l.
Proof.
  intros H. destruct l as [|[]]; simpl; try lia.
  destruct (Z.even m); lia.
Qed.

Lemma binary_round_aux_unsigned prec emax (m e : Z) (l : location) :
  0 <= m -> F32.unsigned (binary_round_aux prec emax false m e l) = true.
Proof.
  intros H. unfold binary_round_aux.
  pose proof (shr_fexp_nonneg prec emax m e l H) as H1.
  destruct (shr_fexp prec emax m e l) as [mrs' e']. cbn [fst] in H1.
  pose proof (shr_fexp_nonneg prec emax _ e' loc_Exact
                (round_nearest_even_nonneg _ (loc_of_shr_record mrs') H1)) as H2.
  destruct (shr_fexp prec emax _ e' loc_Exact) as [mrs'' e'']. cbn [fst] in H2.
  destruct (shr_m mrs'') as [|p|p]; [reflexivity| |lia].
  now destruct (e'' <=? emax - prec).
Qed.

(** A square is never negative, and is a number when its argument is. *)
Lemma square_unsigned (x : spec_float) :
  F32.is_nan x = false -> F32.unsigned (F32.mul x x) = true.
Proof.
  intros Hx. unfold F32.mul, F32.kernel. apply flush_unsigned.
  destruct x as [s|s| |s m e]; try discriminate Hx.
  - now destruct s.
  - now destruct s.
  - simpl. destruct (Z.pos (digits2_pos m) <? F32.prec).
    + now destruct s.
    + cbn [SFmul]. replace (xorb s s) with false by now destruct s.
      apply binary_round_aux_unsigned. lia.
Qed.

Lemma square_opp (x : spec_float) : F32.mul (SFopp x) (SFopp x) = F32.mul x x.
Proof.
  unfold F32.mul, F32.kernel. rewrite flush_opp. f_equal.
  destruct (F32.flush x) as [s|s| |s m e]; try reflexivity;
    now destruct s.
Qed.

Lemma add_pos_inf (x : spec_float) :
  F32.unsigned x = true -> F32.add F32.pos_inf x = F32.pos_inf.
Proof.
  intros H. unfold F32.add, F32.kernel.
  pose proof (flush_unsigned x H) as Hf.
  destruct (F32.flush x) as [s|s| |s m e]; try discriminate Hf;
    destruct s; try discriminate Hf; reflexivity.
Qed.

Lemma mul_flushed (x y : spec_float) : F32.flush (F32.mul x y) = F32.mul x y.
Proof. apply flush_flush. Qed.

Lemma mul_pos_inf (x : spec_float) :
  F32.positive_number (F32.flush x) = true -> F32.mul x F32.pos_inf = F32.pos_inf.
Proof.
  intros H. unfold F32.mul, F32.kernel.
  destruct (F32.flush x) as [s|s| |s m e]; try discriminate H;
    destruct s; try discriminate H; reflexivity.
Qed.

Section VAELoss.

(** The logarithm of a positive normal number is what the kernel computes;
    its values are left open, and nothing below depends on them. *)
Variable log_normal : positive -> Z -> spec_float.

(** [tf.log]: minus infinity at either zero, not a number below zero. *)
Definition tf_log (x : spec_float) : spec_float :=
  match F32.flush x with
  | S754_zero _ => F32.neg_inf
  | S754_infinity false => F32.pos_inf
  | S754_finite false m e => log_normal m e
  | _ => S754_nan
  end.

Definition tensor : Type := list (list spec_float).

(** An elementwise unary operation, and an elementwise binary operation on
    two tensors of one shape. *)
Definition tmap (f : spec_float -> spec_float) (t : tensor) : tensor :=
  map (map f) t.
Definition tzip (f : spec_float -> spec_float -> spec_float) (a b : tensor)
  : tensor :=
  map (fun rows => map (fun p => f (fst p) (snd p))
                       (combine (fst rows) (snd rows)))
      (combine a b).

Definition tf_square : tensor -> tensor := tmap (fun x => F32.mul x x).
(** [tf.reduce_sum(_, axis=-1)]; the order in which a kernel adds up a row
    is its own, and nothing below depends on it. *)
Definition reduce_sum_last (t : tensor) : list spec_float :=
  map (fold_right F32.add F32.zero) t.
(** [tf.reduce_mean(_, axis=0)] of a vector *)
Definition reduce_mean (v : list spec_float) : spec_float :=
  F32.div (fold_right F32.add F32.zero v) (F32.of_Z (Z.of_nat (length v))).

(** The Python constants of the two functions, as the float32 tensors that
    the graph holds: [1e-45], [- 1.0] and [0.5]. *)
Definition log_guard : spec_float :=
  Eval vm_compute in F32.of_float (F32.literal 1 (10 ^ 45)).
Definition minus_one : spec_float :=
  Eval vm_compute in F32.of_float (SFopp (F32.literal 1 1)).
Definition half : spec_float :=
  Eval vm_compute in F32.of_float (F32.literal 5 10).

(** [build_vae_graph], lines 100-101 *)
Definition latent_sigma_sq (latent_sigma : tensor) : tensor :=
  tf_square latent_sigma.
Definition latent_log_sigma_sq (latent_sigma : tensor) : tensor :=
  tmap (fun x => tf_log (F32.add x log_guard)) (latent_sigma_sq latent_sigma).

(** [VAE.build_graph], lines 187-191 *)
Definition variational_losses (beta : spec_float)
    (latent_mean latent_sigma : tensor) : list spec_float :=
  map (fun total => F32.mul (F32.mul half beta) total)
      (reduce_sum_last
         (tzip F32.add
            (tzip F32.add
               (tmap (fun l => F32.sub minus_one l)
                     (latent_log_sigma_sq latent_sigma))
               (tf_square latent_mean))
            (latent_sigma_sq latent_sigma))).

(** [VAE.build_graph], line 194 *)
Definition loss (reconstruction_losses : list spec_float) (beta : spec_float)
    (latent_mean latent_sigma : tensor) : spec_float :=
  reduce_mean
    (map (fun p => F32.add (fst p) (snd p))
         (combine reconstruction_losses
                  (variational_losses beta latent_mean latent_sigma))).

(** [tf.squared_difference] on two tensors of one shape, and
    [sum_of_squared_differences], the [reconstruction_loss] that
    [VAEConfig.init] sets *)
Definition squared_difference (a b : tensor) : tensor :=
  tzip (fun x y => F32.mul (F32.sub x y) (F32.sub x y)) a b.
Definition sum_of_squared_differences (a b : tensor) : list spec_float :=
  reduce_sum_last (squared_difference a b).

(** The per-element term of the spec's formula, and the per-sample KL
    term built from it. *)
Definition kl_element (sigma mean : spec_float) : spec_float :=
  F32.add
    (F32.add
       (F32.sub minus_one (tf_log (F32.add (F32.mul sigma sigma) log_guard)))
       (F32.mul mean mean))
    (F32.mul sigma sigma).
Definition kl_sample (beta : spec_float) (sigma_row mean_row : list spec_float)
  : spec_float :=
  F32.mul (F32.mul half beta)
    (fold_right F32.add F32.zero
       (map (fun p => kl_element (fst p) (snd p)) (combine sigma_row mean_row))).

(** What the spec expects of a sample where the scale is 0:
    [0.5 * beta * sum(mean^2)]. *)
Definition mean_square_term (beta : spec_float) (mean_row : list spec_float)
  : spec_float :=
  F32.mul (F32.mul half beta)
    (fold_right F32.add F32.zero (map (fun m => F32.mul m m) mean_row)).

Lemma combine_map_map {A B C D} (f : A -> C) (g : B -> D) a b :
  combine (map f a) (map g b)
  = map (fun p => (f (fst p), g (snd p))) (combine a b).
Proof.
  revert b; induction a as [|x a IH]; intros [|y b]; simpl; try reflexivity.
  now rewrite IH.
Qed.

Lemma combine_zipped_left {A B C D} (f : A * B -> C) (g : A -> D) a b :
  combine (map f (combine a b)) (map g a)
  = map (fun p => (f p, g (fst p))) (combine a b).
Proof.
  revert b; induction a as [|x a IH]; intros [|y b]; simpl; try reflexivity.
  now rewrite IH.
Qed.

Lemma tmap_tmap f g t : tmap f (tmap g t) = tmap (fun x => f (g x)) t.
Proof.
  unfold tmap. rewrite map_map. apply map_ext. intros row. apply map_map.
Qed.

Lemma tzip_tmap f g h a b :
  tzip f (tmap g a) (tmap h b) = tzip (fun x y => f (g x) (h y)) a b.
Proof.
  unfold tzip, tmap. rewrite combine_map_map, map_map.
  apply map_ext. intros [ra rb]. simpl.
  now rewrite combine_map_map, map_map.
Qed.

Lemma tzip_tzip_left f g h a b :
  tzip f (tzip g a b) (tmap h a) = tzip (fun x y => f (g x y) (h x)) a b.
Proof.
  unfold tzip, tmap. rewrite combine_zipped_left, map_map.
  apply map_ext. intros [ra rb]. simpl.
  now rewrite combine_zipped_left, map_map.
Qed.

Lemma combine_map_self {A B} (g : A -> B) (a : list A) :
  combine (map g a) a = map (fun x => (g x, x)) a.
Proof. induction a as [|x a IH]; simpl; [reflexivity|now rewrite IH]. Qed.

(** The graph's tensor pipeline computes the spec's per-sample formula. *)
Lemma variational_losses_formula beta latent_mean latent_sigma :
  variational_losses beta latent_mean latent_sigma
  = map (fun rows => kl_sample beta (fst rows) (snd rows))
        (combine latent_sigma latent_mean).
Proof.
  unfold variational_losses, latent_log_sigma_sq, latent_sigma_sq, tf_square,
    reduce_sum_last.
  rewrite !tmap_tmap, tzip_tmap, tzip_tzip_left.
  unfold tzip. rewrite !map_map. apply map_ext. intros [srow mrow].
  unfold kl_sample, kl_element. cbn [fst snd]. reflexivity.
Qed.

(** The constant [1e-45] is, as a float32, the smallest denormal number
    [2^-149]: a kernel reads it as zero. *)
Lemma log_guard_denormal :
  log_guard = F32.of_float (F32.literal 1 (10 ^ 45))
  /\ log_guard = S754_finite false 1 (-149)
  /\ F32.flush log_guard = F32.zero.
Proof. repeat split. Qed.

Lemma guarded_zero_is_zero : F32.add (F32.mul F32.zero F32.zero) log_guard = F32.zero.
Proof. vm_compute. reflexivity. Qed.

Lemma minus_one_minus_neg_inf : F32.sub minus_one F32.neg_inf = F32.pos_inf.
Proof. vm_compute. reflexivity. Qed.

Lemma kl_element_at_zero_scale (m : spec_float) :
  F32.is_nan m = false -> kl_element F32.zero m = F32.pos_inf.
Proof.
  intros H. unfold kl_element. rewrite guarded_zero_is_zero.
  change (tf_log F32.zero) with F32.neg_inf.
  rewrite minus_one_minus_neg_inf.
  rewrite (add_pos_inf _ (square_unsigned m H)).
  reflexivity.
Qed.

Lemma kl_row_at_zero_scale (row : list spec_float) :
  row <> [] -> Forall (fun m => F32.is_nan m = false) row ->
  fold_right F32.add F32.zero (map (fun m => kl_element F32.zero m) row)
  = F32.pos_inf.
Proof.
  intros Hne Hall. induction Hall as [|m row Hm Hall IH]; [contradiction|].
  cbn [map fold_right]. rewrite (kl_element_at_zero_scale m Hm).
  destruct row as [|m' row].
  - reflexivity.
  - rewrite IH by discriminate. reflexivity.
Qed.

(** C8, as the code has it, in float32.  The loss is the batch mean of
    (per-sample reconstruction loss + per-sample KL term), the KL term being
    [0.5 * beta * sum(-1 - log(sigma^2 + 1e-45) + mean^2 + sigma^2)].  The
    constant [1e-45] is a denormal number, which the kernels read as zero:
    where the scale is 0 everywhere, the guarded logarithm is minus infinity
    everywhere, and the KL term of every sample is plus infinity, for every
    latent mean that holds numbers, a latent layer that is not empty and
    every [beta] whose half is a positive number. *)
Theorem kl_term_at_zero_scale_is_infinite (beta : spec_float)
    (latent_mean : tensor) :
  Forall (fun row => row <> [] /\ Forall (fun m => F32.is_nan m = false) row)
    latent_mean ->
  F32.positive_number (F32.mul half beta) = true ->
  (forall recon latent_sigma,
      loss recon beta latent_mean latent_sigma
      = reduce_mean
          (map (fun p => F32.add (fst p) (snd p))
               (combine recon
                  (map (fun rows => kl_sample beta (fst rows) (snd rows))
                       (combine latent_sigma latent_mean)))))
  /\ latent_log_sigma_sq (tmap (fun _ => F32.zero) latent_mean)
     = tmap (fun _ => F32.neg_inf) latent_mean
  /\ variational_losses beta latent_mean (tmap (fun _ => F32.zero) latent_mean)
     = map (fun _ => F32.pos_inf) latent_mean.
Proof.
  intros Hmean Hbeta. split; [|split].
  - intros recon latent_sigma. unfold loss.
    now rewrite variational_losses_formula.
  - unfold latent_log_sigma_sq, latent_sigma_sq, tf_square.
    rewrite !tmap_tmap. unfold tmap. apply map_ext. intros row.
    apply map_ext. intros _. now rewrite guarded_zero_is_zero.
  - rewrite variational_losses_formula.
    unfold tmap. rewrite combine_map_self, map_map.
    apply map_ext_in. intros row Hin. cbn [fst snd]. unfold kl_sample.
    rewrite combine_map_self, map_map. cbn [fst snd].
    rewrite Forall_forall in Hmean. destruct (Hmean row Hin) as [Hne Hnum].
    rewrite (kl_row_at_zero_scale row Hne Hnum).
    apply mul_pos_inf. now rewrite mul_flushed.
Qed.

End VAELoss.

(** *** The loss of the VAE, concretely *)

(** One sample, one latent unit: mean 1.0, scale 0.0, [beta = 1.0]. *)
Definition demo_log (m : positive) (e : Z) : spec_float := S754_nan.

Lemma kl_term_at_zero_scale_is_infinite_witness :
  (forall recon latent_sigma,
      loss demo_log recon (F32.of_Z 1) [[F32.of_Z 1]] latent_sigma
      = reduce_mean
          (map (fun p => F32.add (fst p) (snd p))
               (combine recon
                  (map (fun rows =>
                          kl_sample demo_log (F32.of_Z 1) (fst rows) (snd rows))
                       (combine latent_sigma [[F32.of_Z 1]])))))
  /\ latent_log_sigma_sq demo_log [[F32.zero]] = [[F32.neg_inf]]
  /\ variational_losses demo_log (F32.of_Z 1) [[F32.of_Z 1]] [[F32.zero]]
     = [F32.pos_inf].
Proof.
  apply (kl_term_at_zero_scale_is_infinite demo_log (F32.of_Z 1)
           [[F32.of_Z 1]]).
  - repeat constructor; discriminate.
  - vm_compute. reflexivity.
Defined.

(** On that sample the spec expects the KL term [0.5 * 1.0 * 1.0^2 = 0.5]. *)
Example mean_square_term_demo :
  mean_square_term (F32.of_Z 1) [F32.of_Z 1] = half.
Proof. vm_compute. reflexivity. Qed.

(** With the default reconstruction loss, the loss of that batch is
    infinite as well; with [beta = 0.0] the KL term is not a number. *)
Example loss_at_zero_scale_demo :
  loss demo_log
    (sum_of_squared_differences [[F32.of_Z 1; F32.of_Z 2]]
                                [[F32.of_Z 1; F32.of_Z 4]])
    (F32.of_Z 1) [[F32.of_Z 1]] [[F32.zero]]
  = F32.pos_inf
  /\ variational_losses demo_log F32.zero [[F32.of_Z 1]] [[F32.zero]]
     = [S754_nan].
Proof. split; vm_compute; reflexivity. Qed.

(** * Further properties

    ** Configurations: construction, and what [save] and [load] do on
    failure *)

Lemma get_none_not_in {X} (k : string) (d : Dict.t X) :
  Dict.get k d = None -> ~ In k (Dict.keys d).
Proof.
  induction d as [|[k' v'] d IH]; simpl; [tauto|].
  destruct (String.eqb_spec k k') as [->|Hne]; [discriminate|].
  intros H [Heq|Hin]; [congruence|]. now apply IH.
Qed.



(** Every module on the path whose import raises, raises an
    [Exception]. *)
Definition imports_raise_exceptions (mods : Dict.t module_code) : bool :=
  forallb (fun kv => match snd kv with
                     | Raises e => is_exception e
                     | Namespace _ => true
                     end) mods.

Section ConfigFailures.
Import TFModelConfig.

Lemma item_error_is_exception {X} (l : list X) (i : Z) (e : exn) :
  Py.item l i = inl e -> is_exception e = true.
Proof.
  unfold Py.item.
  destruct (_ <? 0); [now intros [= <-]|].
  destruct (nth_error l _); [discriminate|now intros [= <-]].
Qed.

Lemma import_error_is_exception mods l e :
  imports_raise_exceptions mods = true ->
  import_callable mods l = inl e -> is_exception e = true.
Proof.
  intros Hmods. unfold import_callable.
  destruct (Py.item l 2) as [e2|v2] eqn:H2;
    [intros [= <-]; exact (item_error_is_exception _ _ _ H2)|].
  destruct v2; try (now intros [= <-]).
  destruct (Dict.get s mods) as [[namespace|e1]|] eqn:Hm;
    [| |now intros [= <-]].
  - destruct (Py.item l 1) as [e1|v1] eqn:H1;
      [intros [= <-]; exact (item_error_is_exception _ _ _ H1)|].
    destruct v1; try (now intros [= <-]).
    destruct (Dict.get s0 namespace); [discriminate|now intros [= <-]].
  - intros [= <-]. apply get_In in Hm.
    unfold imports_raise_exceptions in Hmods.
    rewrite forallb_forall in Hmods. exact (Hmods _ Hm).
Qed.

Lemma restore_error_is_exception ver mods items :
  imports_raise_exceptions mods = true ->
  forall conf e,
    restore_callables ver mods items conf = inl e -> is_exception e = true.
Proof.
  intros Hmods. induction items as [|[k v] items IH]; intros conf e;
    [discriminate|].
  cbn [restore_callables].
  destruct (is_callable_marker v); [|apply IH].
  destruct (version_at_least_3_4 ver); [|now intros [= <-]].
  destruct v; try apply IH.
  destruct (import_callable mods l) as [e1|obj] eqn:Himp; [|apply IH].
  intros [= <-]. exact (import_error_is_exception _ _ _ Hmods Himp).
Qed.


(** A [save] that fails while writing leaves the file half-written, also
    when it held a document before: the exception is printed, and a [load]
    of that file then only prints a decoding error. *)
Theorem save_failure_truncates (self other : t) (fname : string) (w : world)
    (e : exn) :
  existsb (String.eqb fname) (unwritable w) = false ->
  TFModelConfigEncoder.encode (PDict self) = inl e ->
  exists w',
    save self fname w = (inr tt, w')
    /\ Dict.get fname (files w') = Some NotJson
    /\ stdout w' = stdout w ++ [e]
    /\ load other fname w'
       = (inr other, set_stdout (stdout w' ++ [JSONDecodeError fname]) w').
Proof.
  intros Hw Henc.
  pose proof (encode_error _ _ Henc) as ->.
  exists (set_stdout (stdout w ++ [not_serializable])
            (set_files (Dict.set fname NotJson (files w)) w)).
  assert (Hget : Dict.get fname (Dict.set fname NotJson (files w)) = Some NotJson)
    by apply get_set_same.
  repeat split.
  - unfold save, try_except, open_w, json_dump, bind, get, modify, raise, print.
    rewrite Hw, Henc. reflexivity.
  - exact Hget.
  - unfold load, try_except, json_load, bind, get, raise, print, modify, ret.
    cbn [files set_stdout set_files]. rewrite Hget. reflexivity.
Qed.

Lemma restore_callables_import_failure ver mods items conf key l e0 :
  version_at_least_3_4 ver = true ->
  In (key, PList l) items ->
  is_callable_marker (PList l) = true ->
  import_callable mods l = inl e0 ->
  exists e, restore_callables ver mods items conf = inl e.
Proof.
  intros Hver Hin Hmark Himp. revert conf.
  induction items as [|[k v] items IH]; intros conf; [destruct Hin|].
  cbn [restore_callables]. rewrite Hver.
  destruct Hin as [[= -> ->]|Hin].
  - rewrite Hmark, Himp. eauto.
  - destruct (is_callable_marker v); [|now apply IH].
    destruct v; try (now apply IH).
    destruct (import_callable mods l0); [eauto|now apply IH].
Qed.

(** Loading is all or nothing: on a runtime with dynamic import, where
    importing raises nothing but [Exception]s, when one callable field of
    the document cannot be imported, no field of the document reaches the
    config, the plain ones included; one exception is printed. *)
Theorem load_all_or_nothing (self : t) (fname : string) (w : world)
    (j : json) (conf : Dict.t pyval) (key : string) (l : list pyval) (e0 : exn) :
  Dict.get fname (files w) = Some (JsonDoc j) ->
  decode j = PDict conf ->
  version_at_least_3_4 (version_info w) = true ->
  imports_raise_exceptions (modules w) = true ->
  In (key, PList l) conf ->
  is_callable_marker (PList l) = true ->
  import_callable (modules w) l = inl e0 ->
  exists e,
    load self fname w = (inr self, set_stdout (stdout w ++ [e]) w).
Proof.
  intros Hfile Hdec Hver Hmods Hin Hmark Himp.
  destruct (restore_callables_import_failure _ _ _ conf _ _ _ Hver Hin Hmark Himp)
    as [e He].
  exists e.
  unfold load, try_except, json_load, bind, get, lift, ret, print, modify.
  rewrite Hfile, Hdec, He.
  rewrite (restore_error_is_exception _ _ _ Hmods _ _ He). reflexivity.
Qed.

Lemma restore_callables_plain ver mods items conf :
  forallb (fun kv => negb (is_callable_marker (snd kv))) items = true ->
  restore_callables ver mods items conf = inr conf.
Proof.
  induction items as [|[k v] items IH]; [reflexivity|].
  cbn [forallb snd restore_callables]. intros H.
  apply andb_true_iff in H as [Hv Hrest].
  apply negb_true_iff in Hv. rewrite Hv. now apply IH.
Qed.

(** [load] merges: a document without callable fields is applied field by
    field, a key the document does not have keeps the value the config had,
    and nothing is printed. *)
Theorem load_merges (self : t) (fname : string) (w : world) (j : json)
    (conf : Dict.t pyval) :
  Dict.get fname (files w) = Some (JsonDoc j) ->
  decode j = PDict conf ->
  forallb (fun kv => negb (is_callable_marker (snd kv))) conf = true ->
  load self fname w = (inr (Dict.update self conf), w)
  /\ (forall k, Dict.get k conf = None ->
                Dict.get k (Dict.update self conf) = Dict.get k self).
Proof.
  intros Hfile Hdec Hplain. split.
  - unfold load, try_except, json_load, bind, get, lift, ret.
    rewrite Hfile, Hdec, (restore_callables_plain _ _ _ _ Hplain). reflexivity.
  - intros k Hk. apply get_update_absent. now apply get_none_not_in.
Qed.
End ConfigFailures.

(** An object json cannot write, in a config saved over an older file. *)
Lemma save_failure_truncates_witness :
  let w := {| files := [("config.json", JsonDoc (JObj [("batch_size", JInt 8)]))];
              unwritable := []; dirs := []; stdout := [];
              version_info := (3, 6); modules := [] |} in
  let cfg := TFModelConfig.new (fun d => d) [("session", PObject 1)] in
  exists w',
    TFModelConfig.save cfg "config.json" w = (inr tt, w')
    /\ Dict.get "config.json" (files w') = Some NotJson
    /\ stdout w' = stdout w ++ [TypeError "Object is not JSON serializable"]
    /\ TFModelConfig.load TFModelConfig.defaults "config.json" w'
       = (inr TFModelConfig.defaults,
          set_stdout (stdout w' ++ [JSONDecodeError "config.json"]) w').
Proof.
  cbv zeta. apply save_failure_truncates; reflexivity.
Defined.

(** A saved activation function whose module is not installed. *)
Lemma load_all_or_nothing_witness :
  let doc := JObj [ ("batch_size", JInt 8);
                    ("hidden_activation",
                     JArr [ JStr TFModelConfigEncoder.CALLABLE_TYPE; JStr "relu";
                            JStr "tensorflow.python.ops.gen_nn_ops" ]) ] in
  let w := {| files := [("config.json", JsonDoc doc)];
              unwritable := []; dirs := []; stdout := [];
              version_info := (3, 6); modules := [] |} in
  exists e,
    TFModelConfig.load TFModelConfig.defaults "config.json" w
    = (inr TFModelConfig.defaults, set_stdout (stdout w ++ [e]) w).
Proof.
  cbv zeta.
  eapply (load_all_or_nothing TFModelConfig.defaults "config.json" _ _ _
            "hidden_activation"
            [ PStr TFModelConfigEncoder.CALLABLE_TYPE; PStr "relu";
              PStr "tensorflow.python.ops.gen_nn_ops" ]).
  - reflexivity.
  - reflexivity.
  - reflexivity.
  - reflexivity.
  - simpl. right. left. reflexivity.
  - reflexivity.
  - reflexivity.
Defined.

(** A module that calls [sys.exit] when it is imported: [load] does not
    catch the [SystemExit], prints nothing and leaves everything as it
    was. *)
Example load_lets_system_exit_pass :
  let doc := JObj [ ("hidden_activation",
                     JArr [ JStr TFModelConfigEncoder.CALLABLE_TYPE; JStr "relu";
                            JStr "setup" ]) ] in
  let w := {| files := [("config.json", JsonDoc doc)];
              unwritable := []; dirs := []; stdout := [];
              version_info := (3, 6);
              modules := [("setup", Raises (SystemExit 1))] |} in
  TFModelConfig.load TFModelConfig.defaults "config.json" w
  = (inl (SystemExit 1), w).
Proof. reflexivity. Qed.

Lemma load_merges_witness :
  let w := {| files := [("config.json",
                         JsonDoc (JObj [("batch_size", JInt 8)]))];
              unwritable := []; dirs := []; stdout := [];
              version_info := (3, 6); modules := [] |} in
  TFModelConfig.load TFModelConfig.defaults "config.json" w
  = (inr (Dict.update TFModelConfig.defaults [("batch_size", PInt 8)]), w)
  /\ (forall k, Dict.get k [("batch_size", PInt 8)] = None ->
                Dict.get k (Dict.update TFModelConfig.defaults [("batch_size", PInt 8)])
                = Dict.get k TFModelConfig.defaults).
Proof.
  cbv zeta.
  apply (load_merges TFModelConfig.defaults "config.json" _
           (JObj [("batch_size", JInt 8)]) [("batch_size", PInt 8)]);
    reflexivity.
Defined.

(** ** Chunking: edge cases, and the chunked path of [maybe_chunked] *)

Section ChunkingMore.
Context {A : Type}.

(** A zero chunk length is refused by [range]; a negative one gives an
    empty range, so nothing is yielded, whatever the sequence. *)
Theorem chunklist_nonpositive (values : list A) (k : Z) :
  k <= 0 ->
  (k = 0 -> chunklist values k
            = inl (ValueError "range() arg 3 must not be zero"))
  /\ (k < 0 -> chunklist values k = inr []).
Proof.
  intros _. split.
  - intros ->. reflexivity.
  - intros Hneg. unfold chunklist, Py.range3, Py.range_len.
    destruct (Z.eqb_spec k 0) as [|_]; [lia|].
    destruct (Z.ltb_spec 0 k) as [|_]; [lia|].
    destruct (Z.ltb_spec k 0) as [_|]; [|lia].
    destruct (Z.ltb_spec (Py.len values) 0) as [H|_];
      [unfold Py.len in H; lia|].
    reflexivity.
Qed.

(** When the chunk length divides the length of the sequence, nothing is
    dropped: the chunks put end to end are the sequence. *)
Theorem chunklist_exact (values : list A) (k : Z) :
  0 < k -> Py.len values mod k = 0 ->
  exists chunks,
    chunklist values k = inr chunks
    /\ concat chunks = values
    /\ Py.len chunks * k = Py.len values.
Proof.
  intros Hk Hmod.
  destruct (chunklist_runs values k Hk) as (chunks & Hrun & Hlen & _ & Hcat).
  assert (Hdiv : (length values / Z.to_nat k * Z.to_nat k)%nat = length values).
  { apply Nat2Z.inj. rewrite Nat2Z.inj_mul, Nat2Z.inj_div, Z2Nat.id by lia.
    unfold Py.len in Hmod.
    pose proof (Z.div_mod (Z.of_nat (length values)) k ltac:(lia)). lia. }
  exists chunks. repeat split.
  - exact Hrun.
  - rewrite Hcat, Hdiv. apply firstn_all.
  - unfold Py.len. rewrite Hlen.
    rewrite <- Hdiv at 2. rewrite Nat2Z.inj_mul. lia.
Qed.
End ChunkingMore.

Lemma chunklist_nonpositive_witness :
  (-2 = 0 -> chunklist [1; 2; 3] (-2)
             = inl (ValueError "range() arg 3 must not be zero"))
  /\ (-2 < 0 -> chunklist [1; 2; 3] (-2) = inr []).
Proof. apply (chunklist_nonpositive [1; 2; 3] (-2)). lia. Defined.

Lemma chunklist_exact_witness :
  exists chunks,
    chunklist (Py.range 6) 2 = inr chunks
    /\ concat chunks = Py.range 6
    /\ Py.len chunks * 2 = Py.len (Py.range 6).
Proof. apply (chunklist_exact (Py.range 6) 2); [lia|reflexivity]. Defined.

Section ChunkedHandlers.
Context {S A Args R E : Type}.
Variable iter_result : R -> exn + list E.

Lemma for_each_length {X B} (h : X -> M S B) (l : list X) s rs s' :
  for_each h l s = (inr rs, s') -> length rs = length l.
Proof.
  revert s rs s'. induction l as [|x l IH]; intros s rs s' H.
  - injection H as <- _. reflexivity.
  - cbn [for_each] in H.
    apply bind_returns in H as (y & s1 & _ & H).
    apply bind_returns in H as (ys & s2 & Hrest & H).
    injection H as <- _. simpl. f_equal. eapply IH, Hrest.
Qed.

Lemma for_each_traced (tag : bool) (f : handler S A Args R) (args : Args)
    (l : list (list A)) s calls rs s' :
  for_each (fun v => f v args) l s = (inr rs, s') ->
  for_each (fun v => traced tag f v args) l (s, calls)
  = (inr rs, (s', calls ++ map (fun v => (tag, v)) l)).
Proof.
  revert s calls rs s'. induction l as [|x l IH]; intros s calls rs s' H.
  - injection H as <- <-. cbn. now rewrite app_nil_r.
  - cbn [for_each] in H |- *.
    apply bind_returns in H as (y & s1 & Hx & H).
    apply bind_returns in H as (ys & s2 & Hrest & H).
    injection H as <- <-.
    unfold bind at 1. unfold traced at 1. cbn [fst snd]. rewrite Hx.
    rewrite (run_bind _ _ _ _ _ (IH _ _ _ _ Hrest)).
    cbn. now rewrite <- app_assoc.
Qed.

(** With a positive chunk length and one chunked handler, [maybe_chunked]
    runs the handler on the chunks of [chunklist], in order, and returns
    the list of results with [True].  When every call returns there is one
    result per chunk, [len values / length] in all; the record of calls
    grows by exactly the chunks, and the not-chunked handler is not
    called. *)
Theorem maybe_chunked_chunked (values : list A) (k : Z)
    (f g : handler S A Args R) (args : Args) :
  0 < k ->
  exists chunks,
    chunklist values k = inr chunks
    /\ Py.len chunks = Py.len values / k
    /\ maybe_chunked iter_result values (Some k) (Single f) g args
       = (rs <- for_each (fun v => f v args) chunks ;; ret (PerChunk rs, true))
    /\ forall s calls rs s',
         for_each (fun v => f v args) chunks s = (inr rs, s') ->
         Py.len rs = Py.len values / k
         /\ maybe_chunked iter_result values (Some k)
              (Single (traced true f)) (traced false g) args (s, calls)
            = (inr (PerChunk rs, true),
               (s', calls ++ map (fun c => (true, c)) chunks)).
Proof.
  intros Hk.
  destruct (chunklist_runs values k Hk) as (chunks & Hrun & Hlen & _ & _).
  assert (Hcount : Py.len chunks = Py.len values / k).
  { unfold Py.len. rewrite Hlen, Nat2Z.inj_div. f_equal. lia. }
  exists chunks. split; [exact Hrun|]. split; [exact Hcount|]. split.
  - unfold maybe_chunked. rewrite Hrun.
    unfold bind at 1. unfold lift. reflexivity.
  - intros s calls rs s' Hall. split.
    + unfold Py.len in *. rewrite (for_each_length _ _ _ _ _ Hall). exact Hcount.
    + unfold maybe_chunked. rewrite Hrun.
      unfold bind at 1. unfold lift.
      rewrite (run_bind _ _ _ _ _ (for_each_traced true f args chunks s calls rs s' Hall)).
      reflexivity.
Qed.

(** With an iterable of chunked handlers, a call that returns gives one
    list per handler, in the handlers' order. *)
Theorem maybe_chunked_many_shape (values : list A) (k : Z)
    (fs : list (handler S A Args R)) (g : handler S A Args R) (args : Args)
    s res flag s' :
  maybe_chunked iter_result values (Some k) (Many fs) g args s
  = (inr (res, flag), s') ->
  exists rss, res = PerFunction rss /\ flag = true /\ length rss = length fs.
Proof.
  unfold maybe_chunked. intros H.
  apply bind_returns in H as (rss & s1 & Hall & H).
  injection H as <- <- _.
  exists rss. repeat split. eapply for_each_length, Hall.
Qed.
End ChunkedHandlers.

(** The docstring's handlers: [np.prod] and [np.sum], which touch no
    state. *)
Definition pure_handler (h : list Z -> Z) : handler unit Z unit Z :=
  fun v _ => ret (h v).
Definition np_prod (v : list Z) : Z := fold_right Z.mul 1 v.
Definition np_sum (v : list Z) : Z := fold_right Z.add 0 v.
Definition iter_int (r : Z) : exn + list Z :=
  inl (TypeError "'int' object is not iterable").

Example maybe_chunked_docstring :
  maybe_chunked iter_int (Py.range 5) None (Single (pure_handler np_prod))
    (pure_handler np_sum) tt tt
  = (inr (Whole 10, false), tt)
  /\ maybe_chunked iter_int (Py.range 5) (Some 2) (Single (pure_handler np_prod))
       (pure_handler np_sum) tt tt
     = (inr (PerChunk [0; 6], true), tt).
Proof. split; reflexivity. Qed.

Lemma maybe_chunked_chunked_witness :
  exists chunks,
    chunklist (Py.range 5) 2 = inr chunks
    /\ Py.len chunks = Py.len (Py.range 5) / 2
    /\ maybe_chunked iter_int (Py.range 5) (Some 2)
         (Single (pure_handler np_prod)) (pure_handler np_sum) tt
       = (rs <- for_each (fun v => pure_handler np_prod v tt) chunks ;;
          ret (PerChunk rs, true))
    /\ forall s calls rs s',
         for_each (fun v => pure_handler np_prod v tt) chunks s = (inr rs, s') ->
         Py.len rs = Py.len (Py.range 5) / 2
         /\ maybe_chunked iter_int (Py.range 5) (Some 2)
              (Single (traced true (pure_handler np_prod)))
              (traced false (pure_handler np_sum)) tt (s, calls)
            = (inr (PerChunk rs, true),
               (s', calls ++ map (fun c => (true, c)) chunks)).
Proof.
  apply (maybe_chunked_chunked iter_int (Py.range 5) 2
           (pure_handler np_prod) (pure_handler np_sum) tt).
  lia.
Defined.

(** Two handlers that return lists: one list of results per handler. *)
Definition list_handler (h : list Z -> list Z) : handler unit Z unit (list Z) :=
  fun v _ => ret (h v).

Lemma maybe_chunked_many_shape_witness :
  exists rss,
    @PerFunction (list Z) Z [[0; 1; 2; 3]; [1; 0; 3; 2]] = PerFunction rss
    /\ true = true
    /\ length rss
       = length [list_handler (fun v => v); list_handler (@rev Z)].
Proof.
  apply (maybe_chunked_many_shape (fun r : list Z => inr r) (Py.range 5) 2
           [list_handler (fun v => v); list_handler (@rev Z)]
           (list_handler (fun v => v)) tt tt
           (PerFunction [[0; 1; 2; 3]; [1; 0; 3; 2]]) true tt).
  reflexivity.
Defined.

(** ** [graph_def] and the VAE graph ([vae.py])

    The graph is built symbolically: the layers and operations of the
    framework are parameters, each standing for the tensor it adds to the
    graph, and so is [build_mlp_graph], which these sources import but do
    not contain; its calls are recorded with their keyword arguments.  A
    Python list is an object: the state holds the list objects by
    location, so that a list reached through the config and through a
    parameter of a function is one object, and a change made in place
    through one is seen through the other. *)

Section VAEGraph.
Context {T : Type}.

Inductive value : Type :=
| VNone
| VBool (b : bool)
| VInt (n : Z)
| VStr (s : string)
| VCallable (c : callable)
| VList (l : nat)                 (* a list object, by its location *)
| VTensor (t : T).

Definition heap : Type := list (list value).

Fixpoint heap_set (h : heap) (l : nat) (xs : list value) : heap :=
  match h, l with
  | [], _ => []
  | _ :: r, O => xs :: r
  | x :: r, S l' => x :: heap_set r l' xs
  end.

Record graph : Type := {
  lists : heap;
  mlp_calls : list (string * Dict.t value)
}.

Definition set_lists (h : heap) (g : graph) : graph :=
  {| lists := h; mlp_calls := mlp_calls g |}.

Definition record_mlp_call (scope : string) (kw : Dict.t value) (g : graph)
  : graph :=
  {| lists := lists g; mlp_calls := mlp_calls g ++ [(scope, kw)] |}.

(** The framework, and [build_mlp_graph].  The string given to a layer or
    a placeholder is the name the source assigns its result to: two layers
    on the same input are two layers. *)
Variable build_mlp_graph : string -> Dict.t value -> heap -> exn + T.
Variable tf_layers_dense : string -> T -> value -> value -> exn + T.
Variable tf_placeholder : string -> list value -> exn + T.
Variable tf_random_normal : value -> exn + T.
Variables tf_square tf_log tf_abs : T -> T.
Variables tf_add tf_multiply : T -> T -> T.
Variable tf_add_float : T -> string -> T.
Variables tensor_last tensor_init : T -> exn + T.      (* [t[-1]], [t[:-1]] *)
Variable tensor_width : T -> exn + value.      (* [t.shape.as_list()[1]] *)

(** *** List objects *)

(** A reference always has its object; the second case is not reached
    from a state in which every location in use is allocated. *)
Definition deref (l : nat) : M graph (list value) :=
  h <- gets lists ;;
  match nth_error h l with
  | Some xs => ret xs
  | None => raise (ValueError "no such list object")
  end.

Definition alloc (xs : list value) : M graph value :=
  h <- gets lists ;;
  modify (set_lists (h ++ [xs])) ;;
  ret (VList (length h)).

(** [v[-1]] *)
Definition getitem_last (v : value) : M graph value :=
  match v with
  | VList l => xs <- deref l ;; lift (Py.item xs (-1))
  | VStr s =>
      match Py.item (list_ascii_of_string s) (-1) with
      | inr c => ret (VStr (String c EmptyString))
      | inl _ => raise (IndexError "string index out of range")
      end
  | VTensor t => r <- lift (tensor_last t) ;; ret (VTensor r)
  | _ => raise (TypeError "object is not subscriptable")
  end.

(** [v[:-1]]: a new object *)
Definition getitem_init (v : value) : M graph value :=
  match v with
  | VList l => xs <- deref l ;; alloc (Py.slice xs 0 (-1))
  | VStr s =>
      ret (VStr (string_of_list_ascii
                   (Py.slice (list_ascii_of_string s) 0 (-1))))
  | VTensor t => r <- lift (tensor_init t) ;; ret (VTensor r)
  | _ => raise (TypeError "object is not subscriptable")
  end.

(** [v.reverse()]: in place, on a list *)
Definition list_reverse (v : value) : M graph unit :=
  match v with
  | VList l =>
      xs <- deref l ;;
      modify (fun g => set_lists (heap_set (lists g) l (rev xs)) g)
  | _ => raise (AttributeError "reverse")
  end.

(** [bool(v)] *)
Definition truthy (v : value) : M graph bool :=
  match v with
  | VNone => ret false
  | VBool b => ret b
  | VInt n => ret (negb (n =? 0))
  | VStr s => ret (negb (String.eqb s ""))
  | VCallable _ => ret true
  | VList l => xs <- deref l ;; ret (negb (Py.len xs =? 0))
  | VTensor _ => raise (TypeError "a tensor is not a Python bool")
  end.

(** *** Calls with keyword arguments *)

(** [f(k1=v1, ..., **extra)]: a key given twice is refused at the call. *)
Definition keyword_call (explicit extra : Dict.t value) : exn + Dict.t value :=
  if existsb (fun kv => Dict.mem (fst kv) explicit) extra
  then inl (TypeError "got multiple values for keyword argument")
  else inr (explicit ++ extra).

Definition without (k : string) (d : Dict.t value) : Dict.t value :=
  filter (fun kv => negb (String.eqb k (fst kv))) d.

Definition signature_mismatch : exn :=
  TypeError "the arguments do not fit the signature".

(** Binding the arguments of a call to the parameters of a function
    [def f(p1, ..., pn, **kwargs)]: positional arguments first, then
    keywords by name; what is left of the keywords is [kwargs]. *)
Fixpoint bind_params (params : list string) (args : list value)
    (kw : Dict.t value) : exn + (list value * Dict.t value) :=
  match params, args with
  | [], [] => inr ([], kw)
  | [], _ :: _ => inl signature_mismatch
  | p :: ps, a :: rest =>
      if Dict.mem p kw then inl signature_mismatch
      else match bind_params ps rest kw with
           | inl e => inl e
           | inr (vs, kwargs) => inr (a :: vs, kwargs)
           end
  | p :: ps, [] =>
      match Dict.get p kw with
      | None => inl signature_mismatch
      | Some v =>
          match bind_params ps [] (without p kw) with
          | inl e => inl e
          | inr (vs, kwargs) => inr (v :: vs, kwargs)
          end
      end
  end.

(** *** [graph_def] *)

(** [select_kwargs]: of the keyword arguments, those whose key is among
    [fun.__code__.co_varnames], with their values and in their order;
    the positional arguments as they are. *)
Definition graph_def {R} (co_varnames : list string)
    (fun_ : list value -> Dict.t value -> M graph R)
  : list value -> Dict.t value -> M graph R :=
  fun args kwargs =>
    let selected_kwargs :=
      filter (fun kv => existsb (String.eqb (fst kv)) co_varnames) kwargs in
    fun_ args selected_kwargs.

(** *** [build_vae_graph] *)

Definition call_build_mlp_graph (scope : string)
    (explicit extra : Dict.t value) : M graph T :=
  kw <- lift (keyword_call explicit extra) ;;
  modify (record_mlp_call scope kw) ;;
  h <- gets lists ;;
  lift (build_mlp_graph scope kw h).

(** [input_tensor.shape.as_list()[1]] *)
Definition input_width (v : value) : exn + value :=
  match v with
  | VTensor t => tensor_width t
  | _ => inl (AttributeError "shape")
  end.

(** reconstruction, latent_layer, latent_mean, latent_sigma,
    latent_sigma_sq, latent_log_sigma_sq *)
Definition vae_outputs : Type := T * T * T * T * T * T.

(** The keyword arguments both calls of [build_mlp_graph] write out; the
    output activation of the sub-network is its hidden activation. *)
Definition mlp_arguments (input_tensor out_size n_hidden activation : value)
  : Dict.t value :=
  [ ("input_tensor", input_tensor);
    ("out_size", out_size);
    ("n_hidden", n_hidden);
    ("hidden_activation", activation);
    ("output_activation", activation) ].

(** The body of [build_vae_graph], its parameters bound. *)
Definition build_vae_graph_body
    (input_tensor latent_size n_hidden hidden_activation output_activation
       : value) (kwargs : Dict.t value) : M graph vae_outputs :=
  out_size <- getitem_last n_hidden ;;
  hidden <- getitem_init n_hidden ;;
  encoder_out <- call_build_mlp_graph "encoder"
                   (mlp_arguments input_tensor out_size hidden
                      hidden_activation) kwargs ;;
  latent_mean <- lift (tf_layers_dense "latent_mean" encoder_out
                         latent_size VNone) ;;
  latent_sigma <- lift (tf_layers_dense "latent_sigma" encoder_out
                          latent_size VNone) ;;
  let latent_sigma_sq := tf_square latent_sigma in
  let latent_log_sigma_sq := tf_log (tf_add_float latent_sigma_sq "1e-45") in
  let latent_sigma := tf_abs latent_sigma in
  latent_randn <- lift (tf_random_normal latent_size) ;;
  let latent_layer :=
    tf_add latent_mean (tf_multiply latent_sigma latent_randn) in
  list_reverse n_hidden ;;
  out_size <- getitem_last n_hidden ;;
  hidden <- getitem_init n_hidden ;;
  decoder_out <- call_build_mlp_graph "decoder"
                   (mlp_arguments (VTensor latent_layer) out_size hidden
                      hidden_activation) kwargs ;;
  units <- lift (input_width input_tensor) ;;
  reconstruction <- lift (tf_layers_dense "reconstruction" decoder_out
                            units output_activation) ;;
  ret (reconstruction, latent_layer, latent_mean, latent_sigma,
       latent_sigma_sq, latent_log_sigma_sq).

Definition vae_params : list string :=
  [ "input_tensor"; "latent_size"; "n_hidden"; "hidden_activation";
    "output_activation" ].

(** The local variables of [build_vae_graph], in the order of their first
    assignment. *)
Definition vae_locals : list string :=
  [ "encoder_out"; "latent_mean"; "latent_sigma"; "latent_sigma_sq";
    "latent_log_sigma_sq"; "latent_randn"; "latent_layer"; "decoder_out";
    "reconstruction" ].

(** [build_vae_graph.__code__.co_varnames]: the parameters, the name of the
    keyword dictionary, the local variables. *)
Definition vae_co_varnames : list string :=
  vae_params ++ ["kwargs"] ++ vae_locals.

(** The function as defined, before [graph_def] wraps it. *)
Definition build_vae_graph_fun (args : list value) (kw : Dict.t value)
  : M graph vae_outputs :=
  bound <- lift (bind_params vae_params args kw) ;;
  match bound with
  | ([input_tensor; latent_size; n_hidden; hidden_activation;
      output_activation], kwargs) =>
      build_vae_graph_body input_tensor latent_size n_hidden
        hidden_activation output_activation kwargs
  | _ => raise signature_mismatch      (* not reached: five parameters *)
  end.

Definition build_vae_graph : list value -> Dict.t value -> M graph vae_outputs :=
  graph_def vae_co_varnames build_vae_graph_fun.

(** *** [VAE.build_graph], up to the call of [build_vae_graph] *)

Definition config_item (key : string) (config : Dict.t value)
  : M graph value :=
  match Dict.get key config with
  | Some v => ret v
  | None => raise (KeyError key)
  end.

(** Lines 157-173 of [VAE.build_graph]: the two placeholders, the keyword
    arguments, the network.  The result is what is assigned to [x_input],
    [y_target] and the six outputs. *)
Definition build_graph_network (config : Dict.t value)
  : M graph (T * T * vae_outputs) :=
  in_size <- config_item "in_size" config ;;
  x_input <- lift (tf_placeholder "x_input" [VNone; in_size]) ;;
  in_size <- config_item "in_size" config ;;
  y_target <- lift (tf_placeholder "y_target" [VNone; in_size]) ;;
  use_bn <- config_item "use_bn" config ;;
  use_bn <- truthy use_bn ;;
  kwargs <- (if use_bn : bool
             then bn_is_training <- lift (tf_placeholder "bn_is_training" []) ;;
                  ret [("bn_is_training", VTensor bn_is_training)]
             else ret []) ;;
  let kwargs := Dict.update kwargs config in
  kw <- lift (keyword_call [("input_tensor", VTensor x_input)] kwargs) ;;
  outputs <- build_vae_graph [] kw ;;
  ret (x_input, y_target, outputs).

(** *** Facts about list objects, dicts and calls *)

Lemma nth_error_heap_set_same (h : heap) (l : nat) (xs : list value) :
  (l < length h)%nat -> nth_error (heap_set h l xs) l = Some xs.
Proof.
  revert l. induction h as [|x h IH]; intros [|l] H; cbn in *;
    try lia; [reflexivity|]. apply IH. lia.
Qed.

Lemma nth_error_heap_set_other (h : heap) (l l' : nat) (xs : list value) :
  l <> l' -> nth_error (heap_set h l xs) l' = nth_error h l'.
Proof.
  revert l l'. induction h as [|x h IH]; intros [|l] [|l'] H; cbn;
    try reflexivity; try congruence. apply IH. congruence.
Qed.

Lemma length_heap_set (h : heap) (l : nat) (xs : list value) :
  length (heap_set h l xs) = length h.
Proof.
  revert l. induction h as [|x h IH]; intros [|l]; cbn; try reflexivity.
  now rewrite IH.
Qed.

Lemma item_last {A} (xs : list A) (x : A) :
  Py.item xs (-1) = inr x ->
  exists pre, xs = pre ++ [x] /\ Py.slice xs 0 (-1) = pre.
Proof.
  intros H.
  destruct (exists_last (l := xs)) as (pre & x' & ->).
  { intros ->. discriminate. }
  exists pre.
  unfold Py.item, Py.len in H. rewrite length_app in H. cbn [length] in H.
  destruct (Z.ltb_spec (-1) 0) as [_|]; [|lia].
  destruct (Z.ltb_spec (-1 + Z.of_nat (length pre + 1)) 0) as [|_]; [lia|].
  replace (Z.to_nat (-1 + Z.of_nat (length pre + 1))) with (length pre) in H
    by lia.
  rewrite nth_error_app2, Nat.sub_diag in H by lia. cbn in H.
  injection H as ->. split; [reflexivity|].
  unfold Py.slice, Py.clip, Py.len. rewrite length_app. cbn [length].
  destruct (Z.ltb_spec 0 0) as [|_]; [lia|].
  destruct (Z.ltb_spec (-1) 0) as [_|]; [|lia].
  replace (Z.to_nat _) with (length pre) by lia.
  replace (Z.to_nat (Z.min 0 _)) with O by lia.
  cbn [skipn]. rewrite firstn_app, Nat.sub_diag, firstn_all. cbn.
  now rewrite app_nil_r.
Qed.

(** Looking a key up after a selection by key. *)
Lemma get_filter_key (f : string -> bool) (k : string) (d : Dict.t value) :
  Dict.get k (filter (fun kv => f (fst kv)) d)
  = if f k then Dict.get k d else None.
Proof.
  induction d as [|[k' v] d IH]; cbn [filter Dict.get fst].
  - now destruct (f k).
  - destruct (f k') eqn:Hk'; cbn [Dict.get];
      destruct (String.eqb_spec k k') as [->|Hne].
    + now rewrite Hk'.
    + exact IH.
    + rewrite IH. now rewrite Hk'.
    + exact IH.
Qed.

Lemma keys_filter_key (f : string -> bool) (k : string) (d : Dict.t value) :
  In k (Dict.keys (filter (fun kv => f (fst kv)) d)) ->
  In k (Dict.keys d) /\ f k = true.
Proof.
  unfold Dict.keys. rewrite in_map_iff. intros ([k' v] & <- & Hin).
  apply filter_In in Hin as [Hin Hf]. split; [|exact Hf].
  apply in_map_iff. now exists (k', v).
Qed.

(** What [bind_params] leaves for [kwargs]: keywords that were given, none
    of them the name of a parameter. *)
Lemma bind_params_rest (params : list string) :
  forall args kw vs rest,
    bind_params params args kw = inr (vs, rest) ->
    forall k, In k (Dict.keys rest) ->
              In k (Dict.keys kw) /\ ~ In k params.
Proof.
  induction params as [|p ps IH]; intros args kw vs rest H k Hk.
  - destruct args; [|discriminate]. injection H as _ <-. tauto.
  - destruct args as [|a args]; cbn [bind_params] in H.
    + destruct (Dict.get p kw) as [v|] eqn:Hp; [|discriminate].
      destruct (bind_params ps [] (without p kw)) as [e|[vs' rest']] eqn:Hb;
        [discriminate|].
      injection H as _ <-.
      destruct (IH _ _ _ _ Hb k Hk) as [Hin Hps].
      apply (keys_filter_key (fun q => negb (String.eqb p q))) in Hin
        as [Hin Hne].
      split; [exact Hin|]. intros [->|Hq]; [|tauto].
      now rewrite String.eqb_refl in Hne.
    + destruct (Dict.mem p kw) eqn:Hp; [discriminate|].
      destruct (bind_params ps args kw) as [e|[vs' rest']] eqn:Hb;
        [discriminate|].
      injection H as _ <-.
      destruct (IH _ _ _ _ Hb k Hk) as [Hin Hps].
      split; [exact Hin|]. intros [->|Hq]; [|tauto].
      unfold Dict.mem in Hp.
      destruct (Dict.get k kw) eqn:Hg; [discriminate|].
      now apply get_none_not_in in Hg.
Qed.

Lemma deref_run (l : nat) (xs : list value) (g : graph) :
  nth_error (lists g) l = Some xs -> deref l g = (inr xs, g).
Proof. intros H. unfold deref, bind, gets. now rewrite H. Qed.

(** A call of [build_vae_graph] that returns, step by step: the two
    calls of [build_mlp_graph] with what they were given, and the list
    objects afterwards. *)
Lemma build_vae_graph_body_returns
    (x ls ha oa : value) (l : nat) (kwargs : Dict.t value) (hs : list value)
    (g g' : graph) (outs : vae_outputs) :
  nth_error (lists g) l = Some hs ->
  build_vae_graph_body x ls (VList l) ha oa kwargs g = (inr outs, g') ->
  exists pre last_ preD first,
    hs = pre ++ [last_]
    /\ rev hs = preD ++ [first]
    /\ lists g' = heap_set (lists g ++ [pre]) l (rev hs) ++ [preD]
    /\ mlp_calls g'
       = mlp_calls g
         ++ [ ("encoder",
               mlp_arguments x last_ (VList (length (lists g))) ha ++ kwargs);
              ("decoder",
               mlp_arguments (VTensor (snd (fst (fst (fst (fst outs))))))
                 first (VList (S (length (lists g)))) ha ++ kwargs) ].
Proof.
  intros Hl H. unfold build_vae_graph_body in H.
  assert (Hlt : (l < length (lists g))%nat).
  { apply nth_error_Some. congruence. }
  (* the encoder *)
  apply bind_returns in H as (last_ & g1 & Hlast & H).
  unfold getitem_last in Hlast. rewrite (run_bind _ _ _ _ _ (deref_run _ _ _ Hl)) in Hlast.
  unfold lift in Hlast. injection Hlast as Hlast <-.
  apply item_last in Hlast as (pre & Hhs & Hpre).
  apply bind_returns in H as (hidden & g1 & Hinit & H).
  unfold getitem_init in Hinit.
  rewrite (run_bind _ _ _ _ _ (deref_run _ _ _ Hl)) in Hinit.
  unfold alloc, bind, gets, modify, ret in Hinit. injection Hinit as <- <-.
  rewrite Hpre in H.
  apply bind_returns in H as (encoder_out & g2 & Henc & H).
  unfold call_build_mlp_graph in Henc.
  apply bind_returns in Henc as (kwE & g1 & HkwE & Henc).
  unfold keyword_call, lift in HkwE.
  destruct (existsb _ kwargs); [discriminate|]. injection HkwE as <- <-.
  apply bind_returns in Henc as ([] & g1 & Hrec & Henc).
  unfold modify in Hrec. injection Hrec as <-.
  apply bind_returns in Henc as (h1 & g1 & Hh1 & Henc).
  unfold gets in Hh1. injection Hh1 as <- <-.
  unfold lift in Henc. injection Henc as _ <-.
  (* the latent layer *)
  apply bind_returns in H as (latent_mean & g3 & Hm & H).
  unfold lift in Hm. injection Hm as _ <-.
  apply bind_returns in H as (latent_sigma & g3 & Hs & H).
  unfold lift in Hs. injection Hs as _ <-.
  apply bind_returns in H as (latent_randn & g3 & Hr & H).
  unfold lift in Hr. injection Hr as _ <-.
  (* the list is reversed in place *)
  apply bind_returns in H as ([] & g3 & Hrev & H).
  assert (Hl2 : nth_error
                  (lists (record_mlp_call "encoder"
                            (mlp_arguments x last_ (VList (length (lists g))) ha
                               ++ kwargs)
                            (set_lists (lists g ++ [pre]) g))) l = Some hs).
  { cbn [lists record_mlp_call set_lists]. now rewrite nth_error_app1. }
  unfold list_reverse in Hrev.
  rewrite (run_bind _ _ _ _ _ (deref_run _ _ _ Hl2)) in Hrev.
  unfold modify in Hrev. injection Hrev as <-.
  cbn [lists record_mlp_call set_lists mlp_calls] in H.
  (* the decoder *)
  set (h3 := heap_set (lists g ++ [pre]) l (rev hs)) in *.
  assert (Hl3 : nth_error h3 l = Some (rev hs)).
  { apply nth_error_heap_set_same. rewrite length_app. lia. }
  apply bind_returns in H as (first & g4 & Hfirst & H).
  unfold getitem_last in Hfirst.
  erewrite run_bind in Hfirst by (apply deref_run; exact Hl3).
  unfold lift in Hfirst. injection Hfirst as Hfirst <-.
  apply item_last in Hfirst as (preD & HhsD & HpreD).
  apply bind_returns in H as (hiddenD & g4 & Hinit & H).
  unfold getitem_init in Hinit.
  erewrite run_bind in Hinit by (apply deref_run; exact Hl3).
  unfold alloc, bind, gets, modify, ret in Hinit. injection Hinit as <- <-.
  rewrite HpreD in H. cbn [lists set_lists] in H.
  apply bind_returns in H as (decoder_out & g5 & Hdec & H).
  unfold call_build_mlp_graph in Hdec.
  apply bind_returns in Hdec as (kwD & g4 & HkwD & Hdec).
  unfold keyword_call, lift in HkwD.
  destruct (existsb _ kwargs); [discriminate|]. injection HkwD as <- <-.
  apply bind_returns in Hdec as ([] & g4 & Hrec & Hdec).
  unfold modify in Hrec. injection Hrec as <-.
  apply bind_returns in Hdec as (h4 & g4 & Hh4 & Hdec).
  unfold gets in Hh4. injection Hh4 as <- <-.
  unfold lift in Hdec. injection Hdec as _ <-.
  apply bind_returns in H as (units & g6 & Hu & H).
  unfold lift in Hu. injection Hu as _ <-.
  apply bind_returns in H as (reconstruction & g6 & Hrc & H).
  unfold lift in Hrc. injection Hrc as _ <-.
  unfold ret in H. injection H as <- <-.
  exists pre, last_, preD, first.
  cbn [lists mlp_calls record_mlp_call set_lists fst snd].
  split; [exact Hhs|]. split; [exact HhsD|]. split.
  - reflexivity.
  - unfold h3. rewrite length_heap_set, length_app. cbn [length].
    rewrite Nat.add_1_r, <- app_assoc. reflexivity.
Qed.

Lemma get_without (p k : string) (d : Dict.t value) :
  Dict.get k (without p d) = if String.eqb p k then None else Dict.get k d.
Proof.
  unfold without.
  rewrite (get_filter_key (fun q => negb (String.eqb p q))).
  now destruct (String.eqb p k).
Qed.

(** Binding the five parameters of [build_vae_graph] by keyword. *)
Lemma bind_vae_params_keywords (kw : Dict.t value) (v1 v2 v3 v4 v5 : value) :
  Dict.get "input_tensor" kw = Some v1 ->
  Dict.get "latent_size" kw = Some v2 ->
  Dict.get "n_hidden" kw = Some v3 ->
  Dict.get "hidden_activation" kw = Some v4 ->
  Dict.get "output_activation" kw = Some v5 ->
  exists rest, bind_params vae_params [] kw = inr ([v1; v2; v3; v4; v5], rest).
Proof.
  intros H1 H2 H3 H4 H5. unfold vae_params. cbn [bind_params].
  rewrite !get_without. cbn [String.eqb Ascii.eqb Bool.eqb].
  rewrite H1, H2, H3, H4, H5. eexists. reflexivity.
Qed.

Lemma bind_vae_params_inv (kw : Dict.t value) (vs : list value)
    (rest : Dict.t value) :
  bind_params vae_params [] kw = inr (vs, rest) ->
  exists v1 v2 v3 v4 v5,
    vs = [v1; v2; v3; v4; v5]
    /\ Dict.get "input_tensor" kw = Some v1
    /\ Dict.get "latent_size" kw = Some v2
    /\ Dict.get "n_hidden" kw = Some v3
    /\ Dict.get "hidden_activation" kw = Some v4
    /\ Dict.get "output_activation" kw = Some v5.
Proof.
  unfold vae_params. cbn [bind_params]. intros H.
  rewrite !get_without in H. cbn [String.eqb Ascii.eqb Bool.eqb] in H.
  destruct (Dict.get "input_tensor" kw) as [v1|] eqn:H1; [|discriminate].
  destruct (Dict.get "latent_size" kw) as [v2|] eqn:H2; [|discriminate].
  destruct (Dict.get "n_hidden" kw) as [v3|] eqn:H3; [|discriminate].
  destruct (Dict.get "hidden_activation" kw) as [v4|] eqn:H4; [|discriminate].
  destruct (Dict.get "output_activation" kw) as [v5|] eqn:H5; [|discriminate].
  injection H as <- _. now exists v1, v2, v3, v4, v5.
Qed.

Definition selected (co_varnames : list string) (kwargs : Dict.t value)
  : Dict.t value :=
  filter (fun kv => existsb (String.eqb (fst kv)) co_varnames) kwargs.

Lemma get_selected_param (k : string) (kwargs : Dict.t value) :
  existsb (String.eqb k) vae_co_varnames = true ->
  Dict.get k (selected vae_co_varnames kwargs) = Dict.get k kwargs.
Proof.
  intros H. unfold selected.
  rewrite (get_filter_key (fun q => existsb (String.eqb q) vae_co_varnames)).
  now rewrite H.
Qed.

(** *** What [build_vae_graph] does with [n_hidden] *)

(** An empty [n_hidden] is refused by its first use: [IndexError], before
    anything is built or changed. *)
Theorem build_vae_graph_empty_hidden (kwargs : Dict.t value)
    (x ls ha oa : value) (l : nat) (g : graph) :
  Dict.get "input_tensor" kwargs = Some x ->
  Dict.get "latent_size" kwargs = Some ls ->
  Dict.get "n_hidden" kwargs = Some (VList l) ->
  Dict.get "hidden_activation" kwargs = Some ha ->
  Dict.get "output_activation" kwargs = Some oa ->
  nth_error (lists g) l = Some [] ->
  build_vae_graph [] kwargs g
  = (inl (IndexError "list index out of range"), g).
Proof.
  intros H1 H2 H3 H4 H5 Hl.
  unfold build_vae_graph, graph_def, build_vae_graph_fun.
  fold (selected vae_co_varnames kwargs).
  destruct (bind_vae_params_keywords (selected vae_co_varnames kwargs)
              x ls (VList l) ha oa) as [rest Hbind];
    try (rewrite get_selected_param by reflexivity; assumption).
  rewrite Hbind.
  erewrite run_bind by reflexivity. cbn iota.
  unfold build_vae_graph_body.
  apply run_bind_raise. unfold getitem_last.
  erewrite run_bind by (apply deref_run; exact Hl).
  reflexivity.
Qed.

(** A call of [build_vae_graph] that returns has asked for two
    sub-networks.  The encoder's layers, hidden ones and output, have the
    widths [n_hidden] held at the call; the decoder's have them in reverse
    order and read the latent layer.  The list object passed as
    [n_hidden] has been reversed in place. *)
Theorem build_vae_graph_layer_plan (kwargs : Dict.t value)
    (x ls ha oa : value) (l : nat) (hs : list value) (g g' : graph)
    (outs : vae_outputs) :
  Dict.get "input_tensor" kwargs = Some x ->
  Dict.get "latent_size" kwargs = Some ls ->
  Dict.get "n_hidden" kwargs = Some (VList l) ->
  Dict.get "hidden_activation" kwargs = Some ha ->
  Dict.get "output_activation" kwargs = Some oa ->
  nth_error (lists g) l = Some hs ->
  build_vae_graph [] kwargs g = (inr outs, g') ->
  nth_error (lists g') l = Some (rev hs)
  /\ exists kwE kwD le ld pre last_ preD first,
       mlp_calls g' = mlp_calls g ++ [("encoder", kwE); ("decoder", kwD)]
       /\ Dict.get "input_tensor" kwE = Some x
       /\ Dict.get "n_hidden" kwE = Some (VList le)
       /\ nth_error (lists g') le = Some pre
       /\ Dict.get "out_size" kwE = Some last_
       /\ pre ++ [last_] = hs
       /\ Dict.get "input_tensor" kwD
          = Some (VTensor (snd (fst (fst (fst (fst outs))))))
       /\ Dict.get "n_hidden" kwD = Some (VList ld)
       /\ nth_error (lists g') ld = Some preD
       /\ Dict.get "out_size" kwD = Some first
       /\ preD ++ [first] = rev hs.
Proof.
  intros H1 H2 H3 H4 H5 Hl H.
  unfold build_vae_graph, graph_def, build_vae_graph_fun in H.
  fold (selected vae_co_varnames kwargs) in H.
  destruct (bind_vae_params_keywords (selected vae_co_varnames kwargs)
              x ls (VList l) ha oa) as [rest Hbind];
    try (rewrite get_selected_param by reflexivity; assumption).
  rewrite Hbind in H.
  erewrite run_bind in H by reflexivity. cbn iota in H.
  destruct (build_vae_graph_body_returns _ _ _ _ _ _ _ _ _ _ Hl H)
    as (pre & last_ & preD & first & Hhs & HhsD & Hlists & Hcalls).
  assert (Hlt : (l < length (lists g))%nat).
  { apply nth_error_Some. congruence. }
  split.
  - rewrite Hlists, nth_error_app1
      by (rewrite length_heap_set, length_app; lia).
    apply nth_error_heap_set_same. rewrite length_app. lia.
  - eexists _, _, (length (lists g)), (S (length (lists g))),
      pre, last_, preD, first.
    split; [exact Hcalls|].
    repeat split; try reflexivity; try (symmetry; assumption).
    + rewrite Hlists, nth_error_app1
        by (rewrite length_heap_set, length_app; cbn; lia).
      rewrite nth_error_heap_set_other by lia.
      now rewrite nth_error_app2, Nat.sub_diag by lia.
    + rewrite Hlists, nth_error_app2
        by (rewrite length_heap_set, length_app; cbn; lia).
      rewrite length_heap_set, length_app. cbn [length].
      now replace (S (length (lists g)) - (length (lists g) + 1))%nat
        with O by lia.
Qed.

(** The list a config holds under [n_hidden] is the list object
    [build_vae_graph] reverses: once [VAE.build_graph] has built the
    network, the config reads the widths in reverse order; every other
    list is as it was. *)
Theorem build_graph_reverses_config_list (config : Dict.t value) (l : nat)
    (hs : list value) (g g' : graph) (r : T * T * vae_outputs) :
  distinct (Dict.keys config) = true ->
  Dict.get "n_hidden" config = Some (VList l) ->
  nth_error (lists g) l = Some hs ->
  build_graph_network config g = (inr r, g') ->
  nth_error (lists g') l = Some (rev hs)
  /\ forall l', l' <> l -> (l' < length (lists g))%nat ->
                nth_error (lists g') l' = nth_error (lists g) l'.
Proof.
  intros Hkeys Hn Hl H. unfold build_graph_network in H.
  assert (Hitem : forall key v s s',
             config_item key config s = (inr v, s') -> s' = s).
  { intros key v s s'. unfold config_item.
    destruct (Dict.get key config); [|discriminate]. now intros [= _ <-]. }
  assert (Htruthy : forall v b s s', truthy v s = (inr b, s') -> s' = s).
  { intros v b s s' Ht.
    destruct v; cbn in Ht; try discriminate; try (now injection Ht as _ <-).
    unfold bind, deref, bind, gets in Ht.
    destruct (nth_error (lists s) l0); [|discriminate].
    now injection Ht as _ <-. }
  apply bind_returns in H as (in_size & g1 & H1 & H).
  apply Hitem in H1 as ->.
  apply bind_returns in H as (x_input & g1 & H1 & H).
  unfold lift in H1. injection H1 as _ <-.
  apply bind_returns in H as (in_size' & g1 & H1 & H).
  apply Hitem in H1 as ->.
  apply bind_returns in H as (y_target & g1 & H1 & H).
  unfold lift in H1. injection H1 as _ <-.
  apply bind_returns in H as (use_bn & g1 & H1 & H).
  apply Hitem in H1 as ->.
  apply bind_returns in H as (b & g1 & H1 & H).
  apply Htruthy in H1 as ->.
  apply bind_returns in H as (kw0 & g1 & H1 & H).
  assert (g1 = g) as ->.
  { destruct b.
    - apply bind_returns in H1 as (p & g2 & H1 & H2).
      unfold lift in H1. injection H1 as _ <-.
      now injection H2 as _ <-.
    - now injection H1 as _ <-. }
  clear H1.
  apply bind_returns in H as (kw & g1 & H1 & H).
  unfold lift, keyword_call in H1.
  destruct (existsb _ (Dict.update kw0 config)); [discriminate|].
  injection H1 as <- <-.
  apply bind_returns in H as (outs & g1 & Hcall & H).
  injection H as _ <-.
  unfold build_vae_graph, graph_def, build_vae_graph_fun in Hcall.
  match type of Hcall with
  | context [filter _ ?d] => fold (selected vae_co_varnames d) in Hcall
  end.
  unfold bind at 1, lift at 1 in Hcall.
  destruct (bind_params vae_params [] (selected vae_co_varnames _))
    as [e|[vs rest]] eqn:Hbind; [discriminate|].
  rename Hcall into Hbody.
  apply bind_vae_params_inv in Hbind
    as (v1 & v2 & v3 & v4 & v5 & -> & _ & _ & H3 & _ & _).
  rewrite get_selected_param in H3 by reflexivity.
  cbn [app Dict.get String.eqb Ascii.eqb Bool.eqb] in H3.
  rewrite (get_update_present "n_hidden" (VList l)) in H3
    by (try exact Hkeys; now apply get_In).
  injection H3 as <-.
  destruct (build_vae_graph_body_returns _ _ _ _ _ _ _ _ _ _ Hl Hbody)
    as (pre & last_ & preD & first & _ & _ & Hlists & _).
  assert (Hlt : (l < length (lists g))%nat).
  { apply nth_error_Some. congruence. }
  rewrite Hlists. split.
  - rewrite nth_error_app1 by (rewrite length_heap_set, length_app; lia).
    apply nth_error_heap_set_same. rewrite length_app. lia.
  - intros l' Hne Hl'.
    rewrite nth_error_app1 by (rewrite length_heap_set, length_app; lia).
    rewrite nth_error_heap_set_other by congruence.
    now apply nth_error_app1.
Qed.

(** *** What reaches [build_mlp_graph] *)

Definition mlp_keywords : list string :=
  [ "input_tensor"; "out_size"; "n_hidden"; "hidden_activation";
    "output_activation" ].

(** From one state to a later one, [build_mlp_graph] was only called with
    keyword arguments that satisfy [ok]. *)
Definition calls_only (ok : Dict.t value -> Prop) : relation graph :=
  fun g g' =>
    exists calls,
      mlp_calls g' = mlp_calls g ++ calls
      /\ Forall (fun c => ok (snd c)) calls.

#[local] Instance calls_only_PreOrder ok : PreOrder (calls_only ok).
Proof.
  split.
  - intros g. exists []. now rewrite app_nil_r.
  - intros a b c (c1 & H1 & F1) (c2 & H2 & F2). exists (c1 ++ c2). split.
    + now rewrite H2, H1, app_assoc.
    + apply Forall_app. now split.
Qed.

Lemma keeps_calls_only {A} ok (m : M graph A) :
  keeps mlp_calls m -> respects (calls_only ok) m.
Proof.
  apply respects_weaken. intros s s' H. exists []. unfold same in H.
  now rewrite app_nil_r.
Qed.

Lemma keeps_calls_deref l : keeps mlp_calls (deref l).
Proof. unfold deref. frame. Qed.

Lemma keeps_calls_getitem_last v : keeps mlp_calls (getitem_last v).
Proof. unfold getitem_last. frame. apply keeps_calls_deref. Qed.

Lemma keeps_calls_getitem_init v : keeps mlp_calls (getitem_init v).
Proof.
  unfold getitem_init, alloc. frame; try apply keeps_calls_deref.
  reflexivity.
Qed.

Lemma keeps_calls_list_reverse v : keeps mlp_calls (list_reverse v).
Proof.
  unfold list_reverse. frame; try apply keeps_calls_deref. reflexivity.
Qed.

Lemma keeps_calls_truthy v : keeps mlp_calls (truthy v).
Proof. unfold truthy. frame. apply keeps_calls_deref. Qed.

Lemma keeps_calls_config_item key config :
  keeps mlp_calls (config_item key config).
Proof. unfold config_item. frame. Qed.

Lemma calls_only_mlp ok scope explicit extra :
  ok (explicit ++ extra) ->
  respects (calls_only ok) (call_build_mlp_graph scope explicit extra).
Proof.
  intros Hok g.
  unfold call_build_mlp_graph, keyword_call, bind, lift, modify, gets.
  destruct (existsb _ extra); cbn [snd].
  - reflexivity.
  - exists [(scope, explicit ++ extra)].
    destruct (build_mlp_graph scope (explicit ++ extra) (lists g));
      cbn [snd mlp_calls record_mlp_call];
      (split; [reflexivity|]); now constructor.
Qed.

Lemma calls_only_body ok x ls n ha oa kwargs :
  (forall a b c d, ok (mlp_arguments a b c d ++ kwargs)) ->
  respects (calls_only ok) (build_vae_graph_body x ls n ha oa kwargs).
Proof.
  intros Hok. unfold build_vae_graph_body.
  frame;
    try (apply keeps_calls_only;
         first [apply keeps_calls_getitem_last
               |apply keeps_calls_getitem_init
               |apply keeps_calls_list_reverse]);
    now apply calls_only_mlp.
Qed.

Definition from_arguments_or_locals (kw : Dict.t value) : Prop :=
  incl (Dict.keys kw) (mlp_keywords ++ "kwargs" :: vae_locals).

Lemma calls_only_build_vae_graph (args : list value) (kwargs : Dict.t value) :
  respects (calls_only from_arguments_or_locals) (build_vae_graph args kwargs).
Proof.
  unfold build_vae_graph, graph_def, build_vae_graph_fun.
  fold (selected vae_co_varnames kwargs).
  intros g. unfold bind at 1, lift at 1.
  destruct (bind_params vae_params args (selected vae_co_varnames kwargs))
    as [e|[vs rest]] eqn:Hbind; [reflexivity|].
  assert (Hrest : forall a b c d,
             from_arguments_or_locals (mlp_arguments a b c d ++ rest)).
  { intros a b c d k Hk.
    unfold Dict.keys in Hk. rewrite map_app in Hk.
    apply in_app_or in Hk as [Hk|Hk]; [now apply in_or_app; left|].
    apply in_or_app. right.
    destruct (bind_params_rest _ _ _ _ _ Hbind k Hk) as [Hsel Hnot].
    apply (keys_filter_key (fun q => existsb (String.eqb q) vae_co_varnames))
      in Hsel as [_ Hsel].
    apply existsb_exists in Hsel as (q & Hq & Heq).
    apply String.eqb_eq in Heq as <-.
    unfold vae_co_varnames in Hq.
    apply in_app_or in Hq as [Hq|Hq]; [contradiction|exact Hq]. }
  destruct vs as [|v1 [|v2 [|v3 [|v4 [|v5 [|v6 vs]]]]]];
    try reflexivity.
  apply (calls_only_body _ _ _ _ _ _ _ Hrest).
Qed.

(** Whatever the config holds: [build_mlp_graph] is called with the five
    arguments [build_vae_graph] writes out and, besides them, only with
    config entries whose key happens to be the name of a local variable of
    [build_vae_graph].  Neither [use_bn] nor the [bn_is_training]
    placeholder that [VAE.build_graph] creates for it is among them. *)
Theorem batch_norm_settings_do_not_reach_mlp (config : Dict.t value)
    (g : graph) :
  exists calls,
    mlp_calls (snd (build_graph_network config g)) = mlp_calls g ++ calls
    /\ Forall (fun c =>
                 incl (Dict.keys (snd c))
                   (mlp_keywords ++ "kwargs" :: vae_locals)
                 /\ Dict.get "use_bn" (snd c) = None
                 /\ Dict.get "bn_is_training" (snd c) = None) calls.
Proof.
  assert (H : respects (calls_only from_arguments_or_locals)
                (build_graph_network config)).
  { unfold build_graph_network.
    frame;
      try (apply keeps_calls_only;
           first [apply keeps_calls_config_item|apply keeps_calls_truthy]);
      apply calls_only_build_vae_graph. }
  destruct (H g) as (calls & Hcalls & Hall).
  exists calls. split; [exact Hcalls|].
  apply (Forall_impl _ (P := fun c => from_arguments_or_locals (snd c)));
    [|exact Hall].
  intros [scope kw] Hkw. cbn [snd] in *. split; [exact Hkw|].
  split.
  - destruct (Dict.get "use_bn" kw) as [v|] eqn:Hg; [|reflexivity].
    apply get_In in Hg. apply (in_map fst) in Hg. apply Hkw in Hg.
    cbn in Hg. intuition discriminate.
  - destruct (Dict.get "bn_is_training" kw) as [v|] eqn:Hg; [|reflexivity].
    apply get_In in Hg. apply (in_map fst) in Hg. apply Hkw in Hg.
    cbn in Hg. intuition discriminate.
Qed.

End VAEGraph.

(** ** More on the loss of the VAE *)

Section VAELossMore.

Variable log_normal : positive -> Z -> spec_float.

Lemma kl_element_opp (sigma mean : spec_float) :
  kl_element log_normal (SFopp sigma) mean = kl_element log_normal sigma mean.
Proof. unfold kl_element. now rewrite square_opp. Qed.

Lemma combine_map_left {A B C} (f : A -> C) (a : list A) (b : list B) :
  combine (map f a) b = map (fun p => (f (fst p), snd p)) (combine a b).
Proof.
  revert b; induction a as [|x a IH]; intros [|y b]; simpl; try reflexivity.
  now rewrite IH.
Qed.

(** The loss reads the scale through its square only: a network that puts
    out [- sigma] where another puts out [sigma] has the same variational
    losses, bit for bit: a float32 number and its opposite have the same
    square. *)
Theorem variational_losses_sign (beta : spec_float)
    (latent_mean latent_sigma : tensor) :
  variational_losses log_normal beta latent_mean (tmap SFopp latent_sigma)
  = variational_losses log_normal beta latent_mean latent_sigma.
Proof.
  rewrite !variational_losses_formula. unfold tmap.
  rewrite combine_map_left, map_map. apply map_ext. intros [srow mrow].
  cbn [fst snd]. unfold kl_sample. f_equal.
  rewrite combine_map_left, map_map. f_equal. apply map_ext. intros [s m].
  cbn [fst snd]. apply kl_element_opp.
Qed.

End VAELossMore.

(** ** The further properties on concrete models *)

(** The base class: [build_graph] is not implemented. *)
Definition base_build_graph : M demo_model unit :=
  raise (NotImplementedError "build_graph must be implemented by child class").

Abbreviation base_from_checkpoint path :=
  (_init_from_checkpoint 0 tt demo_path demo_path (ret None) base_build_graph
     path).

Lemma init_from_checkpoint_failure_masked_witness :
  base_from_checkpoint "ckpt/0/config.json" (blank tt empty_world)
  = (inl (KeyError "log_file"),
     set_logger (Some error_logger)
       (set_config minimal_config
          (snd ((conf <- in_world
                          (TFModelConfig.load
                             (TFModelConfig.new (fun d => d) [])
                             "ckpt/0/config.json") ;;
                 _init_from_config 0 tt demo_path demo_path (ret None)
                   base_build_graph conf) (blank tt empty_world))))).
Proof.
  apply (init_from_checkpoint_failure_masked 0 tt demo_path demo_path
           (ret None) base_build_graph "ckpt/0/config.json"
           (blank tt empty_world) _
           (NotImplementedError
              "build_graph must be implemented by child class")).
  - vm_compute. reflexivity.
  - reflexivity.
Defined.

Lemma init_from_checkpoint_missing_file_witness :
  _init_from_checkpoint 0 tt demo_path demo_path (ret None) (ret tt)
    "ckpt/0/config.json" (blank tt empty_world)
  = (inr tt,
     snd (demo_init (TFModelConfig.new (fun d => d) [])
            (set_outside
               (set_stdout [IOError "ckpt/0/config.json"] empty_world)
               (blank tt empty_world)))).
Proof.
  apply (init_from_checkpoint_missing_file 0 tt demo_path demo_path
           (ret None) (ret tt) "ckpt/0/config.json" (blank tt empty_world)).
  - reflexivity.
  - vm_compute. reflexivity.
Defined.

Definition checkpoints_only : demo_model :=
  set_config
    (TFModelConfig.new (fun d => d) [("checkpoints_root", PStr "ckpt")])
    (blank tt empty_world).

Lemma init_saver_without_run_index_witness :
  exists s',
    (init_summaries 0 demo_path ;; init_saver demo_path) checkpoints_only
    = (inl (AttributeError "summaries_ind"), s')
    /\ checkpoint_dir (ckpt s') = checkpoint_dir (ckpt checkpoints_only).
Proof.
  apply (init_saver_without_run_index 0 demo_path demo_path checkpoints_only
           "ckpt" (PStr "tfmodel") (PInt 50));
    vm_compute; reflexivity.
Defined.

Definition demo_logger : logger_t :=
  {| lg_name := PStr "tfmodel"; lg_level := 10; lg_file := None;
     lg_records := [] |}.

(** What [saving_model] holds after its construction. *)
Definition demo_writer : file_writer Z := {| logdir := "runs/0"; events := [] |}.

Definition demo_summary_values : Dict.t (summary_value Z * string) :=
  [ ("epoch_train_loss",
     ({| sv_tag := "epoch_train_loss"; simple_value := 0 |}, "epoch"));
    ("epoch_valid_loss",
     ({| sv_tag := "epoch_valid_loss"; simple_value := 0 |}, "epoch"));
    ("step_train_loss",
     ({| sv_tag := "step_train_loss"; simple_value := 0 |}, "step"));
    ("step_valid_loss",
     ({| sv_tag := "step_valid_loss"; simple_value := 0 |}, "step")) ].

Lemma late_summary_is_not_written_witness :
  (add_summary 0 "acc" (Some "accuracy") "epoch" ;;
   update_summary "accuracy" 7) saving_model
  = (inr tt,
     set_logger
       (Some (log_record Level.WARNING (invalid_key_message "accuracy")
                demo_logger))
       (set_summ
          (set_summaries
             (Dict.set "accuracy" (0, "epoch") (summaries (summ saving_model)))
             (summ saving_model))
          saving_model)).
Proof.
  apply (late_summary_is_not_written 0 "acc" "accuracy" "epoch" 7
           saving_model demo_writer demo_summary_values demo_logger);
    vm_compute; reflexivity.
Defined.

Lemma update_then_write_witness :
  exists event_values s',
    (update_summary "epoch_train_loss" 7 ;; write_summary "epoch") saving_model
    = (inr tt, s')
    /\ summary_fwriter (summ s')
       = Some (Some {| logdir := logdir demo_writer;
                       events := events demo_writer
                                 ++ [(event_values,
                                      step_of_mode "epoch" saving_model)] |})
    /\ In {| sv_tag := "epoch_train_loss"; simple_value := 7 |} event_values
    /\ sess s' = sess saving_model.
Proof.
  apply (update_then_write "epoch_train_loss" "epoch" 7 saving_model
           demo_writer demo_summary_values
           {| sv_tag := "epoch_train_loss"; simple_value := 0 |});
    vm_compute; reflexivity.
Defined.

Lemma save_without_checkpoint_root_witness :
  save demo_default
  = (inr tt,
     set_logger
       (Some (log_record Level.WARNING no_checkpoint_root_message demo_logger))
       demo_default).
Proof.
  apply (save_without_checkpoint_root demo_default demo_logger);
    vm_compute; reflexivity.
Defined.

Lemma save_writes_config_once_witness :
  exists s',
    save saving_model = (inr tt, s')
    /\ sess s' = sess saving_model
    /\ (Dict.mem (path_join "ckpt/0" "config.json")
          (files (outside saving_model)) = true ->
        outside s' = outside saving_model)
    /\ (Dict.mem (path_join "ckpt/0" "config.json")
          (files (outside saving_model)) = false ->
        outside s'
        = snd (TFModelConfig.save (config saving_model)
                 (path_join "ckpt/0" "config.json") (outside saving_model))).
Proof.
  apply (save_writes_config_once saving_model "ckpt/0" (PInt 50));
    vm_compute; reflexivity.
Defined.

Lemma train_fewer_samples_than_batch_witness :
  demo_train [10; 20] (Some 5) demo_default
  = (inl (ValueError "not enough values to unpack"),
     set_entropy (S (entropy demo_default)) demo_default).
Proof.
  apply (train_fewer_samples_than_batch 0 demo_loss demo_loss demo_hook
           demo_hook demo_mean demo_permutation demo_randint demo_format
           [10; 20] [10; 20] 5 tt demo_default _
           {| trainset := None; validset := None; num_batches := None |});
    vm_compute; reflexivity.
Defined.

Lemma infer_in_batches_witness :
  exists blocks,
    chunklist [10; 20; 30; 40; 50] 2 = inr blocks
    /\ infer demo_output demo_vstack [10; 20; 30; 40; 50] (Some 2) tt
         demo_default
       = (outs <- for_each (fun rows => demo_output rows tt) blocks ;;
          if 1 <? Py.len outs then lift (demo_vstack outs)
          else lift (Py.item outs 0)) demo_default.
Proof.
  apply (infer_in_batches demo_output demo_vstack [10; 20; 30; 40; 50] 2 tt
           demo_default).
  lia.
Defined.

Lemma failed_calls_do_not_count_witness :
  global_step (sess (snd (demo_train [10; 20] (Some 5) demo_default)))
  = global_step (sess demo_default).
Proof.
  destruct demo_hooks_keep_counters as (Hloss & _ & Hhook).
  apply (proj2 (failed_calls_do_not_count 0 demo_loss demo_loss demo_hook
                  demo_hook demo_mean demo_permutation demo_randint
                  demo_format Hloss Hloss Hhook Hhook)
           (Some [10; 20]) (Some [10; 20]) None None (Some 5) tt demo_default
           (ValueError "not enough values to unpack")).
  vm_compute. reflexivity.
Defined.

Lemma demo_index_lengths :
  (forall seed n, length (demo_permutation seed n) = Z.to_nat n)
  /\ (forall seed high n, length (demo_randint seed high n) = Z.to_nat n).
Proof.
  split; intros; unfold demo_permutation, demo_randint, Py.range;
    now rewrite ?length_map, length_seq.
Qed.

Lemma epoch_batch_count_witness :
  batch_step
    (sess (snd (demo_train [10; 20; 30; 40; 50] (Some 2) demo_default)))
  = Nat.iter (length [10; 20; 30; 40; 50] / Z.to_nat 2) inc32
      (batch_step (sess demo_default)).
Proof.
  destruct demo_hooks_keep_counters as (Hloss & _ & Hhook).
  destruct demo_index_lengths as (Hperm & Hrand).
  apply (epoch_batch_count 0 demo_loss demo_loss demo_hook demo_hook
           demo_mean demo_permutation demo_randint demo_format
           Hloss Hloss Hhook Hhook
           [10; 20; 30; 40; 50] [10; 20; 30; 40; 50] None None 2 tt
           demo_default _
           {| trainset := None; validset := None; num_batches := None |}
           (0, 0) Hperm Hrand).
  - vm_compute. reflexivity.
  - reflexivity.
  - lia.
  - vm_compute. reflexivity.
Defined.

(** *** A toy framework for the VAE graph: tensors are numbered *)

Definition toy_value : Type := @value Z.

Definition toy_mlp (scope : string) (kw : Dict.t toy_value)
    (h : list (list toy_value)) : exn + Z := inr 1.
Definition toy_dense (name : string) (t : Z) (units activation : toy_value)
  : exn + Z := inr (t + 1).
Definition toy_placeholder (name : string) (shape : list toy_value)
  : exn + Z := inr 0.
Definition toy_random_normal (shape : toy_value) : exn + Z := inr 7.
Definition toy_op (t : Z) : Z := t + 10.
Definition toy_op2 (a b : Z) : Z := a + b.
Definition toy_add_float (t : Z) (c : string) : Z := t.
Definition toy_getitem (t : Z) : exn + Z := inr t.
Definition toy_width (t : Z) : exn + toy_value := inr (VInt 3).

Abbreviation toy_build_vae_graph :=
  (build_vae_graph toy_mlp toy_dense toy_random_normal toy_op toy_op toy_op
     toy_op2 toy_op2 toy_add_float toy_getitem toy_getitem toy_width).

Abbreviation toy_build_graph_network :=
  (build_graph_network toy_mlp toy_dense toy_placeholder toy_random_normal
     toy_op toy_op toy_op toy_op2 toy_op2 toy_add_float toy_getitem
     toy_getitem toy_width).

(** One list object, the widths [20, 10]. *)
Definition toy_graph : @graph Z :=
  {| lists := [[VInt 20; VInt 10]]; mlp_calls := [] |}.

Definition toy_kwargs : Dict.t toy_value :=
  [ ("input_tensor", VTensor 0); ("latent_size", VInt 2);
    ("n_hidden", VList 0); ("hidden_activation", VNone);
    ("output_activation", VNone); ("use_bn", VBool false) ].

Definition toy_config : Dict.t toy_value :=
  [ ("in_size", VInt 3); ("latent_size", VInt 2); ("n_hidden", VList 0);
    ("hidden_activation", VNone); ("output_activation", VNone);
    ("use_bn", VBool true) ].

Lemma build_vae_graph_empty_hidden_witness :
  toy_build_vae_graph [] toy_kwargs {| lists := [[]]; mlp_calls := [] |}
  = (inl (IndexError "list index out of range"),
     {| lists := [[]]; mlp_calls := [] |}).
Proof.
  apply (build_vae_graph_empty_hidden toy_mlp toy_dense toy_random_normal
           toy_op toy_op toy_op toy_op2 toy_op2 toy_add_float toy_getitem
           toy_getitem toy_width toy_kwargs (VTensor 0) (VInt 2) VNone VNone
           0%nat);
    reflexivity.
Defined.

Lemma build_vae_graph_layer_plan_witness :
  let g' := snd (toy_build_vae_graph [] toy_kwargs toy_graph) in
  nth_error (lists g') 0 = Some (rev [VInt 20; VInt 10])
  /\ exists kwE kwD le ld pre last_ preD first,
       mlp_calls g'
       = mlp_calls toy_graph ++ [("encoder", kwE); ("decoder", kwD)]
       /\ Dict.get "input_tensor" kwE = Some (VTensor 0)
       /\ Dict.get "n_hidden" kwE = Some (VList le)
       /\ nth_error (lists g') le = Some pre
       /\ Dict.get "out_size" kwE = Some last_
       /\ pre ++ [last_] = [VInt 20; VInt 10]
       /\ Dict.get "input_tensor" kwD = Some (VTensor 21)
       /\ Dict.get "n_hidden" kwD = Some (VList ld)
       /\ nth_error (lists g') ld = Some preD
       /\ Dict.get "out_size" kwD = Some first
       /\ preD ++ [first] = rev [VInt 20; VInt 10].
Proof.
  cbv zeta.
  apply (build_vae_graph_layer_plan toy_mlp toy_dense toy_random_normal
           toy_op toy_op toy_op toy_op2 toy_op2 toy_add_float toy_getitem
           toy_getitem toy_width toy_kwargs (VTensor 0) (VInt 2) VNone VNone
           0%nat [VInt 20; VInt 10] toy_graph
           (snd (toy_build_vae_graph [] toy_kwargs toy_graph))
           (2, 21, 2, 12, 12, 22));
    vm_compute; reflexivity.
Defined.

Lemma build_graph_reverses_config_list_witness :
  let g' := snd (toy_build_graph_network toy_config toy_graph) in
  nth_error (lists g') 0 = Some (rev [VInt 20; VInt 10])
  /\ forall l', l' <> 0%nat -> (l' < length (lists toy_graph))%nat ->
                nth_error (lists g') l' = nth_error (lists toy_graph) l'.
Proof.
  cbv zeta.
  apply (build_graph_reverses_config_list toy_mlp toy_dense toy_placeholder
           toy_random_normal toy_op toy_op toy_op toy_op2 toy_op2
           toy_add_float toy_getitem toy_getitem toy_width toy_config 0%nat
           [VInt 20; VInt 10] toy_graph
           (snd (toy_build_graph_network toy_config toy_graph))
           (0, 0, (2, 21, 2, 12, 12, 22)));
    vm_compute; reflexivity.
Defined.
